(** * EXIF GPS extraction of the VSE Tools add-on (open_in_gimp.py)

    A shallow embedding of [read_jpeg_exif_gps] and [get_gps_coordinates]:
    the file handle is an explicit state (content, cursor, trace of file
    operations), Python exceptions are an error outcome, Python floats are
    binary64 primitive floats, and the IFD dictionaries are finite maps. *)

From Stdlib Require Import ZArith QArith Qabs List String Ascii Lia.
From Stdlib.Strings Require Import Byte.
From Stdlib Require Import Floats.
From stdpp Require Import base option list gmap.

Local Open Scope Z_scope.

(** ** Bytes objects *)

Abbreviation bytes := (list byte).

Definition byte_val (b : byte) : Z := Z.of_N (Byte.to_N b).

Fixpoint bytes_eqb (a b : bytes) : bool :=
  match a, b with
  | [], [] => true
  | x :: a', y :: b' => Byte.eqb x y && bytes_eqb a' b'
  | _, _ => false
  end.

(** Python's [len]. *)
Definition len {A} (l : list A) : Z := Z.of_nat (length l).

(** Python's slice [l[a:b]] (step 1), negative indices counted from the end. *)
Definition slice_index (n i : Z) : Z :=
  if i <? 0 then Z.max (i + n) 0 else Z.min i n.

Definition py_slice {A} (l : list A) (a b : Z) : list A :=
  let lo := slice_index (len l) a in
  let hi := slice_index (len l) b in
  take (Z.to_nat (hi - lo)) (drop (Z.to_nat lo) l).

(** ** Exceptions and outcomes *)

Inductive exn : Type :=
| OSError            (* open() of a missing file, seek to a negative position *)
| StructError        (* struct.unpack on a buffer of the wrong length *)
| ZeroDivisionError.

(** [Diverge] is the outcome of a loop that is cut off by its fuel; no
    [except] clause catches it. *)
Inductive outcome (A : Type) : Type :=
| Ok (a : A)
| Raise (e : exn)
| Diverge.
Arguments Ok {A} a.
Arguments Raise {A} e.
Arguments Diverge {A}.

(** Sequencing of steps that touch no file. *)
Definition obind {A B} (o : outcome A) (k : A -> outcome B) : outcome B :=
  match o with
  | Ok a => k a
  | Raise e => Raise e
  | Diverge => Diverge
  end.

(** ** struct.unpack *)

Inductive endianness : Type :=
| Little   (* '<' *)
| Big.     (* '>' *)

Definition be_value (b : bytes) : Z :=
  fold_left (fun acc x => acc * 256 + byte_val x) b 0.

Definition le_value (b : bytes) : Z := be_value (rev b).

(** [struct.unpack(endian + fmt, b)[0]] for an unsigned format of [width]
    bytes: struct.error unless [b] has exactly [width] bytes. *)
Definition struct_unpack (width : Z) (endian : endianness) (b : bytes) : outcome Z :=
  if len b =? width then
    Ok (match endian with Big => be_value b | Little => le_value b end)
  else Raise StructError.

Definition unpack_H : endianness -> bytes -> outcome Z := struct_unpack 2.
Definition unpack_I : endianness -> bytes -> outcome Z := struct_unpack 4.

(** ** Python numbers: [int] and [float] *)

Inductive pynum : Type :=
| PInt (z : Z)
| PFloat (f : float).

(** [float(z)], exact for 0 <= z < 2^53; the decoder only converts the
    unsigned 32-bit values it unpacked and the literals 0, 60 and 3600. *)
Definition float_of_int (z : Z) : float := PrimFloat.of_uint63 (Uint63.of_Z z).

Definition to_float (x : pynum) : float :=
  match x with PInt z => float_of_int z | PFloat f => f end.

(** [x / y]: true division; int / int raises ZeroDivisionError on a zero
    divisor and otherwise is the correctly rounded quotient. *)
Definition py_truediv (x y : pynum) : outcome pynum :=
  match y with
  | PInt 0 => Raise ZeroDivisionError
  | PInt _ => Ok (PFloat (to_float x / to_float y))
  | PFloat g =>
      if PrimFloat.eqb g 0 then Raise ZeroDivisionError
      else Ok (PFloat (to_float x / g))
  end.

Definition py_add (x y : pynum) : pynum :=
  match x, y with
  | PInt a, PInt b => PInt (a + b)
  | _, _ => PFloat (to_float x + to_float y)
  end.

Definition py_neg (x : pynum) : pynum :=
  match x with
  | PInt a => PInt (- a)
  | PFloat f => PFloat (- f)
  end.

(** ** The open file: content, cursor and a trace of the operations on it *)

Inductive event : Type :=
| EvOpen (path : string)
| EvRead (at_pos n : Z)
| EvSeek (target : Z)
| EvClose
| EvPrint (e : exn).

Record handle : Type := mkHandle {
  content : bytes;
  pos : Z;
  trace : list event
}.

Definition M (A : Type) : Type := handle -> outcome A * handle.

Definition ret {A} (a : A) : M A := fun h => (Ok a, h).

Definition bind {A B} (m : M A) (k : A -> M B) : M B :=
  fun h =>
    match m h with
    | (Ok a, h') => k a h'
    | (Raise e, h') => (Raise e, h')
    | (Diverge, h') => (Diverge, h')
    end.

Definition lift {A} (o : outcome A) : M A := fun h => (o, h).

Notation "'let*' x ':=' m 'in' k" := (bind m (fun x => k))
  (at level 10, x pattern, m at level 100, k at level 200).

(** [f.read(n)]: the bytes from the cursor on, at most [n] of them (all of
    them when [n] is negative); the cursor moves past what was read. A read
    at or past the end of the file returns fewer bytes, or none, and is not
    an error. Memory is not modelled: a read of any size succeeds. *)
Definition f_read (n : Z) : M bytes := fun h =>
  let rest := drop (Z.to_nat (pos h)) (content h) in
  let got := if n <? 0 then rest else take (Z.to_nat n) rest in
  (Ok got, mkHandle (content h) (pos h + len got) (trace h ++ [EvRead (pos h) n])).

Definition f_tell : M Z := fun h => (Ok (pos h), h).

(** [f.seek(target)]: absolute; a negative target is an error, one past the
    end of the file is not. *)
Definition f_seek (target : Z) : M unit := fun h =>
  if target <? 0 then (Raise OSError, h)
  else (Ok tt, mkHandle (content h) target (trace h ++ [EvSeek target])).

(** [f.seek(delta, 1)]: relative to the cursor. *)
Definition f_seek_cur (delta : Z) : M unit := fun h => f_seek (pos h + delta) h.

(** ** The closures of [read_jpeg_exif_gps] *)

(** One IFD entry as stored in the dictionary: (type_id, count, value_offset). *)
Abbreviation entry := (Z * Z * bytes)%type.
Abbreviation ifd := (gmap Z entry).

Section Tiff.
(** The variables the closures capture. *)
Variable tiff_start : Z.
Variable endian : endianness.

(** The body of [for _ in range(num_entries)]. *)
Fixpoint read_entries (num_entries : nat) (entries : ifd) : M ifd :=
  match num_entries with
  | O => ret entries
  | S n =>
      let* b := f_read 2 in
      let* tag := lift (unpack_H endian b) in
      let* b := f_read 2 in
      let* type_id := lift (unpack_H endian b) in
      let* b := f_read 4 in
      let* count := lift (unpack_I endian b) in
      let* value_offset := f_read 4 in
      read_entries n (<[tag := (type_id, count, value_offset)]> entries)
  end.

Definition read_ifd_entries (offset : Z) : M ifd :=
  let* _ := f_seek (tiff_start + offset) in
  let* b := f_read 2 in
  let* num_entries := lift (unpack_H endian b) in
  read_entries (Z.to_nat num_entries) ∅.

Definition type_sizes : gmap Z Z :=
  list_to_map [(1, 1); (2, 1); (3, 2); (4, 4); (5, 8); (7, 1); (9, 4); (10, 8)].

(** [type_sizes.get(type_id, 1) * count] *)
Definition entry_size (type_id count : Z) : Z :=
  default 1 (type_sizes !! type_id) * count.

Definition get_value (e : entry) : M bytes :=
  let '(type_id, count, value_offset) := e in
  let size := entry_size type_id count in
  if size <=? 4 then ret value_offset
  else
    let* offset := lift (unpack_I endian value_offset) in
    let* p := f_tell in
    let* _ := f_seek (tiff_start + offset) in
    let* data := f_read size in
    let* _ := f_seek p in
    ret data.

(** [data] is always a bytes object here, so the [isinstance] test of the
    source holds and its [else: return 0] branch is not reachable. *)
Definition read_rational (data : bytes) (offset : Z) : outcome pynum :=
  match unpack_I endian (py_slice data offset (offset + 4)) with
  | Ok num =>
      match unpack_I endian (py_slice data (offset + 4) (offset + 8)) with
      | Ok den =>
          if negb (den =? 0) then py_truediv (PInt num) (PInt den)
          else Ok (PInt 0)
      | Raise e => Raise e
      | Diverge => Diverge
      end
  | Raise e => Raise e
  | Diverge => Diverge
  end.

Definition read_gps_coord (data : bytes) : outcome pynum :=
  obind (read_rational data 0) (fun degrees =>
  obind (read_rational data 8) (fun minutes =>
  obind (read_rational data 16) (fun seconds =>
  obind (py_truediv minutes (PInt 60)) (fun m60 =>
  obind (py_truediv seconds (PInt 3600)) (fun s3600 =>
  Ok (py_add (py_add degrees m60) s3600)))))).
End Tiff.

(** ** [read_jpeg_exif_gps] *)

Definition SOI : bytes := [xff; xd8].
Definition APP1 : bytes := [xff; xe1].
Definition EXIF : bytes := [x45; x78; x69; x66; x00; x00].   (* b'Exif\x00\x00' *)

(** [x in (a, b, ...)] on bytes objects. *)
Definition bytes_in (x : bytes) (candidates : list bytes) : bool :=
  existsb (bytes_eqb x) candidates.

(** The [while True] loop looking for the APP1 marker: [true] when it leaves
    through [break], [false] when it leaves through [return None]. *)
Fixpoint find_app1 (fuel : nat) : M bool :=
  match fuel with
  | O => lift Diverge
  | S fuel' =>
      let* marker := f_read 2 in
      if len marker <? 2 then ret false
      else if bytes_eqb marker APP1 then ret true
      else if bytes_eqb (py_slice marker 0 1) [xff] then
        let* b := f_read 2 in
        let* length := lift (unpack_H Big b) in
        let* _ := f_seek_cur (length - 2) in
        find_app1 fuel'
      else ret false
  end.

Abbreviation coords := (pynum * pynum)%type.

(** A hemisphere reference: negate when the value starts with one of [refs]. *)
Definition apply_ref (refs : list bytes) (ref_value : bytes) (x : pynum) : pynum :=
  if bytes_in (py_slice ref_value 0 1) refs then py_neg x else x.

(** From "if 0x0002 not in gps_ifd or 0x0004 not in gps_ifd" to the end. *)
Definition decode_gps (tiff_start : Z) (endian : endianness) (gps_ifd : ifd)
  : M (option coords) :=
  match gps_ifd !! 0x0002, gps_ifd !! 0x0004 with
  | Some lat_entry, Some lon_entry =>
      let* lat_data := get_value tiff_start endian lat_entry in
      let* latitude := lift (read_gps_coord endian lat_data) in
      let* latitude :=
        match gps_ifd !! 0x0001 with
        | Some e =>
            let* lat_ref := get_value tiff_start endian e in
            ret (apply_ref [[x53]; [x73]] lat_ref latitude)     (* b'S', b's' *)
        | None => ret latitude
        end in
      let* lon_data := get_value tiff_start endian lon_entry in
      let* longitude := lift (read_gps_coord endian lon_data) in
      let* longitude :=
        match gps_ifd !! 0x0003 with
        | Some e =>
            let* lon_ref := get_value tiff_start endian e in
            ret (apply_ref [[x57]; [x77]] lon_ref longitude)    (* b'W', b'w' *)
        | None => ret longitude
        end in
      ret (Some (latitude, longitude))
  | _, _ => ret None
  end.

(** From "Read IFD0" on. *)
Definition decode_ifds (tiff_start : Z) (endian : endianness) (ifd_offset : Z)
  : M (option coords) :=
  let* ifd0 := read_ifd_entries tiff_start endian ifd_offset in
  match ifd0 !! 0x8825 with
  | None => ret None
  | Some (_, _, raw) =>
      let* gps_offset := lift (unpack_I endian raw) in
      let* gps_ifd := read_ifd_entries tiff_start endian gps_offset in
      decode_gps tiff_start endian gps_ifd
  end.

Definition byte_order (tiff_header : bytes) : option endianness :=
  if bytes_eqb (py_slice tiff_header 0 2) [x49; x49] then Some Little      (* b'II' *)
  else if bytes_eqb (py_slice tiff_header 0 2) [x4d; x4d] then Some Big    (* b'MM' *)
  else None.

(** From "Read APP1 length and EXIF header" to "Get offset to first IFD":
    the TIFF context (tiff_start, endian, ifd_offset), or [None] where the
    source returns None. *)
Definition read_tiff_header : M (option (Z * endianness * Z)) :=
  let* b := f_read 2 in
  let* length := lift (unpack_H Big b) in
  let* exif_header := f_read 6 in
  if negb (bytes_eqb exif_header EXIF) then ret None
  else
    let* tiff_start := f_tell in
    let* tiff_header := f_read 8 in
    match byte_order tiff_header with
    | None => ret None
    | Some endian =>
        let* ifd_offset := lift (unpack_I endian (py_slice tiff_header 4 8)) in
        ret (Some (tiff_start, endian, ifd_offset))
    end.

(** The [with] block up to the TIFF header. *)
Definition locate_tiff (fuel : nat) : M (option (Z * endianness * Z)) :=
  let* magic := f_read 2 in
  if negb (bytes_eqb magic SOI) then ret None
  else
    let* found := find_app1 fuel in
    if found then read_tiff_header else ret None.

(** The body of the [with] block. *)
Definition jpeg_body (fuel : nat) : M (option coords) :=
  let* tiff := locate_tiff fuel in
  match tiff with
  | None => ret None
  | Some (tiff_start, endian, ifd_offset) => decode_ifds tiff_start endian ifd_offset
  end.

(** The file system: the content of the file at a path, [None] when
    [open(path, 'rb')] fails. *)
Abbreviation filesystem := (string -> option bytes).

(** The result and the trace of everything done to the file. The [with]
    block closes the file before the [except] clause prints the error. The
    marker loop gets more fuel than the file has bytes, which it cannot use
    up ([find_app1_converges] below). *)
Definition read_jpeg_exif_gps (fs : filesystem) (filepath : string)
  : outcome (option coords) * list event :=
  match fs filepath with
  | None => (Ok None, [EvOpen filepath; EvPrint OSError])
  | Some c =>
      match jpeg_body (S (length c)) (mkHandle c 0 [EvOpen filepath]) with
      | (Ok r, h) => (Ok r, trace h ++ [EvClose])
      | (Raise e, h) => (Ok None, trace h ++ [EvClose; EvPrint e])
      | (Diverge, h) => (Diverge, trace h)
      end
  end.

(** ** [os.path.splitext] and [str.lower]

    Paths are strings of bytes (UTF-8). The separators and the dot are ASCII,
    and no character other than 'J', 'P', 'E', 'G' lower-cases to one of
    'j', 'p', 'e', 'g', so lower-casing the ASCII letters only decides the
    comparison with ".jpg" and ".jpeg" as [str.lower] does. *)

Abbreviation str := (list ascii).

Record os_path : Type := mkOsPath {
  sep : ascii;
  altsep : option ascii;
  extsep : ascii
}.

Definition posixpath : os_path := mkOsPath "/" None ".".
Definition ntpath : os_path := mkOsPath "\" (Some "/"%char) ".".

(** [p.rfind(c)] for a one-character [c]: the highest index, or -1. *)
Definition rfind (c : ascii) (p : str) : Z :=
  snd (fold_left (fun '(i, r) x => (i + 1, if Ascii.eqb x c then i else r)) p (0, -1)).

(** The loop "skip all leading dots" of genericpath._splitext, run for the
    [n = dotIndex - filenameIndex] iterations its condition allows: [true]
    when it returns the split from inside the loop. *)
Fixpoint has_name_before_dot (n : nat) (p : str) (ext_sep : ascii) (filenameIndex : Z) : bool :=
  match n with
  | O => false
  | S n' =>
      if negb (bool_decide (py_slice p filenameIndex (filenameIndex + 1) = [ext_sep]))
      then true
      else has_name_before_dot n' p ext_sep (filenameIndex + 1)
  end.

Definition splitext (os : os_path) (p : str) : str * str :=
  let sepIndex := rfind (sep os) p in
  let sepIndex :=
    match altsep os with
    | Some a => Z.max sepIndex (rfind a p)
    | None => sepIndex
    end in
  let dotIndex := rfind (extsep os) p in
  if (sepIndex <? dotIndex)
     && has_name_before_dot (Z.to_nat (dotIndex - (sepIndex + 1))) p (extsep os) (sepIndex + 1)
  then (py_slice p 0 dotIndex, py_slice p dotIndex (len p))
  else (p, []).

Definition lower_char (c : ascii) : ascii :=
  let n := nat_of_ascii c in
  if (65 <=? n)%nat && (n <=? 90)%nat then ascii_of_nat (n + 32) else c.

Definition lower (s : str) : str := map lower_char s.

(** ** [get_gps_coordinates] *)

Definition get_gps_coordinates (os : os_path) (fs : filesystem) (filepath : string)
  : outcome (option coords) * list event :=
  let ext := lower (snd (splitext os (list_ascii_of_string filepath))) in
  if bool_decide (ext ∈ [list_ascii_of_string ".jpg"; list_ascii_of_string ".jpeg"])
  then read_jpeg_exif_gps fs filepath
  else (Ok None, []).

(** ** The exact value of a float, for stating tolerances *)

Definition float_value (f : float) : option Q :=
  match Prim2SF f with
  | S754_zero _ => Some 0%Q
  | S754_finite s m e =>
      Some ((if s then -1 else 1) * inject_Z (Zpos m) * Qpower 2 e)%Q
  | S754_infinity _ | S754_nan => None
  end.

(** | x - target | <= tol, on the exact value of [x]; a Python int is exact. *)
Definition within (x : pynum) (target tol : Q) : bool :=
  let v := match x with
           | PInt z => Some (inject_Z z)
           | PFloat f => float_value f
           end in
  match v with
  | Some q => Qle_bool (Qabs (q - target)) tol
  | None => false
  end.

(** ** Building EXIF blocks, for the worked examples *)

Definition byte_of (z : Z) : byte := default x00 (Byte.of_N (Z.to_N (z mod 256))).

Definition pack_be (width : nat) (z : Z) : bytes :=
  rev (map (fun i => byte_of (z / 256 ^ Z.of_nat i)) (seq 0 width)).

Definition pack (width : nat) (e : endianness) (z : Z) : bytes :=
  match e with Big => pack_be width z | Little => rev (pack_be width z) end.

Definition rationals (e : endianness) (l : list (Z * Z)) : bytes :=
  flat_map (fun '(n, d) => pack 4 e n ++ pack 4 e d) l.

Definition ifd_entry (e : endianness) (tag type_id count : Z) (value : bytes) : bytes :=
  pack 2 e tag ++ pack 2 e type_id ++ pack 4 e count ++ value.

Definition tiff_magic (e : endianness) : bytes :=
  (match e with Big => [x4d; x4d] | Little => [x49; x49] end) ++ pack 2 e 42 ++ pack 4 e 8.

(** A TIFF block: IFD0 at 8 with the GPS pointer, the GPS IFD at 26 with the
    four tags, latitude 40 26' 46'' at 80 and longitude 73 59' 2'' at 104. *)
Definition sample_tiff (e : endianness) (lat_ref lon_ref : byte) : bytes :=
  tiff_magic e ++
  pack 2 e 1 ++ ifd_entry e 0x8825 4 1 (pack 4 e 26) ++ pack 4 e 0 ++
  pack 2 e 4 ++
    ifd_entry e 1 2 2 [lat_ref; x00; x00; x00] ++
    ifd_entry e 2 5 3 (pack 4 e 80) ++
    ifd_entry e 3 2 2 [lon_ref; x00; x00; x00] ++
    ifd_entry e 4 5 3 (pack 4 e 104) ++
    pack 4 e 0 ++
  rationals e [(40, 1); (26, 1); (46, 1)] ++
  rationals e [(73, 1); (59, 1); (2, 1)].

(** SOI, an APP0 segment to skip, the APP1 segment with [tiff], EOI. *)
Definition jpeg_of_tiff (tiff : bytes) : bytes :=
  SOI ++ [xff; xe0] ++ pack 2 Big 16 ++ repeat x00 14 ++
  APP1 ++ pack 2 Big (2 + 6 + len tiff) ++ EXIF ++ tiff ++ [xff; xd9].

Definition sample_jpeg (e : endianness) (lat_ref lon_ref : byte) : bytes :=
  jpeg_of_tiff (sample_tiff e lat_ref lon_ref).

(** A file system with one file. *)
Definition single_file (name : string) (c : bytes) : filesystem :=
  fun p => if String.eqb p name then Some c else None.

(** IFD0 without the GPS pointer: one entry, tag 0x010F (Make). *)
Definition tiff_without_gps (e : endianness) : bytes :=
  tiff_magic e ++
  pack 2 e 1 ++ ifd_entry e 0x010F 2 2 [x41; x00; x00; x00] ++ pack 4 e 0.

(** A GPS IFD with the latitude (tags 1 and 2) but no longitude. *)
Definition tiff_without_longitude (e : endianness) : bytes :=
  tiff_magic e ++
  pack 2 e 1 ++ ifd_entry e 0x8825 4 1 (pack 4 e 26) ++ pack 4 e 0 ++
  pack 2 e 2 ++
    ifd_entry e 1 2 2 [x4e; x00; x00; x00] ++
    ifd_entry e 2 5 3 (pack 4 e 56) ++
    pack 4 e 0 ++
  rationals e [(40, 1); (26, 1); (46, 1)].

(** A file that ends inside the last entry of its GPS IFD: the coordinate
    values come first (latitude at 26, longitude at 50), the GPS IFD at 74
    is the last thing in the file, and of the value field of its last entry,
    the longitude reference, only the first byte 'W' is there. *)
Definition truncated_jpeg (e : endianness) : bytes :=
  SOI ++ APP1 ++ pack 2 Big 129 ++ EXIF ++
  tiff_magic e ++
  pack 2 e 1 ++ ifd_entry e 0x8825 4 1 (pack 4 e 74) ++ pack 4 e 0 ++
  rationals e [(40, 1); (26, 1); (46, 1)] ++
  rationals e [(73, 1); (59, 1); (2, 1)] ++
  pack 2 e 4 ++
    ifd_entry e 2 5 3 (pack 4 e 26) ++
    ifd_entry e 4 5 3 (pack 4 e 50) ++
    ifd_entry e 1 2 2 [x4e; x00; x00; x00] ++
    ifd_entry e 3 2 2 [x57].

(** ** Reading aids for the statements *)

(** The value of a rational as [read_rational] computes it: the int 0 for a
    zero denominator, the float quotient otherwise. *)
Definition ratio (num den : Z) : pynum :=
  if den =? 0 then PInt 0 else PFloat (float_of_int num / float_of_int den).

(** degrees + minutes / 60 + seconds / 3600 in Python's arithmetic. *)
Definition dms (degrees minutes seconds : pynum) : pynum :=
  PFloat (to_float degrees + to_float minutes / float_of_int 60
          + to_float seconds / float_of_int 3600).

(** [x >= 0] and [x <= 0] as Python evaluates them. *)
Definition py_nonneg (x : pynum) : bool :=
  match x with
  | PInt z => 0 <=? z
  | PFloat f => (0 <=? f)%float
  end.

Definition py_nonpos (x : pynum) : bool :=
  match x with
  | PInt z => z <=? 0
  | PFloat f => (f <=? 0)%float
  end.

(** Sign of a float in its IEEE 754 reading: +0, a positive number or
    +infinity; and a positive number. *)
Definition sf_nonneg (x : spec_float) : Prop :=
  match x with
  | S754_zero false | S754_infinity false | S754_finite false _ _ => True
  | _ => False
  end.

Definition sf_positive (x : spec_float) : Prop :=
  match x with
  | S754_finite false _ _ => True
  | _ => False
  end.

(** The value of an optional reference tag, resolved from the handle [h]:
    none when the tag is absent. *)
Definition resolves_to (tiff_start : Z) (endian : endianness) (h : handle)
    (e : option entry) (v : option bytes) : Prop :=
  match e, v with
  | None, None => True
  | Some e, Some v => fst (get_value tiff_start endian e h) = Ok v
  | _, _ => False
  end.

(** The reference value is there, is not empty and starts with one of [cs]. *)
Definition first_byte_in (v : option bytes) (cs : list byte) : bool :=
  match v with
  | Some (b :: _) => existsb (Byte.eqb b) cs
  | _ => false
  end.

(** The computation [m] started from [h] is not cut off by the fuel of a loop. *)
Definition converges {A} (m : M A) (h : handle) : Prop := fst (m h) <> Diverge.

(** ... from every handle. *)
Definition total {A} (m : M A) : Prop := forall h, converges m h.


(** ** Reading aids for the segment scanner and the IFD reader *)

(** A JPEG segment that is not APP1: the marker FF [m], a two-byte
    big-endian length that counts itself, and the payload. *)
Definition other_segment (s : bytes) : Prop :=
  exists (m : byte) (lenb payload : bytes) (L : Z),
    s = [xff; m] ++ lenb ++ payload /\
    m <> xe1 /\
    unpack_H Big lenb = Ok L /\
    len payload = L - 2.

(** An unsigned field of [w] bytes at position [p] of the file. *)
Definition field (endian : endianness) (c : bytes) (p w : Z) : Z :=
  match endian with
  | Big => be_value (py_slice c p (p + w))
  | Little => le_value (py_slice c p (p + w))
  end.

(** The 12-byte directory entry at [p]: its tag and what the dictionary
    stores for it. *)
Definition entry_at (endian : endianness) (c : bytes) (p : Z) : Z * entry :=
  (field endian c p 2,
   (field endian c (p + 2) 2, field endian c (p + 4) 4, py_slice c (p + 8) (p + 12))).

(** The [n] consecutive entries from [p] on, in file order. *)
Fixpoint entries_at (endian : endianness) (c : bytes) (p : Z) (n : nat) : list (Z * entry) :=
  match n with
  | O => []
  | S k => entry_at endian c p :: entries_at endian c (p + 12) k
  end.

(** Two handles that show the same bytes from the bases [ts] and [ts'] on,
    with cursors at the same distance past their base. *)
Definition same_view (ts ts' : Z) (h h' : handle) : Prop :=
  0 <= ts /\ 0 <= ts' /\ ts <= pos h /\
  pos h' - ts' = pos h - ts /\
  drop (Z.to_nat ts) (content h) = drop (Z.to_nat ts') (content h').

(** Two computations that, started from handles with the same view, end
    with the same outcome and again with the same view. *)
Definition sim {A} (ts ts' : Z) (m m' : M A) : Prop :=
  forall h h', same_view ts ts' h h' ->
    exists o h1 h1', m h = (o, h1) /\ m' h' = (o, h1') /\ same_view ts ts' h1 h1'.

(** [entries[tag] = ...] for a parsed entry. *)
Definition store_entry (entries : ifd) (te : Z * entry) : ifd :=
  <[ fst te := snd te ]> entries.

(** What the reader keeps of an entry fits the fields of the format. *)
Definition entry_in_range (tag : Z) (e : entry) : Prop :=
  0 <= tag < 65536 /\
  0 <= fst (fst e) < 65536 /\
  0 <= snd (fst e) < 2 ^ 32 /\
  len (snd e) <= 4.

(** ** GIMP path detection *)

(** The candidate lists of [get_default_gimp_path]; [expandvars] is
    [os.path.expandvars]. *)
Definition windows_paths (expandvars : string -> string) : list string :=
  [ "C:\Program Files\GIMP 2\bin\gimp-2.10.exe";
    "C:\Program Files\GIMP 2\bin\gimp-2.99.exe";
    "C:\Program Files\GIMP 3\bin\gimp-3.0.exe";
    "C:\Program Files (x86)\GIMP 2\bin\gimp-2.10.exe";
    expandvars "%LOCALAPPDATA%\Programs\GIMP 2\bin\gimp-2.10.exe" ]%string.

Definition darwin_paths : list string :=
  [ "/Applications/GIMP.app/Contents/MacOS/gimp";
    "/Applications/GIMP-2.10.app/Contents/MacOS/gimp" ]%string.

(** [for path in possible_paths: if os.path.exists(path): return path]
    followed by [return "gimp"]. *)
Fixpoint first_existing (path_exists : string -> bool) (possible_paths : list string)
  : string :=
  match possible_paths with
  | [] => "gimp"
  | path :: rest =>
      if path_exists path then path else first_existing path_exists rest
  end.

(** [system] is [platform.system()], [path_exists] is [os.path.exists]. *)
Definition get_default_gimp_path (system : string) (expandvars : string -> string)
    (path_exists : string -> bool) : string :=
  if String.eqb system "Windows" then
    first_existing path_exists (windows_paths expandvars)
  else if String.eqb system "Darwin" then
    first_existing path_exists darwin_paths
  else "gimp".

(** The paths that are tried on a system, in the order they are tried. *)
Definition candidate_paths (system : string) (expandvars : string -> string) : list string :=
  if String.eqb system "Windows" then windows_paths expandvars
  else if String.eqb system "Darwin" then darwin_paths
  else [].

(** ** The file of a strip *)

(** The result of host-side Python code: a value, an exception by the name
    of its class, or no result. *)
Inductive py (A : Type) : Type :=
| Returns (a : A)
| Raises (exception : string)
| Loops.
Arguments Returns {A} a.
Arguments Raises {A} exception.
Arguments Loops {A}.

(** [l[i]], negative indices counted from the end. *)
Definition py_index {A} (l : list A) (i : Z) : py A :=
  let j := if i <? 0 then i + len l else i in
  if (0 <=? j) && (j <? len l) then
    match l !! Z.to_nat j with
    | Some x => Returns x
    | None => Raises "IndexError"
    end
  else Raises "IndexError".

(** What the add-on reads of a strip; [s_elements] holds the [filename] of
    each element. *)
Record strip : Type := mkStrip {
  s_type : string;
  s_directory : string;
  s_elements : list string;
  s_filepath : string;
  s_frame_final_start : Z
}.

(** [abspath] is [bpy.path.abspath], [join] is [os.path.join] and
    [frame_current] is [context.scene.frame_current]. *)
Definition get_strip_filepath (abspath : string -> string)
    (join : string -> string -> string) (s : strip) (frame_current : Z)
  : py (option string) :=
  if String.eqb (s_type s) "IMAGE" then
    let directory := abspath (s_directory s) in
    match s_elements s with
    | _ :: _ =>
        let filename :=
          if len (s_elements s) =? 1 then py_index (s_elements s) 0
          else
            let current_frame := frame_current in
            let strip_start := s_frame_final_start s in
            let element_index := current_frame - strip_start in
            let element_index :=
              Z.max 0 (Z.min element_index (len (s_elements s) - 1)) in
            py_index (s_elements s) element_index in
        match filename with
        | Returns filename => Returns (Some (join directory filename))
        | Raises e => Raises e
        | Loops => Loops
        end
    | [] => Returns None
    end
  else if String.eqb (s_type s) "MOVIE" then
    Returns (Some (abspath (s_filepath s)))
  else Returns None.

(** ** The operators *)

(** What the operators read of the Blender context. [sequence_editor] is
    [None] when [context.scene.sequence_editor] is None and [Some None] when
    there is no active strip; [addon_gimp_path] is the [gimp_path] of the
    add-on preferences, [None] when the add-on has no entry in
    [context.preferences.addons]. *)
Record context : Type := mkContext {
  sequence_editor : option (option strip);
  frame_current : Z;
  addon_gimp_path : option string
}.

(** How [subprocess.Popen] ends: it returns, raises FileNotFoundError, or
    raises another exception [e] with [str(e)] the message. *)
Inductive launch : Type :=
| Started
| NotFound
| Failed (message : string).

(** The collaborators of the operators outside the add-on. *)
Record host : Type := mkHost {
  host_abspath : string -> string;              (* bpy.path.abspath *)
  host_join : string -> string -> string;       (* os.path.join *)
  host_exists : string -> bool;                 (* os.path.exists *)
  host_basename : string -> string;             (* os.path.basename *)
  host_expandvars : string -> string;           (* os.path.expandvars *)
  host_system : string;                         (* platform.system() *)
  host_os : os_path;                            (* the flavour of os.path *)
  host_fs : filesystem;                         (* open(path, 'rb') *)
  host_str : pynum -> string;                   (* format(x, '') *)
  host_fixed6 : pynum -> string;                (* format(x, '.6f') *)
  host_popen : list string -> launch            (* subprocess.Popen *)
}.

Inductive ui_event : Type :=
| Report (level message : string)               (* self.report({level}, message) *)
| Browse (url : string)                         (* webbrowser.open(url) *)
| Launch (args : list string)                   (* subprocess.Popen(args) *)
| FileOps (tr : list event).                    (* what was done to the image file *)

Inductive status : Type :=
| CANCELLED
| FINISHED.

(** The three [poll] methods differ in the strip types they accept. *)
Definition poll (types : list string) (ctx : context) : bool :=
  match sequence_editor ctx with
  | None => false
  | Some None => false
  | Some (Some s) => bool_decide (s_type s ∈ types)
  end.

Definition open_in_gimp_poll : context -> bool :=
  poll ["IMAGE"; "MOVIE"]%string.
Definition open_source_folder_poll : context -> bool :=
  poll ["IMAGE"; "MOVIE"; "SOUND"]%string.
Definition show_in_google_maps_poll : context -> bool :=
  poll ["IMAGE"]%string.

(** [context.scene.sequence_editor.active_strip] followed by
    [get_strip_filepath(strip, context)]: an attribute of None is an
    AttributeError. *)
Definition active_strip_filepath (w : host) (ctx : context) : py (option string) :=
  match sequence_editor ctx with
  | None => Raises "AttributeError"
  | Some None => Raises "AttributeError"
  | Some (Some s) =>
      get_strip_filepath (host_abspath w) (host_join w) s (frame_current ctx)
  end.

(** [not filepath]: None and the empty string are false. *)
Definition falsy (filepath : option string) : bool :=
  match filepath with
  | None => true
  | Some f => String.eqb f ""
  end.

Definition exn_name (e : exn) : string :=
  match e with
  | OSError => "OSError"
  | StructError => "struct.error"
  | ZeroDivisionError => "ZeroDivisionError"
  end.

Definition maps_url (w : host) (lat lon : pynum) : string :=
  "https://www.google.com/maps?q=" ++ host_str w lat ++ "," ++ host_str w lon.

(** [SEQUENCER_OT_show_in_google_maps.execute] *)
Definition show_in_google_maps_execute (w : host) (ctx : context)
  : py status * list ui_event :=
  match active_strip_filepath w ctx with
  | Raises e => (Raises e, [])
  | Loops => (Loops, [])
  | Returns filepath =>
      if falsy filepath then
        (Returns CANCELLED, [Report "ERROR" "Could not determine file path"])
      else
        let filepath := default ""%string filepath in
        if negb (host_exists w filepath) then
          (Returns CANCELLED, [Report "ERROR" ("File not found: " ++ filepath)])
        else
          let ext := lower (snd (splitext (host_os w) (list_ascii_of_string filepath))) in
          if negb (bool_decide
                     (ext ∈ [list_ascii_of_string ".jpg"; list_ascii_of_string ".jpeg"]))
          then
            (Returns CANCELLED,
             [Report "WARNING"
                ("GPS reading only supported for JPEG files (this is "
                 ++ string_of_list_ascii ext ++ ")")])
          else
            match get_gps_coordinates (host_os w) (host_fs w) filepath with
            | (Ok None, tr) =>
                (Returns CANCELLED,
                 [FileOps tr;
                  Report "WARNING" ("No GPS data found in: " ++ host_basename w filepath)])
            | (Ok (Some (lat, lon)), tr) =>
                (Returns FINISHED,
                 [FileOps tr;
                  Browse (maps_url w lat lon);
                  Report "INFO"
                    ("GPS: " ++ host_fixed6 w lat ++ ", " ++ host_fixed6 w lon)])
            | (Raise e, tr) => (Raises (exn_name e), [FileOps tr])
            | (Diverge, tr) => (Loops, [FileOps tr])
            end
  end.

(** [SEQUENCER_OT_open_in_gimp.execute] *)
Definition open_in_gimp_execute (w : host) (ctx : context)
  : py status * list ui_event :=
  match active_strip_filepath w ctx with
  | Raises e => (Raises e, [])
  | Loops => (Loops, [])
  | Returns filepath =>
      if falsy filepath then
        (Returns CANCELLED, [Report "ERROR" "Could not determine file path"])
      else
        let filepath := default ""%string filepath in
        if negb (host_exists w filepath) then
          (Returns CANCELLED, [Report "ERROR" ("File not found: " ++ filepath)])
        else
          match addon_gimp_path ctx with
          | None => (Raises "KeyError", [])
          | Some prefs_gimp_path =>
              let gimp_path :=
                if negb (String.eqb prefs_gimp_path "") then prefs_gimp_path
                else get_default_gimp_path (host_system w) (host_expandvars w)
                       (host_exists w) in
              match host_popen w [gimp_path; filepath] with
              | Started =>
                  (Returns FINISHED,
                   [Launch [gimp_path; filepath];
                    Report "INFO" ("Opened in GIMP: " ++ host_basename w filepath)])
              | NotFound =>
                  (Returns CANCELLED,
                   [Launch [gimp_path; filepath];
                    Report "ERROR"
                      ("GIMP not found at: " ++ gimp_path
                       ++ String "010" "Set the correct path in addon preferences")])
              | Failed message =>
                  (Returns CANCELLED,
                   [Launch [gimp_path; filepath];
                    Report "ERROR" ("Failed to open GIMP: " ++ message)])
              end
          end
  end.

(** The test [ext in ('.jpg', '.jpeg')] of the operator and of
    [get_gps_coordinates], as a statement about the path. *)
Definition jpeg_extension (os : os_path) (filepath : string) : Prop :=
  lower (snd (splitext os (list_ascii_of_string filepath)))
  ∈ [list_ascii_of_string ".jpg"; list_ascii_of_string ".jpeg"].

(** ** Worked examples for the host side *)

(** The APP0 segment of the sample files. *)
Definition app0_segment : bytes := [xff; xe0] ++ pack 2 Big 16 ++ repeat x00 14.

(** A host in which every path exists, with one JPEG file. *)
Definition sample_host (popen : list string -> launch) : host :=
  mkHost (fun p => p) (fun d f => (d ++ "/" ++ f)%string) (fun _ => true)
         (fun p => p) (fun p => p) "Linux" posixpath
         (single_file "shots/a.jpg" (sample_jpeg Big x4e x57))
         (fun _ => "x"%string) (fun _ => "x.000000"%string) popen.

Definition sample_strip : strip :=
  mkStrip "IMAGE" "shots" ["a.jpg"; "b.jpg"; "c.jpg"]%string "" 10.

Definition sample_context (frame : Z) : context :=
  mkContext (Some (Some sample_strip)) frame (Some ""%string).

(** * Properties *)

(** ** Bytes and unpacking *)

Lemma bytes_eqb_eq (a b : bytes) : bytes_eqb a b = true <-> a = b.
Proof.
  revert b; induction a as [|x a IH]; intros [|y b]; simpl; split; try easy.
  - intros [Hxy Hab]%andb_prop.
    apply Byte.byte_dec_bl in Hxy. apply IH in Hab. congruence.
  - intros [= -> ->]. apply andb_true_intro; split.
    + now apply Byte.byte_dec_lb.
    + now apply IH.
Qed.

Lemma bytes_eqb_neq (a b : bytes) : bytes_eqb a b = false <-> a <> b.
Proof.
  rewrite <- bytes_eqb_eq. destruct (bytes_eqb a b); split; congruence.
Qed.

Lemma len_nonneg {A} (l : list A) : 0 <= len l.
Proof. unfold len; lia. Qed.

Lemma byte_val_nonneg (b : byte) : 0 <= byte_val b.
Proof. unfold byte_val; lia. Qed.

Lemma be_value_from_nonneg (b : bytes) (acc : Z) :
  0 <= acc -> 0 <= fold_left (fun acc x => acc * 256 + byte_val x) b acc.
Proof.
  revert acc; induction b as [|x b IH]; simpl; intros acc Hacc; [easy|].
  apply IH. pose proof (byte_val_nonneg x). lia.
Qed.

Lemma be_value_nonneg (b : bytes) : 0 <= be_value b.
Proof. apply be_value_from_nonneg; lia. Qed.

Lemma struct_unpack_Ok (w : Z) (e : endianness) (b : bytes) (z : Z) :
  struct_unpack w e b = Ok z -> len b = w /\ 0 <= z.
Proof.
  unfold struct_unpack. destruct (Z.eqb_spec (len b) w); [|discriminate].
  intros [= <-]. split; [easy|].
  destruct e; [apply be_value_nonneg | apply be_value_nonneg].
Qed.

Lemma struct_unpack_len (w : Z) (e : endianness) (b : bytes) :
  len b = w -> exists z, struct_unpack w e b = Ok z /\ 0 <= z.
Proof.
  intros H. unfold struct_unpack. rewrite (proj2 (Z.eqb_eq _ _) H).
  eexists; split; [reflexivity|]. destruct e; apply be_value_nonneg.
Qed.

Lemma struct_unpack_not_Diverge (w : Z) (e : endianness) (b : bytes) :
  struct_unpack w e b <> Diverge.
Proof. unfold struct_unpack. now destruct (len b =? w). Qed.

Lemma struct_unpack_bad_len (w : Z) (e : endianness) (b : bytes) :
  len b <> w -> struct_unpack w e b = Raise StructError.
Proof.
  intros H. unfold struct_unpack. now rewrite (proj2 (Z.eqb_neq _ _) H).
Qed.

(** ** The value resolver *)

Lemma type_sizes_unknown (type_id : Z) :
  type_id ∉ [1; 2; 3; 4; 5; 7; 9; 10] -> type_sizes !! type_id = None.
Proof.
  intros H. unfold type_sizes. apply not_elem_of_list_to_map_1.
  simpl. exact H.
Qed.

Lemma len_take_drop {A} (l : list A) (a n : Z) :
  0 <= a -> 0 <= n ->
  len (take (Z.to_nat n) (drop (Z.to_nat a) l)) = Z.max 0 (Z.min n (len l - a)).
Proof.
  intros Ha Hn. unfold len. rewrite length_take, length_drop. lia.
Qed.

Lemma py_slice_nonneg {A} (l : list A) (a b : Z) :
  0 <= a -> 0 <= b ->
  py_slice l a b = take (Z.to_nat (Z.min b (len l) - Z.min a (len l)))
                        (drop (Z.to_nat (Z.min a (len l))) l).
Proof.
  intros Ha Hb. unfold py_slice, slice_index.
  destruct (Z.ltb_spec a 0), (Z.ltb_spec b 0); try lia. reflexivity.
Qed.

Lemma len_py_slice {A} (l : list A) (a b : Z) :
  0 <= a -> a <= b ->
  len (py_slice l a b) = Z.max 0 (Z.min b (len l) - a).
Proof.
  intros Ha Hb. rewrite py_slice_nonneg by lia.
  unfold len. rewrite length_take, length_drop. lia.
Qed.

Lemma py_slice_take_drop {A} (l : list A) (a n : Z) :
  0 <= a -> 0 <= n ->
  py_slice l a (a + n) = take (Z.to_nat n) (drop (Z.to_nat a) l).
Proof.
  intros Ha Hn. rewrite py_slice_nonneg by lia.
  pose proof (len_nonneg l) as Hl. unfold len in *.
  destruct (Z.le_gt_cases a (Z.of_nat (length l))) as [Hle|Hgt].
  - rewrite (Z.min_l a) by lia.
    destruct (Z.le_gt_cases (a + n) (Z.of_nat (length l))).
    + rewrite Z.min_l by lia. f_equal. lia.
    + rewrite Z.min_r by lia.
      rewrite !take_ge; [easy | rewrite length_drop; lia | rewrite length_drop; lia].
  - rewrite !drop_ge by lia. now rewrite !take_nil.
Qed.

(** What [get_value] does when the value is stored outside the entry. *)
Lemma get_value_deref (tiff_start : Z) (endian : endianness)
    (type_id count : Z) (raw : bytes) (h : handle) :
  4 < entry_size type_id count -> len raw = 4 -> 0 <= tiff_start -> 0 <= pos h ->
  exists offset,
    unpack_I endian raw = Ok offset /\ 0 <= offset /\
    get_value tiff_start endian (type_id, count, raw) h =
      (Ok (take (Z.to_nat (entry_size type_id count))
                (drop (Z.to_nat (tiff_start + offset)) (content h))),
       mkHandle (content h) (pos h)
         (trace h ++ [EvSeek (tiff_start + offset)]
                  ++ [EvRead (tiff_start + offset) (entry_size type_id count)]
                  ++ [EvSeek (pos h)])).
Proof.
  intros Hsize Hraw Hts Hpos.
  destruct (struct_unpack_len 4 endian raw Hraw) as (offset & Hoff & Hnn).
  exists offset. split; [exact Hoff|]. split; [exact Hnn|].
  unfold get_value.
  destruct (Z.leb_spec (entry_size type_id count) 4) as [|_]; [lia|].
  unfold bind, lift, f_tell, f_seek, f_read, ret, unpack_I. rewrite Hoff. simpl.
  destruct (Z.ltb_spec (tiff_start + offset) 0) as [|_]; [lia|]. simpl.
  destruct (Z.ltb_spec (entry_size type_id count) 0) as [|_]; [lia|].
  destruct (Z.ltb_spec (pos h) 0) as [|_]; [lia|]. simpl.
  now rewrite <- !app_assoc.
Qed.

Lemma get_value_inline (tiff_start : Z) (endian : endianness)
    (type_id count : Z) (raw : bytes) (h : handle) :
  entry_size type_id count <= 4 ->
  get_value tiff_start endian (type_id, count, raw) h = (Ok raw, h).
Proof.
  intros Hsize. unfold get_value.
  destruct (Z.leb_spec (entry_size type_id count) 4); [reflexivity | lia].
Qed.

(** C10: for a [type_id] outside the table {1, 2, 3, 4, 5, 7, 9, 10} the
    resolver takes one byte per element, so the size is [1 * count]; and
    when moreover [count <= 4] it returns the raw field of the entry as it
    is, without touching the file. *)
Theorem get_value_unknown_type (tiff_start : Z) (endian : endianness)
    (type_id count : Z) (raw : bytes) (h : handle) :
  type_id ∉ [1; 2; 3; 4; 5; 7; 9; 10] ->
  entry_size type_id count = 1 * count /\
  (count <= 4 ->
   get_value tiff_start endian (type_id, count, raw) h = (Ok raw, h)).
Proof.
  intros Hunknown.
  assert (Hsize : entry_size type_id count = 1 * count).
  { unfold entry_size. now rewrite (type_sizes_unknown _ Hunknown). }
  split; [exact Hsize|].
  intros Hcount. apply get_value_inline. lia.
Qed.

Lemma get_value_unknown_type_witness :
  (6 ∉ [1; 2; 3; 4; 5; 7; 9; 10]) /\
  entry_size 6 3 = 1 * 3 /\
  (3 <= 4 ->
   get_value 0 Big (6, 3, [x41; x42; x43; x00]) (mkHandle [x00] 0 [])
   = (Ok [x41; x42; x43; x00], mkHandle [x00] 0 [])).
Proof.
  assert (H : 6 ∉ [1; 2; 3; 4; 5; 7; 9; 10]).
  { intros H. repeat (apply elem_of_cons in H as [H|H]; [discriminate H|]).
    now apply elem_of_nil in H. }
  split; [exact H|].
  exact (get_value_unknown_type 0 Big 6 3 [x41; x42; x43; x00] (mkHandle [x00] 0 []) H).
Defined.

(** C9: for an entry whose size exceeds 4 bytes the resolver reads the
    [size] bytes at [tiff_start + offset], where [offset] is the raw field
    unpacked as a 32-bit integer, and leaves the cursor where it was; the
    buffer has [size] bytes when the region lies within the file. *)
Theorem get_value_restores_cursor (tiff_start : Z) (endian : endianness)
    (type_id count : Z) (raw : bytes) (h : handle) :
  4 < entry_size type_id count -> len raw = 4 -> 0 <= tiff_start -> 0 <= pos h ->
  exists offset data h',
    unpack_I endian raw = Ok offset /\
    get_value tiff_start endian (type_id, count, raw) h = (Ok data, h') /\
    data = py_slice (content h) (tiff_start + offset)
                    (tiff_start + offset + entry_size type_id count) /\
    (tiff_start + offset + entry_size type_id count <= len (content h) ->
     len data = entry_size type_id count) /\
    pos h' = pos h /\ content h' = content h.
Proof.
  intros Hsize Hraw Hts Hpos.
  destruct (get_value_deref tiff_start endian type_id count raw h Hsize Hraw Hts Hpos)
    as (offset & Hoff & Hnn & Hget).
  eexists offset, _, _. split; [exact Hoff|]. split; [exact Hget|].
  split; [now rewrite py_slice_take_drop by lia|].
  split; [|split; reflexivity].
  intros Hin. rewrite len_take_drop by lia. lia.
Qed.

Lemma get_value_restores_cursor_witness :
  let h := mkHandle (sample_tiff Big x4e x57) 54 [] in
  (4 < entry_size 5 3 /\ len (pack 4 Big 80) = 4 /\ 0 <= 0 /\ 0 <= pos h) /\
  exists offset data h',
    unpack_I Big (pack 4 Big 80) = Ok offset /\
    get_value 0 Big (5, 3, pack 4 Big 80) h = (Ok data, h') /\
    data = py_slice (content h) (0 + offset) (0 + offset + entry_size 5 3) /\
    (0 + offset + entry_size 5 3 <= len (content h) -> len data = entry_size 5 3) /\
    pos h' = pos h /\ content h' = content h.
Proof.
  intros h.
  assert (H1 : 4 < entry_size 5 3) by (vm_compute; reflexivity).
  assert (H2 : len (pack 4 Big 80) = 4) by reflexivity.
  assert (H3 : 0 <= 0) by lia.
  assert (H4 : 0 <= pos h) by (simpl; lia).
  split; [now repeat split|].
  exact (get_value_restores_cursor 0 Big 5 3 (pack 4 Big 80) h H1 H2 H3 H4).
Defined.

(** ** Rationals and coordinates *)

Lemma py_truediv_int (x : pynum) (d : Z) :
  d <> 0 -> py_truediv x (PInt d) = Ok (PFloat (to_float x / float_of_int d)).
Proof. intros Hd. destruct d; [easy | reflexivity | reflexivity]. Qed.

Lemma read_rational_Ok (endian : endianness) (data : bytes) (offset num den : Z) :
  unpack_I endian (py_slice data offset (offset + 4)) = Ok num ->
  unpack_I endian (py_slice data (offset + 4) (offset + 8)) = Ok den ->
  read_rational endian data offset = Ok (ratio num den).
Proof.
  intros Hn Hd. unfold read_rational, ratio. rewrite Hn, Hd.
  destruct (Z.eqb_spec den 0) as [->|Hne]; cbn [negb]; [reflexivity|].
  now rewrite py_truediv_int.
Qed.

Lemma read_rational_long (endian : endianness) (data : bytes) (offset : Z) :
  0 <= offset -> offset + 8 <= len data ->
  exists num den,
    unpack_I endian (py_slice data offset (offset + 4)) = Ok num /\
    unpack_I endian (py_slice data (offset + 4) (offset + 8)) = Ok den /\
    read_rational endian data offset = Ok (ratio num den).
Proof.
  intros Hoff Hlen.
  destruct (struct_unpack_len 4 endian (py_slice data offset (offset + 4)))
    as (num & Hn & _); [rewrite len_py_slice by lia; lia|].
  destruct (struct_unpack_len 4 endian (py_slice data (offset + 4) (offset + 8)))
    as (den & Hd & _); [rewrite len_py_slice by lia; lia|].
  exists num, den. split; [exact Hn|]. split; [exact Hd|].
  now apply read_rational_Ok.
Qed.

Lemma read_rational_short (endian : endianness) (data : bytes) (offset : Z) :
  0 <= offset -> len data < offset + 8 ->
  read_rational endian data offset = Raise StructError.
Proof.
  intros Hoff Hlen. unfold read_rational.
  destruct (Z.lt_ge_cases (len data) (offset + 4)) as [Hlt|Hge].
  - unfold unpack_I at 1. rewrite struct_unpack_bad_len; [reflexivity|].
    rewrite len_py_slice by lia. lia.
  - destruct (struct_unpack_len 4 endian (py_slice data offset (offset + 4)))
      as (num & Hn & _); [rewrite len_py_slice by lia; lia|].
    unfold unpack_I in *. rewrite Hn.
    rewrite struct_unpack_bad_len; [reflexivity|].
    rewrite len_py_slice by lia. lia.
Qed.

Lemma read_gps_coord_short (endian : endianness) (data : bytes) :
  len data < 24 -> read_gps_coord endian data = Raise StructError.
Proof.
  intros Hlen. unfold read_gps_coord.
  destruct (Z.lt_ge_cases (len data) 8) as [H8|H8].
  { now rewrite read_rational_short by lia. }
  destruct (read_rational_long endian data 0) as (n0 & d0 & _ & _ & ->); [lia..|].
  simpl. destruct (Z.lt_ge_cases (len data) 16) as [H16|H16].
  { now rewrite read_rational_short by lia. }
  destruct (read_rational_long endian data 8) as (n1 & d1 & _ & _ & ->); [lia..|].
  simpl. now rewrite read_rational_short by lia.
Qed.

Lemma read_gps_coord_long (endian : endianness) (data : bytes) :
  24 <= len data ->
  exists n0 d0 n1 d1 n2 d2,
    unpack_I endian (py_slice data 0 4) = Ok n0 /\
    unpack_I endian (py_slice data 4 8) = Ok d0 /\
    unpack_I endian (py_slice data 8 12) = Ok n1 /\
    unpack_I endian (py_slice data 12 16) = Ok d1 /\
    unpack_I endian (py_slice data 16 20) = Ok n2 /\
    unpack_I endian (py_slice data 20 24) = Ok d2 /\
    read_gps_coord endian data = Ok (dms (ratio n0 d0) (ratio n1 d1) (ratio n2 d2)).
Proof.
  intros Hlen.
  destruct (read_rational_long endian data 0) as (n0 & d0 & Hn0 & Hd0 & H0); [lia..|].
  destruct (read_rational_long endian data 8) as (n1 & d1 & Hn1 & Hd1 & H1); [lia..|].
  destruct (read_rational_long endian data 16) as (n2 & d2 & Hn2 & Hd2 & H2); [lia..|].
  exists n0, d0, n1, d1, n2, d2. simpl in *.
  repeat (split; [assumption|]).
  unfold read_gps_coord. rewrite H0, H1, H2. cbn [obind].
  rewrite !py_truediv_int by lia. cbn [obind].
  unfold dms. now destruct (ratio n0 d0).
Qed.




(** C4: [read_rational] unpacks the numerator and then the denominator as
    32-bit unsigned integers in the byte order of the TIFF header and returns
    their quotient, and the int 0 when the denominator is 0; it never raises
    ZeroDivisionError, neither does [read_gps_coord], and in a coordinate a
    rational with a zero denominator counts as 0. *)
Theorem read_rational_zero_denominator (endian : endianness) (data : bytes) (offset : Z) :
  (forall num den,
     unpack_I endian (py_slice data offset (offset + 4)) = Ok num ->
     unpack_I endian (py_slice data (offset + 4) (offset + 8)) = Ok den ->
     read_rational endian data offset =
       Ok (if den =? 0 then PInt 0
           else PFloat (float_of_int num / float_of_int den))) /\
  read_rational endian data offset <> Raise ZeroDivisionError /\
  read_gps_coord endian data <> Raise ZeroDivisionError /\
  (forall num, ratio num 0 = PInt 0 /\ to_float (ratio num 0) = 0%float).
Proof.
  split; [intros num den Hn Hd; now apply read_rational_Ok|].
  assert (Hrat : forall off, read_rational endian data off <> Raise ZeroDivisionError).
  { intros off. unfold read_rational, unpack_I, struct_unpack.
    destruct (len (py_slice data off (off + 4)) =? 4); [|discriminate].
    destruct (len (py_slice data (off + 4) (off + 8)) =? 4); [|discriminate].
    match goal with |- context [negb (?d =? 0)] => destruct (Z.eqb_spec d 0) as [->|Hne] end;
      cbn [negb]; [discriminate|].
    now rewrite py_truediv_int. }
  split; [apply Hrat|]. split; [|intros num; split; reflexivity].
  destruct (Z.lt_ge_cases (len data) 24) as [Hlt|Hge].
  - now rewrite read_gps_coord_short.
  - destruct (read_gps_coord_long endian data Hge)
      as (n0 & d0 & n1 & d1 & n2 & d2 & _ & _ & _ & _ & _ & _ & ->).
    discriminate.
Qed.

Lemma read_rational_zero_denominator_witness :
  let data := rationals Little [(7, 0)] in
  (unpack_I Little (py_slice data 0 (0 + 4)) = Ok 7 /\
   unpack_I Little (py_slice data (0 + 4) (0 + 8)) = Ok 0) /\
  read_rational Little data 0 = Ok (PInt 0).
Proof.
  intros data.
  assert (H1 : unpack_I Little (py_slice data 0 (0 + 4)) = Ok 7) by reflexivity.
  assert (H2 : unpack_I Little (py_slice data (0 + 4) (0 + 8)) = Ok 0) by reflexivity.
  split; [now split|].
  exact (proj1 (read_rational_zero_denominator Little data 0) 7 0 H1 H2).
Defined.

(** ** The Start-Of-Image check *)

(** C8: when the first two bytes of the file are not FF D8 (also when the
    file has fewer than two bytes) the decoder returns None, and the only
    read of the file is the one of these two bytes. *)
Theorem read_jpeg_exif_gps_not_soi (fs : filesystem) (filepath : string) (c : bytes) :
  fs filepath = Some c ->
  take 2 c <> [xff; xd8] ->
  read_jpeg_exif_gps fs filepath = (Ok None, [EvOpen filepath; EvRead 0 2; EvClose]).
Proof.
  intros Hfile Hmagic. unfold read_jpeg_exif_gps. rewrite Hfile.
  unfold jpeg_body, locate_tiff, bind, f_read. cbn [pos content trace].
  change (Z.to_nat 0) with 0%nat. rewrite drop_0. cbn [Z.ltb Z.compare].
  change (Z.to_nat 2) with 2%nat.
  apply bytes_eqb_neq in Hmagic. unfold SOI. rewrite Hmagic. reflexivity.
Qed.

Lemma read_jpeg_exif_gps_not_soi_witness :
  let fs := single_file "scan.jpg" [x89; x50; x4e; x47] in
  (fs "scan.jpg"%string = Some [x89; x50; x4e; x47] /\
   take 2 [x89; x50; x4e; x47] <> [xff; xd8]) /\
  read_jpeg_exif_gps fs "scan.jpg"
  = (Ok None, [EvOpen "scan.jpg"; EvRead 0 2; EvClose]).
Proof.
  intros fs.
  assert (H1 : fs "scan.jpg"%string = Some [x89; x50; x4e; x47]) by reflexivity.
  assert (H2 : take 2 [x89; x50; x4e; x47] <> [xff; xd8]) by (simpl; discriminate).
  split; [now split|].
  exact (read_jpeg_exif_gps_not_soi fs "scan.jpg" _ H1 H2).
Defined.

(** ** The extension of a path *)

Lemma rfind_fold (c : ascii) (p : str) :
  exists r,
    fold_left (fun '(i, r) x => (i + 1, if Ascii.eqb x c then i else r)) p (0, -1)
    = (len p, r) /\
    ((r = -1 /\ (c ∉ p)) \/
     (exists a b, p = a ++ c :: b /\ (c ∉ b) /\ r = len a)).
Proof.
  induction p as [|x p (r & Hfold & IH)] using rev_ind.
  - exists (-1). split; [reflexivity|]. left. split; [reflexivity|]. apply not_elem_of_nil.
  - rewrite fold_left_app, Hfold. cbn [fold_left].
    assert (Hlen : len p + 1 = len (p ++ [x])).
    { unfold len. rewrite length_app. simpl. lia. }
    rewrite Hlen. destruct (Ascii.eqb_spec x c) as [->|Hne].
    + exists (len p). split; [reflexivity|]. right.
      exists p, []. split; [reflexivity|]. split; [apply not_elem_of_nil | reflexivity].
    + exists r. split; [reflexivity|].
      destruct IH as [[-> Hnot]|(a & b & -> & Hb & ->)].
      * left. split; [reflexivity|].
        rewrite elem_of_app, list_elem_of_singleton. intros [?|?]; [tauto|congruence].
      * right. exists a, (b ++ [x]). split; [now rewrite <- app_assoc|].
        split; [|reflexivity].
        rewrite elem_of_app, list_elem_of_singleton. intros [?|?]; [tauto|congruence].
Qed.

Lemma rfind_spec (c : ascii) (p : str) :
  (rfind c p = -1 /\ (c ∉ p)) \/
  (exists a b, p = a ++ c :: b /\ (c ∉ b) /\ rfind c p = len a).
Proof.
  unfold rfind. destruct (rfind_fold c p) as (r & -> & H). exact H.
Qed.

Lemma rfind_lower_bound (c : ascii) (p : str) : -1 <= rfind c p.
Proof.
  destruct (rfind_spec c p) as [[-> _]|(a & b & _ & _ & ->)]; [lia|].
  pose proof (len_nonneg a). lia.
Qed.

(** The extension is empty or the part of the path from its last dot on. *)
Lemma splitext_ext (os : os_path) (p : str) :
  snd (splitext os p) = [] \/
  (exists a b, p = a ++ extsep os :: b /\ (extsep os ∉ b) /\
               snd (splitext os p) = extsep os :: b).
Proof.
  unfold splitext.
  set (sepIndex := match altsep os with
                   | Some a => Z.max (rfind (sep os) p) (rfind a p)
                   | None => rfind (sep os) p
                   end).
  assert (Hsep : -1 <= sepIndex).
  { subst sepIndex. pose proof (rfind_lower_bound (sep os) p).
    destruct (altsep os); lia. }
  destruct (Z.ltb_spec sepIndex (rfind (extsep os) p)) as [Hlt|Hge]; [|now left].
  cbn [andb].
  match goal with |- context [if ?c then _ else _] => destruct c end; [|now left].
  right. destruct (rfind_spec (extsep os) p) as [[Hr _]|(a & b & Hp & Hb & Hr)]; [lia|].
  exists a, b. split; [exact Hp|]. split; [exact Hb|]. cbn [snd].
  rewrite Hr.
  replace (len p) with (len a + len (extsep os :: b))
    by (rewrite Hp; unfold len; rewrite length_app; lia).
  rewrite py_slice_take_drop by apply len_nonneg.
  rewrite Hp. unfold len. rewrite !Nat2Z.id, drop_app_length. apply firstn_all.
Qed.

Lemma last_occurrence_unique {A} (c : A) (a a' b b' : list A) :
  a ++ c :: b = a' ++ c :: b' -> c ∉ b -> c ∉ b' -> b = b'.
Proof.
  revert a'; induction a as [|x a IH]; intros [|y a'] Heq Hb Hb'; simpl in Heq.
  - congruence.
  - injection Heq as _ ->. exfalso. apply Hb.
    apply elem_of_app. right. apply elem_of_cons. now left.
  - injection Heq as _ <-. exfalso. apply Hb'.
    apply elem_of_app. right. apply elem_of_cons. now left.
  - injection Heq as _ Heq. now apply (IH a').
Qed.

Lemma splitext_suffix (os : os_path) (stem s : str) :
  extsep os ∉ s ->
  snd (splitext os (stem ++ extsep os :: s)) = [] \/
  snd (splitext os (stem ++ extsep os :: s)) = extsep os :: s.
Proof.
  intros Hs.
  destruct (splitext_ext os (stem ++ extsep os :: s)) as [H|(a & b & Hp & Hb & H)];
    [now left|right].
  rewrite H. f_equal. symmetry. exact (last_occurrence_unique _ _ _ _ _ Hp Hs Hb).
Qed.

Lemma list_ascii_of_string_app (s t : string) :
  list_ascii_of_string (s ++ t) = list_ascii_of_string s ++ list_ascii_of_string t.
Proof. induction s as [|c s IH]; simpl; [reflexivity | now rewrite IH]. Qed.

Lemma not_elem_of_by_decide `{EqDecision A} (x : A) (l : list A) :
  bool_decide (x ∈ l) = false -> x ∉ l.
Proof. intros H. now apply bool_decide_eq_false_1 in H. Qed.

Lemma get_gps_coordinates_unsupported (os : os_path) (fs : filesystem) (filepath : string) :
  lower (snd (splitext os (list_ascii_of_string filepath)))
    ∉ [list_ascii_of_string ".jpg"; list_ascii_of_string ".jpeg"] ->
  get_gps_coordinates os fs filepath = (Ok None, []).
Proof.
  intros Hext. unfold get_gps_coordinates.
  now rewrite bool_decide_eq_false_2.
Qed.

Lemma get_gps_coordinates_suffix (os : os_path) (fs : filesystem) (stem suffix : string) :
  extsep os = "."%char ->
  ("."%char ∉ list_ascii_of_string suffix) ->
  (lower ("."%char :: list_ascii_of_string suffix)
     ∉ [list_ascii_of_string ".jpg"; list_ascii_of_string ".jpeg"]) ->
  get_gps_coordinates os fs (stem ++ String "." suffix) = (Ok None, []).
Proof.
  intros Hdot Hs Hlow. apply get_gps_coordinates_unsupported.
  rewrite list_ascii_of_string_app. cbn [list_ascii_of_string].
  rewrite <- Hdot in Hs, Hlow |- *.
  destruct (splitext_suffix os (list_ascii_of_string stem) (list_ascii_of_string suffix) Hs)
    as [-> | ->]; [|exact Hlow].
  cbn [lower map]. intros H.
  repeat (apply elem_of_cons in H as [H|H]; [discriminate H|]).
  now apply elem_of_nil in H.
Qed.

(** C7: when the lower-cased extension of the path is neither ".jpg" nor
    ".jpeg", [get_gps_coordinates] returns None and does nothing to the file
    system, not even an open; in particular for every path that ends in
    ".png" or in ".heic". *)
Theorem get_gps_coordinates_other_extension (os : os_path) (fs : filesystem) :
  (forall filepath,
     (lower (snd (splitext os (list_ascii_of_string filepath)))
        ∉ [list_ascii_of_string ".jpg"; list_ascii_of_string ".jpeg"]) ->
     get_gps_coordinates os fs filepath = (Ok None, [])) /\
  (extsep os = "."%char ->
   forall stem : string,
     get_gps_coordinates os fs (stem ++ ".png") = (Ok None, []) /\
     get_gps_coordinates os fs (stem ++ ".heic") = (Ok None, [])).
Proof.
  split; [intros filepath; apply get_gps_coordinates_unsupported|].
  intros Hdot stem. split.
  - apply (get_gps_coordinates_suffix os fs stem "png" Hdot);
      apply not_elem_of_by_decide; vm_compute; reflexivity.
  - apply (get_gps_coordinates_suffix os fs stem "heic" Hdot);
      apply not_elem_of_by_decide; vm_compute; reflexivity.
Qed.

Lemma get_gps_coordinates_other_extension_witness :
  let fs := single_file "holiday/IMG_0001.PNG" (sample_jpeg Big x4e x57) in
  (lower (snd (splitext posixpath (list_ascii_of_string "holiday/IMG_0001.PNG")))
     ∉ [list_ascii_of_string ".jpg"; list_ascii_of_string ".jpeg"]) /\
  extsep ntpath = "."%char /\
  get_gps_coordinates posixpath fs "holiday/IMG_0001.PNG" = (Ok None, []) /\
  get_gps_coordinates ntpath fs ("C:\shots\a.jpg\b" ++ ".heic") = (Ok None, []).
Proof.
  intros fs.
  assert (H1 : lower (snd (splitext posixpath (list_ascii_of_string "holiday/IMG_0001.PNG")))
                 ∉ [list_ascii_of_string ".jpg"; list_ascii_of_string ".jpeg"]).
  { apply not_elem_of_by_decide. vm_compute. reflexivity. }
  assert (H2 : extsep ntpath = "."%char) by reflexivity.
  split; [exact H1|]. split; [exact H2|]. split.
  - exact (proj1 (get_gps_coordinates_other_extension posixpath fs) _ H1).
  - exact (proj2 (proj2 (get_gps_coordinates_other_extension ntpath fs) H2 "C:\shots\a.jpg\b"%string)).
Defined.

(** ** Required tags *)

(** C3: once IFD0 is parsed, a missing tag 0x8825 makes the result None;
    and once the GPS IFD is parsed, a missing tag 0x0002 or a missing tag
    0x0004 makes the result None. Nothing is read after the directory. *)
Theorem read_jpeg_exif_gps_missing_tag (fs : filesystem) (filepath : string) (c : bytes)
    (tiff_start : Z) (endian : endianness) (ifd_offset : Z) (h1 h2 : handle) (ifd0 : ifd) :
  fs filepath = Some c ->
  locate_tiff (S (length c)) (mkHandle c 0 [EvOpen filepath])
  = (Ok (Some (tiff_start, endian, ifd_offset)), h1) ->
  read_ifd_entries tiff_start endian ifd_offset h1 = (Ok ifd0, h2) ->
  (ifd0 !! 0x8825 = None ->
   read_jpeg_exif_gps fs filepath = (Ok None, trace h2 ++ [EvClose])) /\
  (forall type_id count raw gps_offset gps_ifd h3,
     ifd0 !! 0x8825 = Some (type_id, count, raw) ->
     unpack_I endian raw = Ok gps_offset ->
     read_ifd_entries tiff_start endian gps_offset h2 = (Ok gps_ifd, h3) ->
     gps_ifd !! 0x0002 = None \/ gps_ifd !! 0x0004 = None ->
     read_jpeg_exif_gps fs filepath = (Ok None, trace h3 ++ [EvClose])).
Proof.
  intros Hfile Htiff Hifd0.
  unfold read_jpeg_exif_gps, jpeg_body, bind. rewrite Hfile, Htiff.
  unfold decode_ifds, bind. rewrite Hifd0. split.
  - intros ->. reflexivity.
  - intros type_id count raw gps_offset gps_ifd h3 -> Hraw Hgps Hmissing.
    unfold lift. rewrite Hraw, Hgps. unfold decode_gps.
    destruct Hmissing as [-> | ->]; [reflexivity|].
    destruct (gps_ifd !! 2); reflexivity.
Qed.

Lemma read_jpeg_exif_gps_missing_tag_witness :
  (let c := jpeg_of_tiff (tiff_without_gps Big) in
   let fs := single_file "a.jpg" c in
   let h1 := snd (locate_tiff (S (length c)) (mkHandle c 0 [EvOpen "a.jpg"])) in
   let ifd0 : ifd := {[ 0x010F := (2, 2, [x41; x00; x00; x00]) ]} in
   let h2 := snd (read_ifd_entries 30 Big 8 h1) in
   (fs "a.jpg"%string = Some c /\
    locate_tiff (S (length c)) (mkHandle c 0 [EvOpen "a.jpg"]) = (Ok (Some (30, Big, 8)), h1) /\
    read_ifd_entries 30 Big 8 h1 = (Ok ifd0, h2) /\
    ifd0 !! 0x8825 = None) /\
   read_jpeg_exif_gps fs "a.jpg" = (Ok None, trace h2 ++ [EvClose])) /\
  (let c := jpeg_of_tiff (tiff_without_longitude Little) in
   let fs := single_file "b.jpg" c in
   let h1 := snd (locate_tiff (S (length c)) (mkHandle c 0 [EvOpen "b.jpg"])) in
   let ifd0 : ifd := {[ 0x8825 := (4, 1, pack 4 Little 26) ]} in
   let h2 := snd (read_ifd_entries 30 Little 8 h1) in
   let gps_ifd : ifd :=
     <[ 2 := (5, 3, pack 4 Little 56) ]> {[ 1 := (2, 2, [x4e; x00; x00; x00]) ]} in
   let h3 := snd (read_ifd_entries 30 Little 26 h2) in
   (fs "b.jpg"%string = Some c /\
    locate_tiff (S (length c)) (mkHandle c 0 [EvOpen "b.jpg"]) = (Ok (Some (30, Little, 8)), h1) /\
    read_ifd_entries 30 Little 8 h1 = (Ok ifd0, h2) /\
    ifd0 !! 0x8825 = Some (4, 1, pack 4 Little 26) /\
    unpack_I Little (pack 4 Little 26) = Ok 26 /\
    read_ifd_entries 30 Little 26 h2 = (Ok gps_ifd, h3) /\
    (gps_ifd !! 0x0002 = None \/ gps_ifd !! 0x0004 = None)) /\
   read_jpeg_exif_gps fs "b.jpg" = (Ok None, trace h3 ++ [EvClose])).
Proof.
  split.
  - intros c fs h1 ifd0 h2.
    assert (H0 : fs "a.jpg"%string = Some c) by reflexivity.
    assert (H1 : locate_tiff (S (length c)) (mkHandle c 0 [EvOpen "a.jpg"])
                 = (Ok (Some (30, Big, 8)), h1)) by (vm_compute; reflexivity).
    assert (H2 : read_ifd_entries 30 Big 8 h1 = (Ok ifd0, h2)) by (vm_compute; reflexivity).
    assert (H3 : ifd0 !! 0x8825 = None) by (vm_compute; reflexivity).
    split; [now repeat split|].
    exact (proj1 (read_jpeg_exif_gps_missing_tag fs "a.jpg" c 30 Big 8 h1 h2 ifd0 H0 H1 H2) H3).
  - intros c fs h1 ifd0 h2 gps_ifd h3.
    assert (H0 : fs "b.jpg"%string = Some c) by reflexivity.
    assert (H1 : locate_tiff (S (length c)) (mkHandle c 0 [EvOpen "b.jpg"])
                 = (Ok (Some (30, Little, 8)), h1)) by (vm_compute; reflexivity).
    assert (H2 : read_ifd_entries 30 Little 8 h1 = (Ok ifd0, h2)) by (vm_compute; reflexivity).
    assert (H3 : ifd0 !! 0x8825 = Some (4, 1, pack 4 Little 26)) by (vm_compute; reflexivity).
    assert (H4 : unpack_I Little (pack 4 Little 26) = Ok 26) by reflexivity.
    assert (H5 : read_ifd_entries 30 Little 26 h2 = (Ok gps_ifd, h3)) by (vm_compute; reflexivity).
    assert (H6 : gps_ifd !! 0x0002 = None \/ gps_ifd !! 0x0004 = None)
      by (right; vm_compute; reflexivity).
    split; [now repeat split|].
    exact (proj2 (read_jpeg_exif_gps_missing_tag fs "b.jpg" c 30 Little 8 h1 h2 ifd0 H0 H1 H2)
             4 1 (pack 4 Little 26) 26 gps_ifd h3 H3 H4 H5 H6).
Defined.

(** ** The file handle through the resolver *)

(** [get_value] returns a value that depends on the content of the file
    only, and leaves content and cursor as they were. *)
Lemma get_value_frame (tiff_start : Z) (endian : endianness) (e : entry) (h : handle) :
  0 <= tiff_start -> 0 <= pos h ->
  exists tr,
    get_value tiff_start endian e h
    = (fst (get_value tiff_start endian e (mkHandle (content h) 0 [])),
       mkHandle (content h) (pos h) (trace h ++ tr)).
Proof.
  intros Hts Hpos. destruct e as [[type_id count] raw].
  destruct (Z.le_gt_cases (entry_size type_id count) 4) as [Hle|Hgt].
  - exists []. rewrite !get_value_inline by exact Hle.
    rewrite app_nil_r. now destruct h.
  - destruct (Z.eq_dec (len raw) 4) as [Hraw|Hraw].
    + destruct (get_value_deref tiff_start endian type_id count raw h)
        as (offset & Hoff & _ & ->); [lia | exact Hraw | exact Hts | exact Hpos |].
      destruct (get_value_deref tiff_start endian type_id count raw
                  (mkHandle (content h) 0 []))
        as (offset' & Hoff' & _ & ->); [lia | exact Hraw | exact Hts | simpl; lia |].
      assert (offset' = offset) as -> by congruence.
      eexists. reflexivity.
    + exists []. unfold get_value.
      destruct (Z.leb_spec (entry_size type_id count) 4) as [|_]; [lia|].
      unfold bind, lift, unpack_I. rewrite struct_unpack_bad_len by exact Hraw.
      cbn [fst]. rewrite app_nil_r. now destruct h.
Qed.

Lemma get_value_same_content (tiff_start : Z) (endian : endianness) (e : entry)
    (h h0 : handle) :
  0 <= tiff_start -> 0 <= pos h -> 0 <= pos h0 -> content h = content h0 ->
  exists tr,
    get_value tiff_start endian e h
    = (fst (get_value tiff_start endian e h0),
       mkHandle (content h) (pos h) (trace h ++ tr)).
Proof.
  intros Hts Hpos Hpos0 Hc.
  destruct (get_value_frame tiff_start endian e h Hts Hpos) as (tr & ->).
  destruct (get_value_frame tiff_start endian e h0 Hts Hpos0) as (tr0 & ->).
  exists tr. cbn [fst]. now rewrite Hc.
Qed.

(** ** Signs of binary64 results

    The operations on primitive floats are related to their IEEE 754
    specification by the axioms of the Floats library. *)

Lemma iter_pos_invariant {A} (P : A -> Prop) (f : A -> A) :
  (forall x, P x -> P (f x)) -> forall n x, P x -> P (SpecFloat.iter_pos f n x).
Proof.
  intros Hf. induction n as [n IH|n IH|]; intros x Hx; simpl; auto.
Qed.

Lemma shr_1_nonneg (mrs : shr_record) : 0 <= shr_m mrs -> 0 <= shr_m (shr_1 mrs).
Proof.
  destruct mrs as [m r s]. simpl. destruct m as [|[p|p|]|p]; simpl; lia.
Qed.

Lemma shr_fexp_nonneg (m e : Z) (l : location) :
  0 <= m -> 0 <= shr_m (fst (shr_fexp prec emax m e l)).
Proof.
  intros Hm. unfold shr_fexp, shr.
  assert (H0 : 0 <= shr_m (shr_record_of_loc m l)).
  { destruct l as [|[]]; exact Hm. }
  destruct (fexp prec emax (Zdigits2 m + e) - e) as [|p|p]; cbn [fst]; try exact H0.
  now apply (iter_pos_invariant (fun r => 0 <= shr_m r)); [apply shr_1_nonneg|].
Qed.

Lemma round_nearest_even_nonneg (m : Z) (l : location) :
  0 <= m -> 0 <= round_nearest_even m l.
Proof.
  intros Hm. unfold round_nearest_even.
  destruct l as [|[]]; try destruct (Z.even m); lia.
Qed.

Lemma binary_round_aux_nonneg (m e : Z) (l : location) :
  0 <= m -> sf_nonneg (binary_round_aux prec emax false m e l).
Proof.
  intros Hm. unfold binary_round_aux.
  pose proof (shr_fexp_nonneg m e l Hm) as H1.
  destruct (shr_fexp prec emax m e l) as [mrs' e']. cbn [fst] in H1.
  pose proof (shr_fexp_nonneg _ e' loc_Exact
                (round_nearest_even_nonneg _ (loc_of_shr_record mrs') H1)) as H2.
  destruct (shr_fexp prec emax _ e' loc_Exact) as [mrs'' e'']. cbn [fst] in H2.
  destruct (shr_m mrs'') as [|p|p]; [exact I | | lia].
  destruct (e'' <=? emax - prec); exact I.
Qed.

Lemma binary_normalize_nonneg (m e : Z) :
  0 <= m -> sf_nonneg (binary_normalize prec emax m e false).
Proof.
  intros Hm. destruct m as [|p|p]; [exact I | | lia].
  unfold binary_normalize, binary_round.
  destruct (shl_align p e _) as [mz ez]. apply binary_round_aux_nonneg. lia.
Qed.

Lemma SFdiv_nonneg (x y : spec_float) :
  sf_nonneg x -> sf_positive y -> sf_nonneg (SFdiv prec emax x y).
Proof.
  destruct x as [[]|[]| |[] mx ex], y as [[]|[]| |[] my ey]; try easy.
  intros _ _. unfold SFdiv. cbn [xorb].
  destruct (SFdiv_core_binary prec emax (Z.pos mx) ex (Z.pos my) ey) as [[mz ez] lz] eqn:Hcore.
  apply binary_round_aux_nonneg.
  unfold SFdiv_core_binary in Hcore.
  set (s := ex - ey - _) in Hcore.
  set (m' := match s with Z0 => Z.pos mx | Z.pos _ => Z.shiftl (Z.pos mx) s | Z.neg _ => 0 end) in Hcore.
  assert (Hm' : 0 <= m').
  { subst m'. destruct s; [lia | apply Z.shiftl_nonneg; lia | lia]. }
  pose proof (Z.div_pos m' (Z.pos my) Hm' ltac:(lia)) as Hq.
  unfold Z.div in Hq. destruct (Z.div_eucl m' (Z.pos my)) as [q r].
  injection Hcore as <- _ _. exact Hq.
Qed.

Lemma SFadd_nonneg (x y : spec_float) :
  sf_nonneg x -> sf_nonneg y -> sf_nonneg (SFadd prec emax x y).
Proof.
  destruct x as [[]|[]| |[] mx ex], y as [[]|[]| |[] my ey]; try easy.
  intros _ _. unfold SFadd. cbn [cond_Zopp].
  apply binary_normalize_nonneg. lia.
Qed.

Lemma float_of_int_nonneg (n : Z) : sf_nonneg (Prim2SF (float_of_int n)).
Proof.
  unfold float_of_int. rewrite of_uint63_spec.
  apply binary_normalize_nonneg. apply Uint63.to_Z_bounded.
Qed.

Lemma digits2_pos_size (p : positive) : digits2_pos p = Pos.size p.
Proof. induction p; simpl; congruence. Qed.

Lemma digits2_pos_iter_xO (p k : positive) :
  digits2_pos (Pos.iter xO p k) = (digits2_pos p + k)%positive.
Proof.
  induction k as [|k IH] using Pos.peano_ind.
  - simpl. lia.
  - rewrite Pos.iter_succ. simpl. rewrite IH. lia.
Qed.

Lemma size_bound (p : positive) : Z.pos p < 2 ^ 32 -> Z.pos (Pos.size p) <= 32.
Proof.
  intros Hp. pose proof (Pos.size_le p) as Hle.
  apply Pos2Z.pos_le_pos in Hle. rewrite Pos2Z.inj_pow in Hle.
  change (Z.pos p~0) with (2 * Z.pos p) in Hle.
  assert (H : 2 ^ Z.pos (Pos.size p) < 2 ^ 33) by (change (2 ^ 33) with (2 * 2 ^ 32); lia).
  apply Z.pow_lt_mono_r_iff in H; lia.
Qed.

Lemma shr_fexp_exact (m : positive) (e : Z) :
  Z.pos (digits2_pos m) = 53 -> -1074 <= e ->
  shr_fexp prec emax (Z.pos m) e loc_Exact
  = (Build_shr_record (Z.pos m) false false, e).
Proof.
  intros Hd He. unfold shr_fexp.
  assert (E : fexp prec emax (Zdigits2 (Z.pos m) + e) - e = 0).
  { unfold fexp, emin, prec, emax. cbn [Zdigits2]. rewrite Hd. lia. }
  rewrite E. reflexivity.
Qed.

Lemma float_of_int_positive (n : Z) :
  0 < n < 2 ^ 32 -> sf_positive (Prim2SF (float_of_int n)).
Proof.
  intros Hn. unfold float_of_int. rewrite of_uint63_spec, Uint63.of_Z_spec.
  rewrite Z.mod_small by (change Uint63Axioms.wB with (2 ^ 63); split; [lia|];
    apply Z.lt_trans with (2 ^ 32); [lia | reflexivity]).
  destruct n as [|p|p]; [lia | | lia].
  unfold binary_normalize, binary_round.
  pose proof (size_bound p ltac:(lia)) as Hsize. rewrite <- digits2_pos_size in Hsize.
  assert (Hfexp : fexp prec emax (Z.pos (digits2_pos p) + 0) = Z.pos (digits2_pos p) - 53).
  { unfold fexp, emin, prec, emax. lia. }
  rewrite Hfexp. unfold shl_align.
  destruct (Z.pos (digits2_pos p) - 53 - 0) as [|k|k] eqn:Hk; [lia | lia |].
  assert (Hd : Z.pos (digits2_pos (Pos.iter xO p k)) = 53).
  { rewrite digits2_pos_iter_xO. lia. }
  unfold binary_round_aux.
  rewrite shr_fexp_exact by (exact Hd || lia).
  cbn [shr_m loc_of_shr_record round_nearest_even].
  rewrite shr_fexp_exact by (exact Hd || lia).
  cbn [shr_m].
  destruct (Z.leb_spec (Z.pos (digits2_pos p) - 53) (emax - prec)) as [_|Hbad];
    [exact I|].
  unfold emax, prec in Hbad. lia.
Qed.

Lemma byte_val_bound (b : byte) : byte_val b < 256.
Proof. unfold byte_val. pose proof (Byte.to_N_bounded b). lia. Qed.

Lemma be_value_from_bound (b : bytes) (acc : Z) :
  fold_left (fun acc x => acc * 256 + byte_val x) b acc < (acc + 1) * 256 ^ len b.
Proof.
  revert acc; induction b as [|x b IH]; intros acc.
  - unfold len. cbn [fold_left length Z.of_nat]. rewrite Z.pow_0_r. lia.
  - cbn [fold_left]. eapply Z.lt_le_trans; [apply IH|].
    replace (len (x :: b)) with (len b + 1) by (unfold len; simpl length; lia).
    rewrite Z.pow_add_r by (pose proof (len_nonneg b); lia).
    pose proof (byte_val_bound x).
    assert (0 < 256 ^ len b) by (apply Z.pow_pos_nonneg; [lia | apply len_nonneg]).
    nia.
Qed.

Lemma unpack_I_range (endian : endianness) (b : bytes) (z : Z) :
  unpack_I endian b = Ok z -> 0 <= z < 2 ^ 32.
Proof.
  unfold unpack_I, struct_unpack. destruct (Z.eqb_spec (len b) 4) as [Hlen|]; [|discriminate].
  intros [= <-].
  assert (Hbe : forall b', len b' = 4 -> 0 <= be_value b' < 2 ^ 32).
  { intros b' Hb'. split; [apply be_value_nonneg|].
    unfold be_value. pose proof (be_value_from_bound b' 0) as H.
    rewrite Hb' in H. exact H. }
  destruct endian; [|now apply Hbe].
  apply Hbe. unfold len in *. now rewrite length_rev.
Qed.

Lemma ratio_nonneg (num den : Z) :
  0 <= den < 2 ^ 32 -> sf_nonneg (Prim2SF (to_float (ratio num den))).
Proof.
  intros Hden. unfold ratio. destruct (Z.eqb_spec den 0) as [->|Hne]; [exact I|].
  cbn [to_float]. rewrite div_spec.
  apply SFdiv_nonneg; [apply float_of_int_nonneg | apply float_of_int_positive; lia].
Qed.

Lemma dms_nonneg (degrees minutes seconds : pynum) :
  sf_nonneg (Prim2SF (to_float degrees)) ->
  sf_nonneg (Prim2SF (to_float minutes)) ->
  sf_nonneg (Prim2SF (to_float seconds)) ->
  sf_nonneg (Prim2SF (to_float (dms degrees minutes seconds))).
Proof.
  intros Hd Hm Hs. unfold dms. cbn [to_float].
  rewrite !add_spec, !div_spec.
  repeat first [apply SFadd_nonneg | apply SFdiv_nonneg | assumption];
    apply float_of_int_positive; lia.
Qed.

Lemma sf_nonneg_leb (f : float) : sf_nonneg (Prim2SF f) -> (0 <=? f)%float = true.
Proof.
  intros H. rewrite leb_spec. change (Prim2SF 0) with (S754_zero false).
  now destruct (Prim2SF f) as [[]|[]| |[] m e].
Qed.

Lemma sf_nonneg_opp_leb (f : float) : sf_nonneg (Prim2SF f) -> (- f <=? 0)%float = true.
Proof.
  intros H. rewrite leb_spec, opp_spec. change (Prim2SF 0) with (S754_zero false).
  now destruct (Prim2SF f) as [[]|[]| |[] m e].
Qed.

(** A decoded coordinate is a float, and it is not negative. *)
Lemma read_gps_coord_nonneg (endian : endianness) (data : bytes) (v : pynum) :
  read_gps_coord endian data = Ok v ->
  exists f, v = PFloat f /\ sf_nonneg (Prim2SF f).
Proof.
  intros Hv. destruct (Z.lt_ge_cases (len data) 24) as [Hlt|Hge].
  { rewrite read_gps_coord_short in Hv by exact Hlt. discriminate. }
  destruct (read_gps_coord_long endian data Hge)
    as (n0 & d0 & n1 & d1 & n2 & d2 & _ & Hd0 & _ & Hd1 & _ & Hd2 & Heq).
  rewrite Heq in Hv. injection Hv as <-.
  eexists. split; [reflexivity|].
  apply (dms_nonneg (ratio n0 d0) (ratio n1 d1) (ratio n2 d2));
    apply ratio_nonneg; eapply unpack_I_range; eassumption.
Qed.

(** ** Hemispheres *)

Lemma apply_ref_first_byte (a b : byte) (v : bytes) (x : pynum) :
  apply_ref [[a]; [b]] v x = if first_byte_in (Some v) [a; b] then py_neg x else x.
Proof.
  unfold apply_ref, bytes_in, first_byte_in. destruct v as [|c t].
  - reflexivity.
  - replace (py_slice (c :: t) 0 1) with [c]
      by (symmetry; apply (py_slice_take_drop (c :: t) 0 1); lia).
    cbn [existsb bytes_eqb]. now rewrite !andb_true_r.
Qed.

Lemma py_neg_nonpos (f : float) :
  sf_nonneg (Prim2SF f) -> py_nonpos (py_neg (PFloat f)) = true.
Proof. intros H. cbn [py_neg py_nonpos]. now apply sf_nonneg_opp_leb. Qed.

(** The optional reference stage of [decode_gps], from any handle on the
    same file as [h0]. *)
Lemma reference_stage (tiff_start : Z) (endian : endianness) (h0 h : handle)
    (e : option entry) (v : option bytes) (a b : byte) (x : pynum) :
  0 <= tiff_start -> 0 <= pos h0 -> 0 <= pos h -> content h = content h0 ->
  resolves_to tiff_start endian h0 e v ->
  exists tr,
    match e with
    | Some e =>
        let* ref_value := get_value tiff_start endian e in
        ret (apply_ref [[a]; [b]] ref_value x)
    | None => ret x
    end h
    = (Ok (if first_byte_in v [a; b] then py_neg x else x),
       mkHandle (content h) (pos h) (trace h ++ tr)).
Proof.
  intros Hts Hpos0 Hpos Hc Hres. destruct e as [e|], v as [v|]; try easy.
  - destruct (get_value_same_content tiff_start endian e h h0 Hts Hpos Hpos0 Hc)
      as (tr & Hget).
    exists tr. unfold bind, ret. rewrite Hget. cbn [resolves_to] in Hres. rewrite Hres.
    now rewrite apply_ref_first_byte.
  - exists []. unfold ret. rewrite app_nil_r. now destruct h.
Qed.

(** The last stage of the decode, once its four values are known. *)
Lemma decode_gps_resolved (tiff_start : Z) (endian : endianness) (gps_ifd : ifd)
    (h : handle) (lat_entry lon_entry : entry) (lat_data lon_data : bytes)
    (lat lon : pynum) (lat_ref lon_ref : option bytes) :
  0 <= tiff_start -> 0 <= pos h ->
  gps_ifd !! 0x0002 = Some lat_entry ->
  gps_ifd !! 0x0004 = Some lon_entry ->
  fst (get_value tiff_start endian lat_entry h) = Ok lat_data ->
  read_gps_coord endian lat_data = Ok lat ->
  fst (get_value tiff_start endian lon_entry h) = Ok lon_data ->
  read_gps_coord endian lon_data = Ok lon ->
  resolves_to tiff_start endian h (gps_ifd !! 0x0001) lat_ref ->
  resolves_to tiff_start endian h (gps_ifd !! 0x0003) lon_ref ->
  exists h',
    decode_gps tiff_start endian gps_ifd h
    = (Ok (Some (if first_byte_in lat_ref [x53; x73] then py_neg lat else lat,
                 if first_byte_in lon_ref [x57; x77] then py_neg lon else lon)), h') /\
    content h' = content h /\ pos h' = pos h.
Proof.
  intros Hts Hpos Hlat_e Hlon_e Hlat_v Hlat Hlon_v Hlon Hlat_ref Hlon_ref.
  unfold decode_gps. rewrite Hlat_e, Hlon_e.
  destruct (get_value_same_content tiff_start endian lat_entry h h Hts Hpos Hpos eq_refl)
    as (tr1 & Hget1).
  unfold bind at 1. rewrite Hget1, Hlat_v.
  unfold bind at 1. unfold lift at 1. rewrite Hlat.
  set (h1 := mkHandle (content h) (pos h) (trace h ++ tr1)).
  destruct (reference_stage tiff_start endian h h1 (gps_ifd !! 1) lat_ref x53 x73
              lat Hts Hpos Hpos eq_refl Hlat_ref) as (tr2 & Href1).
  unfold bind at 1. rewrite Href1.
  set (h2 := mkHandle (content h1) (pos h1) (trace h1 ++ tr2)).
  destruct (get_value_same_content tiff_start endian lon_entry h2 h Hts Hpos Hpos eq_refl)
    as (tr3 & Hget3).
  unfold bind at 1. rewrite Hget3, Hlon_v.
  unfold bind at 1. unfold lift at 1. rewrite Hlon.
  set (h3 := mkHandle (content h2) (pos h2) (trace h2 ++ tr3)).
  destruct (reference_stage tiff_start endian h h3 (gps_ifd !! 3) lon_ref x57 x77
              lon Hts Hpos Hpos eq_refl Hlon_ref) as (tr4 & Href2).
  unfold bind at 1. rewrite Href2. unfold ret.
  eexists. split; [reflexivity|]. split; reflexivity.
Qed.

(** C2: when the latitude and longitude values resolve and decode, and the
    reference tags that are present resolve, the decode succeeds; the
    magnitudes are not negative; the latitude is negated exactly when the
    value of tag 0x0001 starts with 'S' or 's', the longitude exactly when
    the value of tag 0x0003 starts with 'W' or 'w'; with any other first
    byte, an empty value or no reference tag the magnitude is returned as it
    is. A negated coordinate is not positive. *)
Theorem decode_gps_hemisphere (tiff_start : Z) (endian : endianness) (gps_ifd : ifd)
    (h : handle) (lat_entry lon_entry : entry) (lat_data lon_data : bytes)
    (lat lon : pynum) (lat_ref lon_ref : option bytes) :
  0 <= tiff_start -> 0 <= pos h ->
  gps_ifd !! 0x0002 = Some lat_entry ->
  gps_ifd !! 0x0004 = Some lon_entry ->
  fst (get_value tiff_start endian lat_entry h) = Ok lat_data ->
  read_gps_coord endian lat_data = Ok lat ->
  fst (get_value tiff_start endian lon_entry h) = Ok lon_data ->
  read_gps_coord endian lon_data = Ok lon ->
  resolves_to tiff_start endian h (gps_ifd !! 0x0001) lat_ref ->
  resolves_to tiff_start endian h (gps_ifd !! 0x0003) lon_ref ->
  py_nonneg lat = true /\ py_nonneg lon = true /\
  exists latitude longitude h',
    decode_gps tiff_start endian gps_ifd h = (Ok (Some (latitude, longitude)), h') /\
    latitude = (if first_byte_in lat_ref [x53; x73] then py_neg lat else lat) /\
    longitude = (if first_byte_in lon_ref [x57; x77] then py_neg lon else lon) /\
    (first_byte_in lat_ref [x53; x73] = true -> py_nonpos latitude = true) /\
    (first_byte_in lon_ref [x57; x77] = true -> py_nonpos longitude = true).
Proof.
  intros Hts Hpos Hlat_e Hlon_e Hlat_v Hlat Hlon_v Hlon Hlat_ref Hlon_ref.
  destruct (decode_gps_resolved tiff_start endian gps_ifd h lat_entry lon_entry
              lat_data lon_data lat lon lat_ref lon_ref
              Hts Hpos Hlat_e Hlon_e Hlat_v Hlat Hlon_v Hlon Hlat_ref Hlon_ref)
    as (h' & Hdec & _).
  destruct (read_gps_coord_nonneg _ _ _ Hlat) as (flat & -> & Hflat).
  destruct (read_gps_coord_nonneg _ _ _ Hlon) as (flon & -> & Hflon).
  split; [now apply sf_nonneg_leb|]. split; [now apply sf_nonneg_leb|].
  eexists _, _, h'. split; [exact Hdec|].
  split; [reflexivity|]. split; [reflexivity|].
  split; intros ->; now apply py_neg_nonpos.
Qed.

Lemma decode_gps_hemisphere_witness :
  let h := mkHandle (sample_tiff Big x53 x45) 76 [] in
  let gps_ifd : ifd :=
    <[ 4 := (5, 3, pack 4 Big 104) ]>
      (<[ 3 := (2, 2, [x45; x00; x00; x00]) ]>
         (<[ 2 := (5, 3, pack 4 Big 80) ]>
            {[ 1 := (2, 2, [x53; x00; x00; x00]) ]})) in
  let lat_data := rationals Big [(40, 1); (26, 1); (46, 1)] in
  let lon_data := rationals Big [(73, 1); (59, 1); (2, 1)] in
  let lat := dms (ratio 40 1) (ratio 26 1) (ratio 46 1) in
  let lon := dms (ratio 73 1) (ratio 59 1) (ratio 2 1) in
  (0 <= 0 /\ 0 <= pos h /\
   gps_ifd !! 0x0002 = Some (5, 3, pack 4 Big 80) /\
   gps_ifd !! 0x0004 = Some (5, 3, pack 4 Big 104) /\
   fst (get_value 0 Big (5, 3, pack 4 Big 80) h) = Ok lat_data /\
   read_gps_coord Big lat_data = Ok lat /\
   fst (get_value 0 Big (5, 3, pack 4 Big 104) h) = Ok lon_data /\
   read_gps_coord Big lon_data = Ok lon /\
   resolves_to 0 Big h (gps_ifd !! 0x0001) (Some [x53; x00; x00; x00]) /\
   resolves_to 0 Big h (gps_ifd !! 0x0003) (Some [x45; x00; x00; x00])) /\
  exists h',
    decode_gps 0 Big gps_ifd h = (Ok (Some (py_neg lat, lon)), h') /\
    py_nonpos (py_neg lat) = true /\ py_nonneg lon = true.
Proof.
  intros h gps_ifd lat_data lon_data lat lon.
  assert (H1 : 0 <= 0) by lia.
  assert (H2 : 0 <= pos h) by (simpl; lia).
  assert (H3 : gps_ifd !! 0x0002 = Some (5, 3, pack 4 Big 80)) by (vm_compute; reflexivity).
  assert (H4 : gps_ifd !! 0x0004 = Some (5, 3, pack 4 Big 104)) by (vm_compute; reflexivity).
  assert (H5 : fst (get_value 0 Big (5, 3, pack 4 Big 80) h) = Ok lat_data)
    by (vm_compute; reflexivity).
  assert (H6 : read_gps_coord Big lat_data = Ok lat) by (vm_compute; reflexivity).
  assert (H7 : fst (get_value 0 Big (5, 3, pack 4 Big 104) h) = Ok lon_data)
    by (vm_compute; reflexivity).
  assert (H8 : read_gps_coord Big lon_data = Ok lon) by (vm_compute; reflexivity).
  assert (H9 : resolves_to 0 Big h (gps_ifd !! 0x0001) (Some [x53; x00; x00; x00]))
    by (vm_compute; reflexivity).
  assert (H10 : resolves_to 0 Big h (gps_ifd !! 0x0003) (Some [x45; x00; x00; x00]))
    by (vm_compute; reflexivity).
  split; [now repeat split|].
  destruct (decode_gps_hemisphere 0 Big gps_ifd h _ _ lat_data lon_data lat lon _ _
              H1 H2 H3 H4 H5 H6 H7 H8 H9 H10)
    as (_ & Hlon & latitude & longitude & h' & Hdec & -> & -> & Hneg & _).
  exists h'. split; [exact Hdec|]. split; [now apply Hneg | exact Hlon].
Defined.

(** The same through the whole decoder: a file with references 's' and 'E'
    decodes to a southern latitude and an eastern longitude. *)
Example south_east_decodes :
  exists lat lon tr,
    read_jpeg_exif_gps (single_file "photo.jpeg" (sample_jpeg Little x73 x45)) "photo.jpeg"
    = (Ok (Some (lat, lon)), tr) /\
    within lat (- 40446111 # 1000000) (1 # 1000000) = true /\
    within lon (73983889 # 1000000) (1 # 1000000) = true.
Proof.
  eexists _, _, _. split; [vm_compute; reflexivity|].
  split; vm_compute; reflexivity.
Qed.

(** ** Coordinates *)

(** C1: on a value of 24 bytes [read_gps_coord] unpacks the three rationals
    at offsets 0, 8 and 16 and returns degrees + minutes / 60 + seconds /
    3600. A decode whose latitude value is (40,1)(26,1)(46,1) with a
    reference starting with 'N' and whose longitude value is
    (73,1)(59,1)(2,1) with a reference starting with 'W' returns a latitude
    within 1e-6 of 40.446111 and a longitude within 1e-6 of -73.983889; so
    does the decode of the JPEG file built around these values, in either
    byte order. *)
Theorem read_gps_coord_dms :
  (forall (endian : endianness) (data : bytes),
     len data = 24 ->
     exists n0 d0 n1 d1 n2 d2,
       unpack_I endian (py_slice data 0 4) = Ok n0 /\
       unpack_I endian (py_slice data 4 8) = Ok d0 /\
       unpack_I endian (py_slice data 8 12) = Ok n1 /\
       unpack_I endian (py_slice data 12 16) = Ok d1 /\
       unpack_I endian (py_slice data 16 20) = Ok n2 /\
       unpack_I endian (py_slice data 20 24) = Ok d2 /\
       read_gps_coord endian data
       = Ok (PFloat (to_float (ratio n0 d0)
                     + to_float (ratio n1 d1) / float_of_int 60
                     + to_float (ratio n2 d2) / float_of_int 3600))) /\
  (forall (tiff_start : Z) (endian : endianness) (gps_ifd : ifd) (h : handle)
          (lat_entry lon_entry : entry) (lat_ref lon_ref : bytes),
     0 <= tiff_start -> 0 <= pos h ->
     gps_ifd !! 0x0002 = Some lat_entry ->
     gps_ifd !! 0x0004 = Some lon_entry ->
     fst (get_value tiff_start endian lat_entry h)
     = Ok (rationals endian [(40, 1); (26, 1); (46, 1)]) ->
     fst (get_value tiff_start endian lon_entry h)
     = Ok (rationals endian [(73, 1); (59, 1); (2, 1)]) ->
     resolves_to tiff_start endian h (gps_ifd !! 0x0001) (Some (x4e :: lat_ref)) ->
     resolves_to tiff_start endian h (gps_ifd !! 0x0003) (Some (x57 :: lon_ref)) ->
     exists lat lon h',
       decode_gps tiff_start endian gps_ifd h = (Ok (Some (lat, lon)), h') /\
       within lat (40446111 # 1000000) (1 # 1000000) = true /\
       within lon (- 73983889 # 1000000) (1 # 1000000) = true) /\
  (forall endian : endianness,
     exists lat lon tr,
       read_jpeg_exif_gps (single_file "photo.jpg" (sample_jpeg endian x4e x57)) "photo.jpg"
       = (Ok (Some (lat, lon)), tr) /\
       within lat (40446111 # 1000000) (1 # 1000000) = true /\
       within lon (- 73983889 # 1000000) (1 # 1000000) = true).
Proof.
  split; [|split].
  - intros endian data Hlen. apply read_gps_coord_long. lia.
  - intros tiff_start endian gps_ifd h lat_entry lon_entry lat_ref lon_ref
           Hts Hpos Hlat_e Hlon_e Hlat_v Hlon_v Hlat_ref Hlon_ref.
    assert (Hlat : read_gps_coord endian (rationals endian [(40, 1); (26, 1); (46, 1)])
                   = Ok (dms (ratio 40 1) (ratio 26 1) (ratio 46 1)))
      by (destruct endian; vm_compute; reflexivity).
    assert (Hlon : read_gps_coord endian (rationals endian [(73, 1); (59, 1); (2, 1)])
                   = Ok (dms (ratio 73 1) (ratio 59 1) (ratio 2 1)))
      by (destruct endian; vm_compute; reflexivity).
    destruct (decode_gps_resolved tiff_start endian gps_ifd h lat_entry lon_entry
                _ _ _ _ _ _ Hts Hpos Hlat_e Hlon_e Hlat_v Hlat Hlon_v Hlon Hlat_ref Hlon_ref)
      as (h' & Hdec & _).
    eexists _, _, h'. split; [exact Hdec|].
    split; vm_compute; reflexivity.
  - intros endian. eexists _, _, _.
    split; [destruct endian; vm_compute; reflexivity|].
    split; vm_compute; reflexivity.
Qed.

Lemma read_gps_coord_dms_witness :
  (let data := rationals Little [(40, 1); (26, 1); (46, 1)] in
   len data = 24 /\
   exists n0 d0 n1 d1 n2 d2,
     unpack_I Little (py_slice data 0 4) = Ok n0 /\
     unpack_I Little (py_slice data 4 8) = Ok d0 /\
     unpack_I Little (py_slice data 8 12) = Ok n1 /\
     unpack_I Little (py_slice data 12 16) = Ok d1 /\
     unpack_I Little (py_slice data 16 20) = Ok n2 /\
     unpack_I Little (py_slice data 20 24) = Ok d2 /\
     read_gps_coord Little data
     = Ok (PFloat (to_float (ratio n0 d0)
                   + to_float (ratio n1 d1) / float_of_int 60
                   + to_float (ratio n2 d2) / float_of_int 3600))) /\
  (let h := mkHandle (sample_tiff Big x4e x57) 76 [] in
   let gps_ifd : ifd :=
     <[ 4 := (5, 3, pack 4 Big 104) ]>
       (<[ 3 := (2, 2, [x57; x00; x00; x00]) ]>
          (<[ 2 := (5, 3, pack 4 Big 80) ]>
             {[ 1 := (2, 2, [x4e; x00; x00; x00]) ]})) in
   (0 <= 0 /\ 0 <= pos h /\
    gps_ifd !! 0x0002 = Some (5, 3, pack 4 Big 80) /\
    gps_ifd !! 0x0004 = Some (5, 3, pack 4 Big 104) /\
    fst (get_value 0 Big (5, 3, pack 4 Big 80) h)
    = Ok (rationals Big [(40, 1); (26, 1); (46, 1)]) /\
    fst (get_value 0 Big (5, 3, pack 4 Big 104) h)
    = Ok (rationals Big [(73, 1); (59, 1); (2, 1)]) /\
    resolves_to 0 Big h (gps_ifd !! 0x0001) (Some [x4e; x00; x00; x00]) /\
    resolves_to 0 Big h (gps_ifd !! 0x0003) (Some [x57; x00; x00; x00])) /\
   exists lat lon h',
     decode_gps 0 Big gps_ifd h = (Ok (Some (lat, lon)), h') /\
     within lat (40446111 # 1000000) (1 # 1000000) = true /\
     within lon (- 73983889 # 1000000) (1 # 1000000) = true).
Proof.
  split.
  - intros data.
    assert (H : len data = 24) by reflexivity.
    split; [exact H|].
    exact (proj1 read_gps_coord_dms Little data H).
  - intros h gps_ifd.
    assert (H1 : 0 <= 0) by lia.
    assert (H2 : 0 <= pos h) by (simpl; lia).
    assert (H3 : gps_ifd !! 0x0002 = Some (5, 3, pack 4 Big 80)) by (vm_compute; reflexivity).
    assert (H4 : gps_ifd !! 0x0004 = Some (5, 3, pack 4 Big 104)) by (vm_compute; reflexivity).
    assert (H5 : fst (get_value 0 Big (5, 3, pack 4 Big 80) h)
                 = Ok (rationals Big [(40, 1); (26, 1); (46, 1)])) by (vm_compute; reflexivity).
    assert (H6 : fst (get_value 0 Big (5, 3, pack 4 Big 104) h)
                 = Ok (rationals Big [(73, 1); (59, 1); (2, 1)])) by (vm_compute; reflexivity).
    assert (H7 : resolves_to 0 Big h (gps_ifd !! 0x0001) (Some [x4e; x00; x00; x00]))
      by (vm_compute; reflexivity).
    assert (H8 : resolves_to 0 Big h (gps_ifd !! 0x0003) (Some [x57; x00; x00; x00]))
      by (vm_compute; reflexivity).
    split; [now repeat split|].
    exact (proj1 (proj2 read_gps_coord_dms) 0 Big gps_ifd h _ _ _ _ H1 H2 H3 H4 H5 H6 H7 H8).
Defined.

(** ** Termination *)

Lemma converges_bind {A B} (m : M A) (k : A -> M B) (h : handle) :
  converges m h ->
  (forall a h', m h = (Ok a, h') -> converges (k a) h') ->
  converges (bind m k) h.
Proof.
  unfold converges, bind. intros Hm Hk.
  destruct (m h) as [[a|e|] h'] eqn:E; cbn [fst] in *; [now apply Hk | easy | easy].
Qed.

Lemma total_bind {A B} (m : M A) (k : A -> M B) :
  total m -> (forall a, total (k a)) -> total (bind m k).
Proof. intros Hm Hk h. apply converges_bind; [apply Hm | intros a h' _; apply Hk]. Qed.

Lemma total_ret {A} (a : A) : total (ret a).
Proof. intros h. unfold converges, ret. easy. Qed.

Lemma total_lift_unpack (w : Z) (endian : endianness) (b : bytes) :
  total (lift (struct_unpack w endian b)).
Proof. intros h. unfold converges, lift. cbn [fst]. apply struct_unpack_not_Diverge. Qed.

Lemma total_f_read (n : Z) : total (f_read n).
Proof. intros h. unfold converges, f_read. easy. Qed.

Lemma total_f_tell : total f_tell.
Proof. intros h. unfold converges, f_tell. easy. Qed.

Lemma total_f_seek (target : Z) : total (f_seek target).
Proof. intros h. unfold converges, f_seek. now destruct (target <? 0). Qed.

Lemma total_if {A} (b : bool) (m1 m2 : M A) : total m1 -> total m2 -> total (if b then m1 else m2).
Proof. now destruct b. Qed.

Ltac total_step :=
  first [ apply total_bind; [|intros ?]
        | apply total_if
        | apply total_ret
        | apply total_f_read
        | apply total_f_tell
        | apply total_f_seek
        | apply total_lift_unpack ].

Lemma total_read_entries (endian : endianness) (n : nat) (entries : ifd) :
  total (read_entries endian n entries).
Proof.
  revert entries; induction n as [|n IH]; intros entries; cbn [read_entries].
  - apply total_ret.
  - unfold unpack_H, unpack_I. repeat total_step. apply IH.
Qed.

Lemma total_read_ifd_entries (tiff_start : Z) (endian : endianness) (offset : Z) :
  total (read_ifd_entries tiff_start endian offset).
Proof.
  unfold read_ifd_entries, unpack_H. repeat total_step. apply total_read_entries.
Qed.

Lemma total_get_value (tiff_start : Z) (endian : endianness) (e : entry) :
  total (get_value tiff_start endian e).
Proof.
  destruct e as [[type_id count] raw]. unfold get_value, unpack_I. repeat total_step.
Qed.

Lemma read_gps_coord_not_Diverge (endian : endianness) (data : bytes) :
  read_gps_coord endian data <> Diverge.
Proof.
  destruct (Z.lt_ge_cases (len data) 24) as [Hlt|Hge].
  - now rewrite read_gps_coord_short.
  - destruct (read_gps_coord_long endian data Hge)
      as (n0 & d0 & n1 & d1 & n2 & d2 & _ & _ & _ & _ & _ & _ & ->).
    discriminate.
Qed.

Lemma total_lift_read_gps_coord (endian : endianness) (data : bytes) :
  total (lift (read_gps_coord endian data)).
Proof. intros h. unfold converges, lift. cbn [fst]. apply read_gps_coord_not_Diverge. Qed.

Lemma total_decode_gps (tiff_start : Z) (endian : endianness) (gps_ifd : ifd) :
  total (decode_gps tiff_start endian gps_ifd).
Proof.
  unfold decode_gps.
  destruct (gps_ifd !! 2) as [lat_entry|]; [|apply total_ret].
  destruct (gps_ifd !! 4) as [lon_entry|]; [|apply total_ret].
  apply total_bind; [apply total_get_value | intros lat_data].
  apply total_bind; [apply total_lift_read_gps_coord | intros latitude].
  apply total_bind.
  { destruct (gps_ifd !! 1); [|apply total_ret].
    apply total_bind; [apply total_get_value | intros ?; apply total_ret]. }
  intros latitude'.
  apply total_bind; [apply total_get_value | intros lon_data].
  apply total_bind; [apply total_lift_read_gps_coord | intros longitude].
  apply total_bind.
  { destruct (gps_ifd !! 3); [|apply total_ret].
    apply total_bind; [apply total_get_value | intros ?; apply total_ret]. }
  intros longitude'. apply total_ret.
Qed.

Lemma total_decode_ifds (tiff_start : Z) (endian : endianness) (ifd_offset : Z) :
  total (decode_ifds tiff_start endian ifd_offset).
Proof.
  unfold decode_ifds.
  apply total_bind; [apply total_read_ifd_entries | intros ifd0].
  destruct (ifd0 !! 34853) as [[[type_id count] raw]|]; [|apply total_ret].
  unfold unpack_I.
  apply total_bind; [apply total_lift_unpack | intros gps_offset].
  apply total_bind; [apply total_read_ifd_entries | intros gps_ifd].
  apply total_decode_gps.
Qed.

Lemma total_read_tiff_header : total read_tiff_header.
Proof.
  unfold read_tiff_header, unpack_H, unpack_I. repeat total_step.
  destruct (byte_order _); repeat total_step.
Qed.

(** Each turn of the marker loop that goes on moves the cursor forward, by
    at least the two bytes of the marker, and the loop stops at the first
    read at or past the end of the file: fuel above the number of bytes left
    is never used up. *)
Lemma find_app1_converges (fuel : nat) (h : handle) :
  0 <= pos h ->
  (Z.to_nat (len (content h) - pos h) < fuel)%nat ->
  converges (find_app1 fuel) h.
Proof.
  revert h; induction fuel as [|fuel IH]; intros h Hpos Hfuel; [lia|].
  cbn [find_app1]. apply converges_bind; [apply total_f_read|].
  intros marker h1 Hread. unfold f_read in Hread.
  change (2 <? 0) with false in Hread. cbn iota in Hread.
  injection Hread as Hmarker Hh1.
  assert (Hlen : len marker = Z.max 0 (Z.min 2 (len (content h) - pos h))).
  { rewrite <- Hmarker. apply len_take_drop; lia. }
  destruct (Z.ltb_spec (len marker) 2) as [|Hge]; [apply total_ret|].
  destruct (bytes_eqb marker APP1); [apply total_ret|].
  destruct (bytes_eqb (py_slice marker 0 1) [xff]); [|apply total_ret].
  apply converges_bind; [apply total_f_read|].
  intros b h2 Hread2. unfold f_read in Hread2.
  change (2 <? 0) with false in Hread2. cbn iota in Hread2.
  injection Hread2 as Hb Hh2.
  apply converges_bind; [apply total_lift_unpack|].
  intros length h2' Hunpack. unfold lift in Hunpack. injection Hunpack as Hunpack <-.
  destruct (struct_unpack_Ok _ _ _ _ Hunpack) as [Hblen Hlength].
  apply converges_bind; [apply total_f_seek|].
  intros [] h3 Hseek. unfold f_seek_cur, f_seek in Hseek.
  assert (Hpos1 : pos h1 = pos h + len marker).
  { rewrite <- Hh1. cbn [pos]. now rewrite Hmarker. }
  assert (Hpos2 : pos h2 = pos h + 2 + 2).
  { rewrite <- Hh2. cbn [pos]. rewrite Hb. lia. }
  assert (Hc2 : content h2 = content h).
  { rewrite <- Hh2. cbn [content]. rewrite <- Hh1. reflexivity. }
  destruct (Z.ltb_spec (pos h2 + (length - 2)) 0) as [|_]; [lia|].
  injection Hseek as <-. apply IH; cbn [pos content]; rewrite ?Hc2; lia.
Qed.

Lemma locate_tiff_converges (c : bytes) (tr : list event) :
  converges (locate_tiff (S (length c))) (mkHandle c 0 tr).
Proof.
  unfold locate_tiff. apply converges_bind; [apply total_f_read|].
  intros magic h1 Hread. unfold f_read in Hread.
  change (2 <? 0) with false in Hread. cbn iota in Hread. cbn [pos content trace] in Hread.
  injection Hread as Hmagic Hh1.
  destruct (negb (bytes_eqb magic SOI)); [apply total_ret|].
  apply converges_bind.
  - apply find_app1_converges; rewrite <- Hh1; cbn [pos content]; rewrite Hmagic.
    + pose proof (len_nonneg magic). lia.
    + pose proof (len_nonneg magic). unfold len in *. lia.
  - intros [] h2 _; [apply total_read_tiff_header | apply total_ret].
Qed.

Lemma jpeg_body_converges (c : bytes) (tr : list event) :
  converges (jpeg_body (S (length c))) (mkHandle c 0 tr).
Proof.
  unfold jpeg_body. apply converges_bind; [apply locate_tiff_converges|].
  intros [[[tiff_start endian] ifd_offset]|] h1 _; [apply total_decode_ifds | apply total_ret].
Qed.

(** ** The shape of the result *)

Lemma bind_Ok {A B} (m : M A) (k : A -> M B) (h h'' : handle) (b : B) :
  bind m k h = (Ok b, h'') ->
  exists a h', m h = (Ok a, h') /\ k a h' = (Ok b, h'').
Proof.
  unfold bind. destruct (m h) as [[a|e|] h']; [|discriminate..].
  intros H. now exists a, h'.
Qed.








(** A file cut off inside the value field of its last IFD entry still
    decodes when that entry is a hemisphere reference: the short read is not
    an error, and the one byte that is left decides the sign. *)
Example truncated_reference_decodes :
  exists lat lon tr,
    read_jpeg_exif_gps (single_file "cut.jpg" (truncated_jpeg Big)) "cut.jpg"
    = (Ok (Some (lat, lon)), tr) /\
    within lat (40446111 # 1000000) (1 # 1000000) = true /\
    within lon (- 73983889 # 1000000) (1 # 1000000) = true.
Proof.
  eexists _, _, _. split; [vm_compute; reflexivity|].
  split; vm_compute; reflexivity.
Qed.

(** * Properties of the scanner, the directories and the operators *)

(** ** The segment scanner *)

Lemma f_read_at (n : Z) (h : handle) :
  0 <= n ->
  f_read n h
  = (Ok (take (Z.to_nat n) (drop (Z.to_nat (pos h)) (content h))),
     mkHandle (content h)
       (pos h + len (take (Z.to_nat n) (drop (Z.to_nat (pos h)) (content h))))
       (trace h ++ [EvRead (pos h) n])).
Proof.
  intros Hn. unfold f_read. destruct (Z.ltb_spec n 0) as [|_]; [lia | reflexivity].
Qed.

Lemma take_drop_middle {A} (pre x rest : list A) (n : Z) :
  n = len x ->
  take (Z.to_nat n) (drop (Z.to_nat (len pre)) (pre ++ x ++ rest)) = x.
Proof.
  intros ->. unfold len. rewrite !Nat2Z.id, drop_app_length. apply take_app_length.
Qed.

Lemma len_app {A} (a b : list A) : len (a ++ b) = len a + len b.
Proof. unfold len. rewrite length_app. lia. Qed.

Lemma f_read_middle (pre x rest : bytes) (n : Z) (h : handle) :
  content h = pre ++ x ++ rest -> pos h = len pre -> n = len x ->
  f_read n h
  = (Ok x, mkHandle (content h) (len pre + len x) (trace h ++ [EvRead (len pre) n])).
Proof.
  intros Hc Hpos Hn. rewrite f_read_at by (subst n; apply len_nonneg).
  rewrite Hpos.
  assert (E : take (Z.to_nat n) (drop (Z.to_nat (len pre)) (content h)) = x)
    by (rewrite Hc; now apply take_drop_middle).
  now rewrite E.
Qed.

(** Skipping a run of segments: the scan goes on behind them with the fuel
    that is left. *)
Lemma find_app1_skip (segs : list bytes) :
  Forall other_segment segs ->
  forall (pre rest : bytes) (fuel : nat) (h : handle),
    content h = pre ++ concat segs ++ rest ->
    pos h = len pre ->
    exists tr,
      find_app1 (length segs + fuel) h
      = find_app1 fuel
          (mkHandle (content h) (len pre + len (concat segs)) (trace h ++ tr)).
Proof.
  induction 1 as [|s segs Hs Hsegs IH]; intros pre rest fuel h Hc Hpos.
  - exists []. cbn [length concat Nat.add]. rewrite app_nil_r.
    replace (len pre + len (@nil byte)) with (pos h)
      by (rewrite Hpos; unfold len; cbn [length]; lia).
    now destruct h.
  - cbn [length Nat.add find_app1].
    destruct Hs as (m & lenb & payload & L & -> & Hm & HL & Hpay).
    destruct (struct_unpack_Ok _ _ _ _ HL) as [Hlenb _].
    pose proof (len_nonneg pre). pose proof (len_nonneg payload).
    assert (Hc1 : content h = pre ++ [xff; m]
                               ++ (lenb ++ payload ++ concat segs ++ rest)).
    { rewrite Hc. cbn [concat]. now rewrite <- !app_assoc. }
    unfold bind at 1. rewrite (f_read_middle _ _ _ 2 h Hc1 Hpos eq_refl).
    change (len [xff; m] <? 2) with false. cbn iota.
    assert (Hne : bytes_eqb [xff; m] APP1 = false).
    { apply bytes_eqb_neq. unfold APP1. congruence. }
    rewrite Hne.
    replace (py_slice [xff; m] 0 1) with [xff]
      by (symmetry; apply (py_slice_take_drop [xff; m] 0 1); lia).
    change (bytes_eqb [xff] [xff]) with true. cbn iota.
    set (h1 := mkHandle (content h) _ _).
    assert (Hc2 : content h1 = (pre ++ [xff; m]) ++ lenb
                                ++ (payload ++ concat segs ++ rest)).
    { subst h1. cbn [content]. rewrite Hc1. now rewrite <- !app_assoc. }
    unfold bind at 1.
    rewrite (f_read_middle _ _ _ 2 h1 Hc2 (eq_sym (len_app pre [xff; m])) (eq_sym Hlenb)).
    unfold bind at 1, lift at 1. rewrite HL.
    unfold bind at 1, f_seek_cur, f_seek. cbn [pos content trace].
    rewrite len_app. change (len [xff; m]) with 2.
    destruct (Z.ltb_spec (len pre + 2 + len lenb + (L - 2)) 0) as [|_]; [lia|].
    match goal with |- context [find_app1 _ ?hh] => set (h3 := hh) end.
    destruct (IH (pre ++ [xff; m] ++ lenb ++ payload) rest fuel h3) as (tr & Hfind).
    + subst h3 h1. cbn [content]. rewrite Hc. cbn [concat]. now rewrite <- !app_assoc.
    + subst h3 h1. cbn [pos]. rewrite !len_app. change (len [xff; m]) with 2. lia.
    + rewrite Hfind. subst h3 h1. cbn [content pos trace]. eexists.
      f_equal. f_equal.
      * cbn [concat]. rewrite !len_app. change (len [xff; m]) with 2. lia.
      * rewrite <- !app_assoc. reflexivity.
Qed.

Lemma find_app1_skips (segs : list bytes) :
  Forall other_segment segs ->
  forall (pre rest : bytes) (fuel : nat) (h : handle),
    content h = pre ++ concat segs ++ APP1 ++ rest ->
    pos h = len pre ->
    (length segs < fuel)%nat ->
    exists tr,
      find_app1 fuel h
      = (Ok true, mkHandle (content h) (len pre + len (concat segs) + 2) (trace h ++ tr)).
Proof.
  intros Hsegs pre rest fuel h Hc Hpos Hfuel.
  destruct (find_app1_skip segs Hsegs pre (APP1 ++ rest) (fuel - length segs) h Hc Hpos)
    as (tr & Hskip).
  replace (length segs + (fuel - length segs))%nat with fuel in Hskip by lia.
  rewrite Hskip. destruct (fuel - length segs)%nat as [|k] eqn:Hk; [lia|].
  cbn [find_app1]. unfold bind.
  set (h1 := mkHandle (content h) _ _).
  assert (Hc1 : content h1 = (pre ++ concat segs) ++ APP1 ++ rest).
  { subst h1. cbn [content]. rewrite Hc. now rewrite <- app_assoc. }
  rewrite (f_read_middle _ APP1 rest 2 h1 Hc1 (eq_sym (len_app _ _)) eq_refl).
  change (len APP1 <? 2) with false. change (bytes_eqb APP1 APP1) with true.
  cbn iota. unfold ret. subst h1. cbn [content trace]. eexists. f_equal. f_equal.
  - rewrite len_app. reflexivity.
  - rewrite <- app_assoc. reflexivity.
Qed.

(** ** Offsets are relative to the TIFF header *)

Lemma same_view_drop (ts ts' : Z) (h h' : handle) :
  same_view ts ts' h h' ->
  drop (Z.to_nat (pos h)) (content h) = drop (Z.to_nat (pos h')) (content h').
Proof.
  intros (Hts & Hts' & Hle & Hpos & Hdrop).
  replace (Z.to_nat (pos h)) with (Z.to_nat ts + Z.to_nat (pos h - ts))%nat by lia.
  replace (Z.to_nat (pos h')) with (Z.to_nat ts' + Z.to_nat (pos h - ts))%nat by lia.
  rewrite <- !drop_drop. now rewrite Hdrop.
Qed.

Lemma same_view_rebase (ts ts' t : Z) (h h' : handle) :
  same_view ts ts' h h' -> ts <= t -> t <= pos h ->
  same_view t (t - ts + ts') h h'.
Proof.
  intros (Hts & Hts' & Hle & Hpos & Hdrop) Ht Htp.
  repeat split; try lia.
  replace (Z.to_nat t) with (Z.to_nat ts + Z.to_nat (t - ts))%nat by lia.
  replace (Z.to_nat (t - ts + ts')) with (Z.to_nat ts' + Z.to_nat (t - ts))%nat by lia.
  rewrite <- !drop_drop. now rewrite Hdrop.
Qed.

Lemma view_read (ts ts' n : Z) (h h' : handle) :
  same_view ts ts' h h' ->
  exists d h1 h1',
    f_read n h = (Ok d, h1) /\ f_read n h' = (Ok d, h1') /\
    same_view ts ts' h1 h1' /\
    pos h1 = pos h + len d /\ pos h1' = pos h' + len d /\
    d = (if n <? 0 then drop (Z.to_nat (pos h)) (content h)
         else take (Z.to_nat n) (drop (Z.to_nat (pos h)) (content h))).
Proof.
  intros Hv. pose proof (same_view_drop _ _ _ _ Hv) as Hd.
  destruct Hv as (Hts & Hts' & Hle & Hpos & Hdrop).
  unfold f_read. rewrite <- Hd.
  eexists _, _, _. split; [reflexivity|]. split; [reflexivity|].
  cbn [pos content]. split; [|split; [reflexivity|split; reflexivity]].
  match goal with |- context [len ?d] => pose proof (len_nonneg d) end.
  unfold same_view. cbn [pos content]. repeat split; try lia. exact Hdrop.
Qed.

Lemma sim_ret {A} (ts ts' : Z) (a : A) : sim ts ts' (ret a) (ret a).
Proof. intros h h' Hv. now exists (Ok a), h, h'. Qed.

Lemma sim_lift {A} (ts ts' : Z) (o : outcome A) : sim ts ts' (lift o) (lift o).
Proof. intros h h' Hv. now exists o, h, h'. Qed.

Lemma sim_read (ts ts' n : Z) : sim ts ts' (f_read n) (f_read n).
Proof.
  intros h h' Hv. destruct (view_read ts ts' n h h' Hv) as (d & h1 & h1' & H1 & H2 & Hv1 & _).
  now exists (Ok d), h1, h1'.
Qed.

Lemma sim_seek (ts ts' offset : Z) :
  0 <= offset -> sim ts ts' (f_seek (ts + offset)) (f_seek (ts' + offset)).
Proof.
  intros Hoff h h' (Hts & Hts' & Hle & Hpos & Hdrop). unfold f_seek.
  destruct (Z.ltb_spec (ts + offset) 0) as [|_]; [lia|].
  destruct (Z.ltb_spec (ts' + offset) 0) as [|_]; [lia|].
  eexists _, _, _. split; [reflexivity|]. split; [reflexivity|].
  unfold same_view. cbn [pos content]. repeat split; try lia. exact Hdrop.
Qed.

Lemma sim_bind {A B} (ts ts' : Z) (m m' : M A) (k k' : A -> M B) :
  sim ts ts' m m' ->
  (forall a h h1, m h = (Ok a, h1) -> sim ts ts' (k a) (k' a)) ->
  sim ts ts' (bind m k) (bind m' k').
Proof.
  intros Hm Hk h h' Hv. destruct (Hm h h' Hv) as (o & h1 & h1' & E & E' & Hv1).
  unfold bind. rewrite E, E'. destruct o as [a|e|].
  - exact (Hk a h h1 E h1 h1' Hv1).
  - now exists (Raise e), h1, h1'.
  - now exists Diverge, h1, h1'.
Qed.

Lemma sim_unpack_bind {B} (ts ts' w : Z) (endian : endianness) (b : bytes)
    (k k' : Z -> M B) :
  (forall z, 0 <= z -> sim ts ts' (k z) (k' z)) ->
  sim ts ts' (bind (lift (struct_unpack w endian b)) k)
             (bind (lift (struct_unpack w endian b)) k').
Proof.
  intros Hk. apply sim_bind; [apply sim_lift|].
  intros z h h1 E. unfold lift in E. injection E as E _.
  apply Hk. now apply struct_unpack_Ok in E.
Qed.

Lemma sim_read_entries (ts ts' : Z) (endian : endianness) (n : nat) (entries : ifd) :
  sim ts ts' (read_entries endian n entries) (read_entries endian n entries).
Proof.
  revert entries; induction n as [|n IH]; intros entries; cbn [read_entries].
  - apply sim_ret.
  - unfold unpack_H, unpack_I.
    apply sim_bind; [apply sim_read | intros b1 _ _ _].
    apply sim_unpack_bind; intros tag _.
    apply sim_bind; [apply sim_read | intros b2 _ _ _].
    apply sim_unpack_bind; intros type_id _.
    apply sim_bind; [apply sim_read | intros b3 _ _ _].
    apply sim_unpack_bind; intros count _.
    apply sim_bind; [apply sim_read | intros raw _ _ _].
    apply IH.
Qed.

Lemma sim_read_ifd_entries (ts ts' : Z) (endian : endianness) (offset : Z) :
  0 <= offset ->
  sim ts ts' (read_ifd_entries ts endian offset) (read_ifd_entries ts' endian offset).
Proof.
  intros Hoff. unfold read_ifd_entries, unpack_H.
  apply sim_bind; [now apply sim_seek | intros [] _ _ _].
  apply sim_bind; [apply sim_read | intros b _ _ _].
  apply sim_unpack_bind; intros n _. apply sim_read_entries.
Qed.

Lemma sim_get_value (ts ts' : Z) (endian : endianness) (e : entry) :
  sim ts ts' (get_value ts endian e) (get_value ts' endian e).
Proof.
  intros h h' Hv. destruct e as [[type_id count] raw].
  destruct (Z.le_gt_cases (entry_size type_id count) 4) as [Hle|Hgt].
  { rewrite !get_value_inline by exact Hle. now exists (Ok raw), h, h'. }
  destruct (Z.eq_dec (len raw) 4) as [Hraw|Hraw].
  - pose proof Hv as (Hts & Hts' & Hle & Hpos & Hdrop).
    destruct (get_value_deref ts endian type_id count raw h)
      as (offset & Hoff & Hnn & ->); [lia..|].
    destruct (get_value_deref ts' endian type_id count raw h')
      as (offset' & Hoff' & _ & ->); [lia..|].
    assert (offset' = offset) as -> by congruence.
    eexists _, _, _. split; [reflexivity|]. split.
    + do 3 f_equal.
      replace (Z.to_nat (ts' + offset)) with (Z.to_nat ts' + Z.to_nat offset)%nat by lia.
      replace (Z.to_nat (ts + offset)) with (Z.to_nat ts + Z.to_nat offset)%nat by lia.
      rewrite <- !drop_drop. now rewrite Hdrop.
    + unfold same_view. cbn [pos content]. repeat split; try lia. exact Hdrop.
  - exists (Raise StructError), h, h'. unfold get_value.
    destruct (Z.leb_spec (entry_size type_id count) 4) as [|_]; [lia|].
    unfold bind, lift, unpack_I. rewrite struct_unpack_bad_len by exact Hraw.
    split; [reflexivity|]. split; [reflexivity | exact Hv].
Qed.

Lemma sim_reference (ts ts' : Z) (endian : endianness) (e : option entry)
    (refs : list bytes) (x : pynum) :
  sim ts ts'
    (match e with
     | Some e => let* v := get_value ts endian e in ret (apply_ref refs v x)
     | None => ret x
     end)
    (match e with
     | Some e => let* v := get_value ts' endian e in ret (apply_ref refs v x)
     | None => ret x
     end).
Proof.
  destruct e as [e|]; [|apply sim_ret].
  apply sim_bind; [apply sim_get_value | intros v _ _ _; apply sim_ret].
Qed.

Lemma sim_decode_gps (ts ts' : Z) (endian : endianness) (gps_ifd : ifd) :
  sim ts ts' (decode_gps ts endian gps_ifd) (decode_gps ts' endian gps_ifd).
Proof.
  unfold decode_gps.
  destruct (gps_ifd !! 2) as [lat_entry|]; [|apply sim_ret].
  destruct (gps_ifd !! 4) as [lon_entry|]; [|apply sim_ret].
  apply sim_bind; [apply sim_get_value | intros lat_data _ _ _].
  apply sim_bind; [apply sim_lift | intros lat _ _ _].
  apply sim_bind; [apply sim_reference | intros latitude _ _ _].
  apply sim_bind; [apply sim_get_value | intros lon_data _ _ _].
  apply sim_bind; [apply sim_lift | intros lon _ _ _].
  apply sim_bind; [apply sim_reference | intros longitude _ _ _].
  apply sim_ret.
Qed.

Lemma sim_decode_ifds (ts ts' : Z) (endian : endianness) (ifd_offset : Z) :
  0 <= ifd_offset ->
  sim ts ts' (decode_ifds ts endian ifd_offset) (decode_ifds ts' endian ifd_offset).
Proof.
  intros Hoff. unfold decode_ifds.
  apply sim_bind; [now apply sim_read_ifd_entries | intros ifd0 _ _ _].
  destruct (ifd0 !! 34853) as [[[type_id count] raw]|]; [|apply sim_ret].
  unfold unpack_I. apply sim_unpack_bind; intros gps_offset Hgps.
  apply sim_bind; [now apply sim_read_ifd_entries | intros gps_ifd _ _ _].
  apply sim_decode_gps.
Qed.

(** ** From the scanner to the TIFF header *)

Lemma find_app1_sound (fuel : nat) (h h' : handle) :
  0 <= pos h ->
  find_app1 fuel h = (Ok true, h') ->
  content h' = content h /\ pos h + 2 <= pos h' /\
  py_slice (content h) (pos h' - 2) (pos h') = APP1.
Proof.
  revert h; induction fuel as [|fuel IH]; intros h Hpos; [discriminate|].
  cbn [find_app1]. unfold bind at 1. rewrite f_read_at by lia.
  set (marker := take (Z.to_nat 2) (drop (Z.to_nat (pos h)) (content h))).
  assert (Hlen : len marker = Z.max 0 (Z.min 2 (len (content h) - pos h)))
    by (apply len_take_drop; lia).
  destruct (Z.ltb_spec (len marker) 2) as [|Hge]; [discriminate|].
  destruct (bytes_eqb marker APP1) eqn:Happ1.
  { intros [= <-]. cbn [content pos]. split; [reflexivity|]. split; [lia|].
    replace (pos h + len marker - 2) with (pos h) by lia.
    replace (pos h + len marker) with (pos h + 2) by lia.
    rewrite py_slice_take_drop by lia. now apply bytes_eqb_eq. }
  destruct (bytes_eqb (py_slice marker 0 1) [xff]); [|discriminate].
  unfold bind at 1. rewrite f_read_at by lia. cbn [pos content trace].
  set (b := take (Z.to_nat 2) _).
  unfold bind at 1, lift at 1.
  destruct (unpack_H Big b) as [L| |] eqn:HL; [|discriminate..].
  destruct (struct_unpack_Ok _ _ _ _ HL) as [Hb HLnn].
  unfold bind at 1, f_seek_cur, f_seek. cbn [pos content trace].
  destruct (Z.ltb_spec (pos h + len marker + len b + (L - 2)) 0) as [|_]; [discriminate|].
  intros Hfind. apply IH in Hfind; cbn [pos content] in *; [|lia].
  destruct Hfind as (Hc & Hp & Hs). split; [exact Hc|]. split; [lia | exact Hs].
Qed.

Lemma length_concat_segments (segs : list bytes) :
  Forall other_segment segs -> (length segs <= length (concat segs))%nat.
Proof.
  induction 1 as [|s segs (m & lenb & payload & L & -> & _) _ IH]; [reflexivity|].
  cbn [concat length]. rewrite length_app. cbn [app length]. lia.
Qed.

(** After the SOI check and the scan, the decoder is at the APP1 length. *)
Lemma jpeg_body_after_scan (segs : list bytes) (rest : bytes) (tr0 : list event) :
  Forall other_segment segs ->
  let c := SOI ++ concat segs ++ APP1 ++ rest in
  exists tr,
    jpeg_body (S (length c)) (mkHandle c 0 tr0)
    = bind read_tiff_header
        (fun tiff => match tiff with
                     | None => ret None
                     | Some (tiff_start, endian, ifd_offset) =>
                         decode_ifds tiff_start endian ifd_offset
                     end)
        (mkHandle c (2 + len (concat segs) + 2) tr).
Proof.
  intros Hsegs c. unfold jpeg_body, locate_tiff.
  unfold bind at 1 2.
  rewrite (f_read_middle [] SOI (concat segs ++ APP1 ++ rest) 2) by reflexivity.
  change (negb (bytes_eqb SOI SOI)) with false. cbn iota.
  unfold bind at 1.
  set (h1 := mkHandle _ _ _).
  destruct (find_app1_skips segs Hsegs SOI rest (S (length c)) h1) as (tr & ->).
  - reflexivity.
  - reflexivity.
  - pose proof (length_concat_segments segs Hsegs). subst c.
    rewrite !length_app. lia.
  - cbn iota. subst h1. cbn [content trace]. change (len SOI) with 2.
    eexists. reflexivity.
Qed.

Lemma outcome_of_read_jpeg (p : string) (c : bytes) :
  fst (read_jpeg_exif_gps (single_file p c) p)
  = match fst (jpeg_body (S (length c)) (mkHandle c 0 [EvOpen p])) with
    | Ok r => Ok r
    | Raise _ => Ok None
    | Diverge => Diverge
    end.
Proof.
  unfold read_jpeg_exif_gps, single_file. rewrite String.eqb_refl.
  now destruct (jpeg_body _ _) as [[r|e|] h].
Qed.

(** A file in which the segments are not followed by a marker - it ends, or
    goes on with a byte other than FF - has no APP1 segment for the decoder:
    the result is None. *)
Theorem read_jpeg_exif_gps_no_app1 (p : string) (segs : list bytes) (rest : bytes) :
  Forall other_segment segs ->
  len rest < 2 \/ (exists b0 b1 r, rest = b0 :: b1 :: r /\ b0 <> xff) ->
  fst (read_jpeg_exif_gps (single_file p (SOI ++ concat segs ++ rest)) p) = Ok None.
Proof.
  intros Hsegs Hrest. rewrite outcome_of_read_jpeg.
  set (c := SOI ++ concat segs ++ rest).
  unfold jpeg_body, locate_tiff. unfold bind at 1 2.
  rewrite (f_read_middle [] SOI (concat segs ++ rest) 2) by reflexivity.
  change (negb (bytes_eqb SOI SOI)) with false. cbn iota.
  unfold bind at 1. set (h1 := mkHandle _ _ _).
  pose proof (length_concat_segments segs Hsegs) as Hlen.
  destruct (find_app1_skip segs Hsegs SOI rest (S (length c) - length segs) h1)
    as (tr & Hskip); [reflexivity | reflexivity |].
  replace (length segs + (S (length c) - length segs))%nat with (S (length c)) in Hskip
    by (subst c; rewrite !length_app; lia).
  rewrite Hskip. clear Hskip.
  destruct (S (length c) - length segs)%nat as [|k] eqn:Hk;
    [subst c; rewrite !length_app in Hk; lia|].
  cbn [find_app1]. unfold bind at 1. rewrite f_read_at by lia.
  cbn [pos content trace]. subst h1. cbn [content].
  replace (Z.to_nat (len SOI + len (concat segs))) with (length (SOI ++ concat segs))
    by (rewrite length_app; unfold len; lia).
  subst c. rewrite (app_assoc SOI), drop_app_length.
  destruct Hrest as [Hshort|(b0 & b1 & r & -> & Hb0)].
  - assert (Hm : len (take (Z.to_nat 2) rest) < 2).
    { unfold len in *. rewrite length_take. lia. }
    destruct (Z.ltb_spec (len (take (Z.to_nat 2) rest)) 2) as [_|]; [reflexivity | lia].
  - change (take (Z.to_nat 2) (b0 :: b1 :: r)) with [b0; b1].
    change (len [b0; b1] <? 2) with false. cbn iota.
    assert (H1 : bytes_eqb [b0; b1] APP1 = false).
    { apply bytes_eqb_neq. unfold APP1. congruence. }
    rewrite H1.
    replace (py_slice [b0; b1] 0 1) with [b0]
      by (symmetry; apply (py_slice_take_drop [b0; b1] 0 1); lia).
    assert (H2 : bytes_eqb [b0] [xff] = false).
    { apply bytes_eqb_neq. congruence. }
    rewrite H2. reflexivity.
Qed.

Lemma tiff_stage_view (pre pre' lenb lenb' tail : bytes) (h h' : handle) :
  content h = pre ++ lenb ++ tail -> pos h = len pre -> len lenb = 2 ->
  content h' = pre' ++ lenb' ++ tail -> pos h' = len pre' -> len lenb' = 2 ->
  let K := fun tiff : option (Z * endianness * Z) =>
             match tiff with
             | None => ret None
             | Some (tiff_start, endian, ifd_offset) =>
                 decode_ifds tiff_start endian ifd_offset
             end in
  fst (bind read_tiff_header K h) = fst (bind read_tiff_header K h').
Proof.
  intros Hc Hpos Hlenb Hc' Hpos' Hlenb' K.
  unfold read_tiff_header, bind, lift, f_tell, unpack_H.
  rewrite (f_read_middle pre lenb tail 2 h Hc Hpos (eq_sym Hlenb)).
  rewrite (f_read_middle pre' lenb' tail 2 h' Hc' Hpos' (eq_sym Hlenb')).
  destruct (struct_unpack_len 2 Big lenb Hlenb) as (L & -> & _).
  destruct (struct_unpack_len 2 Big lenb' Hlenb') as (L' & -> & _).
  set (ha := mkHandle (content h) _ _). set (ha' := mkHandle (content h') _ _).
  pose proof (len_nonneg pre) as Hpre. pose proof (len_nonneg pre') as Hpre'.
  assert (Hv : same_view (len pre + 2) (len pre' + 2) ha ha').
  { subst ha ha'. unfold same_view. cbn [pos content]. repeat split; try lia.
    rewrite Hc, Hc'. rewrite !app_assoc.
    replace (Z.to_nat (len pre + 2)) with (length (pre ++ lenb))
      by (rewrite length_app; unfold len in *; lia).
    replace (Z.to_nat (len pre' + 2)) with (length (pre' ++ lenb'))
      by (rewrite length_app; unfold len in *; lia).
    now rewrite !drop_app_length. }
  destruct (view_read _ _ 6 ha ha' Hv)
    as (sig & hb & hb' & -> & -> & Hvb & Hpb & Hpb' & Hsig).
  destruct (negb (bytes_eqb sig EXIF)) eqn:Hexif; [reflexivity|].
  assert (Hsig6 : len sig = 6).
  { apply negb_false_iff, bytes_eqb_eq in Hexif. now rewrite Hexif. }
  destruct (view_read _ _ 8 hb hb' Hvb)
    as (hdr & hc & hc' & -> & -> & Hvc & Hpc & Hpc' & _).
  destruct (byte_order hdr) as [endian|]; [|reflexivity].
  destruct (unpack_I endian (py_slice hdr 4 8)) as [off| |] eqn:Hoff; [|reflexivity..].
  apply struct_unpack_Ok in Hoff as [_ Hoff].
  unfold ret at 1 2. subst K. cbn iota beta.
  assert (Hvd : same_view (pos hb) (pos hb') hc hc').
  { replace (pos hb') with (pos hb - (len pre + 2) + (len pre' + 2))
      by (subst ha ha'; cbn [pos] in *; lia).
    apply same_view_rebase; [exact Hvc | |].
    - subst ha; cbn [pos] in *; lia.
    - pose proof (len_nonneg hdr). lia. }
  destruct (sim_decode_ifds (pos hb) (pos hb') endian off Hoff hc hc' Hvd)
    as (o & h1 & h1' & -> & -> & _).
  reflexivity.
Qed.

(** The scanner walks over any run of well-formed segments that are not
    APP1 and stops right after the first APP1 marker; the fuel the decoder
    gives it is enough. *)
Theorem find_app1_reaches_app1 (segs : list bytes) (pre rest : bytes) (h : handle) :
  Forall other_segment segs ->
  content h = pre ++ concat segs ++ APP1 ++ rest ->
  pos h = len pre ->
  exists h',
    find_app1 (S (length (content h))) h = (Ok true, h') /\
    content h' = content h /\
    pos h' = len pre + len (concat segs) + 2.
Proof.
  intros Hsegs Hc Hpos.
  destruct (find_app1_skips segs Hsegs pre rest (S (length (content h))) h Hc Hpos)
    as (tr & Hfind).
  - pose proof (length_concat_segments segs Hsegs). rewrite Hc, !length_app. lia.
  - eexists. split; [exact Hfind|]. split; reflexivity.
Qed.

(** The result of the directory stage depends on the file only through the
    bytes from the TIFF header on: two files that agree from their TIFF
    headers on give the same result, wherever the header lies in each. *)
Theorem decode_ifds_relative (ts ts' : Z) (endian : endianness) (ifd_offset : Z)
    (h h' : handle) :
  same_view ts ts' h h' -> 0 <= ifd_offset ->
  fst (decode_ifds ts endian ifd_offset h) = fst (decode_ifds ts' endian ifd_offset h').
Proof.
  intros Hv Hoff.
  destruct (sim_decode_ifds ts ts' endian ifd_offset Hoff h h' Hv)
    as (o & h1 & h1' & -> & -> & _).
  reflexivity.
Qed.

(** Segments before the first APP1 segment and the length field of the APP1
    segment have no influence on the result: the file decodes as the file
    without these segments and with any other length field does. *)
Theorem read_jpeg_exif_gps_skips_segments (p : string) (segs : list bytes)
    (lenb lenb' tail : bytes) :
  Forall other_segment segs -> len lenb = 2 -> len lenb' = 2 ->
  fst (read_jpeg_exif_gps
         (single_file p (SOI ++ concat segs ++ APP1 ++ lenb ++ tail)) p)
  = fst (read_jpeg_exif_gps (single_file p (SOI ++ APP1 ++ lenb' ++ tail)) p).
Proof.
  intros Hsegs Hlenb Hlenb'. rewrite !outcome_of_read_jpeg.
  destruct (jpeg_body_after_scan segs (lenb ++ tail) [EvOpen p] Hsegs) as (tr & ->).
  destruct (jpeg_body_after_scan [] (lenb' ++ tail) [EvOpen p] (List.Forall_nil _)) as (tr' & E).
  change (SOI ++ APP1 ++ lenb' ++ tail)
    with (SOI ++ concat [] ++ APP1 ++ lenb' ++ tail). rewrite E. clear E.
  rewrite (tiff_stage_view (SOI ++ concat segs ++ APP1) (SOI ++ APP1) lenb lenb' tail
             (mkHandle (SOI ++ concat segs ++ APP1 ++ lenb ++ tail)
                       (2 + len (concat segs) + 2) tr)
             (mkHandle (SOI ++ concat [] ++ APP1 ++ lenb' ++ tail)
                       (2 + len (concat (@nil bytes)) + 2) tr'));
    [reflexivity | | | exact Hlenb | | | exact Hlenb'].
  - cbn [content]. now rewrite <- !app_assoc.
  - cbn [pos]. rewrite !len_app. change (len SOI) with 2. change (len APP1) with 2. lia.
  - reflexivity.
  - reflexivity.
Qed.

(** The first APP1 segment is the only one looked at: when it does not
    start with "Exif\0\0" the result is None, whatever follows it. *)
Theorem read_jpeg_exif_gps_first_app1_not_exif (p : string) (segs : list bytes)
    (lenb sig rest : bytes) :
  Forall other_segment segs -> len lenb = 2 -> len sig = 6 -> sig <> EXIF ->
  fst (read_jpeg_exif_gps
         (single_file p (SOI ++ concat segs ++ APP1 ++ lenb ++ sig ++ rest)) p)
  = Ok None.
Proof.
  intros Hsegs Hlenb Hsig Hne. rewrite outcome_of_read_jpeg.
  destruct (jpeg_body_after_scan segs (lenb ++ sig ++ rest) [EvOpen p] Hsegs) as (tr & ->).
  set (c := SOI ++ concat segs ++ APP1 ++ lenb ++ sig ++ rest).
  set (h := mkHandle c _ tr).
  assert (Hc : content h = (SOI ++ concat segs ++ APP1) ++ lenb ++ (sig ++ rest)).
  { subst h c. cbn [content]. now rewrite <- !app_assoc. }
  assert (Hpos : pos h = len (SOI ++ concat segs ++ APP1)).
  { subst h. cbn [pos]. rewrite !len_app. change (len SOI) with 2.
    change (len APP1) with 2. lia. }
  unfold read_tiff_header, bind, lift, unpack_H.
  rewrite (f_read_middle _ lenb _ 2 h Hc Hpos (eq_sym Hlenb)).
  destruct (struct_unpack_len 2 Big lenb Hlenb) as (L & -> & _).
  set (h1 := mkHandle (content h) _ _).
  assert (Hc1 : content h1 = ((SOI ++ concat segs ++ APP1) ++ lenb) ++ sig ++ rest).
  { subst h1. cbn [content]. rewrite Hc. now rewrite <- !app_assoc. }
  rewrite (f_read_middle _ sig rest 6 h1 Hc1 (eq_sym (len_app _ lenb)) (eq_sym Hsig)).
  apply bytes_eqb_neq in Hne. rewrite Hne. reflexivity.
Qed.

(** ** The directory reader *)

Lemma struct_unpack_field (w : Z) (endian : endianness) (c : bytes) (p : Z) :
  0 <= p -> 0 <= w -> p + w <= len c ->
  struct_unpack w endian (take (Z.to_nat w) (drop (Z.to_nat p) c))
  = Ok (field endian c p w).
Proof.
  intros Hp Hw Hlen. unfold struct_unpack, field.
  rewrite py_slice_take_drop by lia.
  rewrite len_take_drop by lia.
  destruct (Z.eqb_spec (Z.max 0 (Z.min w (len c - p))) w) as [_|]; [|lia].
  now destruct endian.
Qed.

(** Reading a field of [w] bytes that the file has. *)
Lemma read_field {B} (w : Z) (endian : endianness) (k : Z -> M B) (h : handle) :
  0 <= pos h -> 0 <= w -> pos h + w <= len (content h) ->
  bind (f_read w) (fun b => bind (lift (struct_unpack w endian b)) k) h
  = k (field endian (content h) (pos h) w)
      (mkHandle (content h) (pos h + w) (trace h ++ [EvRead (pos h) w])).
Proof.
  intros Hp Hw Hlen. unfold bind at 1. rewrite f_read_at by lia.
  unfold bind, lift. rewrite struct_unpack_field by lia.
  rewrite len_take_drop by lia. do 2 f_equal. lia.
Qed.

(** Reading a field of [w] bytes that the file does not have in full. *)
Lemma read_field_short {B} (w : Z) (endian : endianness) (k : Z -> M B) (h : handle) :
  0 <= pos h -> 0 < w -> len (content h) < pos h + w ->
  exists h',
    bind (f_read w) (fun b => bind (lift (struct_unpack w endian b)) k) h
    = (Raise StructError, h').
Proof.
  intros Hp Hw Hlen. unfold bind at 1. rewrite f_read_at by lia.
  unfold bind, lift. rewrite struct_unpack_bad_len; [eexists; reflexivity|].
  rewrite len_take_drop by lia. lia.
Qed.

Lemma read_entries_complete (endian : endianness) (n : nat) :
  forall (entries : ifd) (h : handle),
    0 <= pos h -> pos h + 12 * Z.of_nat n <= len (content h) ->
    exists tr,
      read_entries endian n entries h
      = (Ok (fold_left store_entry (entries_at endian (content h) (pos h) n) entries),
         mkHandle (content h) (pos h + 12 * Z.of_nat n) (trace h ++ tr)).
Proof.
  induction n as [|n IH]; intros entries h Hpos Hlen.
  - exists []. cbn [read_entries entries_at fold_left]. unfold ret.
    rewrite app_nil_r. replace (pos h + 12 * Z.of_nat 0) with (pos h) by lia.
    now destruct h.
  - cbn [read_entries entries_at fold_left]. unfold unpack_H, unpack_I.
    rewrite read_field by lia.
    rewrite read_field by (cbn [pos content]; lia).
    rewrite read_field by (cbn [pos content]; lia).
    cbn [pos content trace]. unfold bind at 1. rewrite f_read_at by lia.
    cbn [pos content trace].
    match goal with |- context [read_entries endian n ?m ?hh] =>
      destruct (IH m hh) as (tr & ->) end.
    + cbn [pos]. pose proof (len_nonneg (take (Z.to_nat 4)
        (drop (Z.to_nat (pos h + 2 + 2 + 4)) (content h)))). lia.
    + cbn [pos content]. rewrite len_take_drop by lia. lia.
    + cbn [pos content trace]. rewrite len_take_drop by lia. eexists.
      replace (0 `max` (4 `min` (len (content h) - (pos h + 2 + 2 + 4)))) with 4 by lia.
      f_equal.
      * f_equal.
        replace (pos h + 2 + 2 + 4 + 4) with (pos h + 12) by lia.
        f_equal. unfold store_entry, entry_at. cbn [fst snd].
        replace (pos h + 8) with (pos h + 2 + 2 + 4) by lia.
        replace (pos h + 12) with (pos h + 2 + 2 + 4 + 4) by lia.
        rewrite py_slice_take_drop by lia.
        replace (pos h + 4) with (pos h + 2 + 2) by lia. reflexivity.
      * f_equal; [lia|]. rewrite <- !app_assoc. reflexivity.
Qed.

Lemma fold_store_entry (l : list (Z * entry)) (m : ifd) :
  fold_left store_entry l m = list_to_map (rev l) ∪ m.
Proof.
  revert m; induction l as [|[t e] l IH] using rev_ind; intros m.
  - cbn. now rewrite (left_id_L ∅ (∪)).
  - rewrite fold_left_app, rev_app_distr. cbn [fold_left rev app list_to_map foldr].
    rewrite IH. unfold store_entry. cbn [fst snd].
    now rewrite insert_union_l.
Qed.

Lemma elem_of_tags_rev (l : list (Z * entry)) (t : Z) :
  t ∈ (rev l).*1 <-> t ∈ l.*1.
Proof.
  induction l as [|x l IH]; [reflexivity|].
  cbn [rev]. rewrite fmap_app, elem_of_app, IH.
  rewrite !fmap_cons, fmap_nil, !elem_of_cons, elem_of_nil. tauto.
Qed.

(** Later entries overwrite earlier ones with the same tag. *)
Lemma fold_store_entry_last (l1 l2 : list (Z * entry)) (t : Z) (e : entry) :
  t ∉ l2.*1 ->
  fold_left store_entry (l1 ++ (t, e) :: l2) ∅ !! t = Some e.
Proof.
  intros Hnot. rewrite fold_store_entry, (right_id_L ∅ (∪)).
  rewrite rev_app_distr. cbn [rev]. rewrite <- app_assoc. cbn [app].
  rewrite list_to_map_app. rewrite lookup_union_r.
  - cbn [list_to_map foldr]. apply lookup_insert_eq.
  - apply not_elem_of_list_to_map_1. intros H. apply Hnot. now apply elem_of_tags_rev.
Qed.

Lemma fold_store_entry_none (l : list (Z * entry)) (t : Z) :
  fold_left store_entry l ∅ !! t = None <-> t ∉ l.*1.
Proof.
  rewrite fold_store_entry, (right_id_L ∅ (∪)).
  rewrite <- not_elem_of_list_to_map.
  split; intros H H'; apply H; now apply elem_of_tags_rev.
Qed.

(** A directory that the file holds in full is read in full: the reader
    returns with the cursor behind the last entry, the dictionary has the
    tags of the entries and no others, and of several entries with one tag
    it keeps the last. *)
Theorem read_ifd_entries_complete (tiff_start : Z) (endian : endianness)
    (offset : Z) (h : handle) :
  let c := content h in
  let p := tiff_start + offset in
  let n := field endian c p 2 in
  let l := entries_at endian c (p + 2) (Z.to_nat n) in
  0 <= p -> p + 2 + 12 * n <= len c ->
  exists (entries : ifd) (h' : handle),
    read_ifd_entries tiff_start endian offset h = (Ok entries, h') /\
    content h' = c /\ pos h' = p + 2 + 12 * n /\
    (forall t, entries !! t = None <-> t ∉ l.*1) /\
    (forall l1 l2 t e, l = l1 ++ (t, e) :: l2 -> t ∉ l2.*1 -> entries !! t = Some e).
Proof.
  intros c p n l Hp Hlen.
  assert (Hn : 0 <= n).
  { subst n. unfold field. destruct endian; apply be_value_nonneg. }
  unfold read_ifd_entries, unpack_H.
  unfold bind at 1, f_seek. destruct (Z.ltb_spec (tiff_start + offset) 0) as [|_]; [lia|].
  rewrite read_field by (cbn [pos content]; fold c p; lia).
  cbn [pos content trace]. fold c p n.
  match goal with |- context [read_entries endian _ ∅ ?hh] =>
    destruct (read_entries_complete endian (Z.to_nat n) ∅ hh) as (tr & ->) end.
  - cbn [pos]. lia.
  - cbn [pos content]. fold c. lia.
  - cbn [pos content trace]. fold c l. eexists _, _. split; [reflexivity|].
    cbn [pos content]. split; [reflexivity|]. split; [lia|]. split.
    + intros t. apply fold_store_entry_none.
    + intros l1 l2 t e -> Hnot. now apply fold_store_entry_last.
Qed.

Lemma read_entries_truncated (endian : endianness) (n : nat) :
  forall (entries : ifd) (h : handle),
    0 <= pos h -> (1 <= n)%nat ->
    len (content h) - pos h < 12 * (Z.of_nat n - 1) + 8 ->
    exists h', read_entries endian n entries h = (Raise StructError, h').
Proof.
  induction n as [|n IH]; intros entries h Hpos Hn Hlen; [lia|].
  cbn [read_entries]. unfold unpack_H, unpack_I.
  destruct (Z.lt_ge_cases (len (content h) - pos h) 2) as [H2|H2].
  { apply read_field_short; lia. }
  rewrite read_field by lia.
  destruct (Z.lt_ge_cases (len (content h) - pos h) 4) as [H4|H4].
  { apply read_field_short; cbn [pos content]; lia. }
  rewrite read_field by (cbn [pos content]; lia).
  destruct (Z.lt_ge_cases (len (content h) - pos h) 8) as [H8|H8].
  { apply read_field_short; cbn [pos content]; lia. }
  rewrite read_field by (cbn [pos content]; lia).
  cbn [pos content trace]. unfold bind at 1. rewrite f_read_at by lia.
  cbn [pos content trace].
  apply IH; cbn [pos content]; rewrite ?len_take_drop by lia; lia.
Qed.

(** A directory that the file does not hold is an error: when the file ends
    before the entry count, or before the count field of the last entry
    that the count announces, the reader raises struct.error. *)
Theorem read_ifd_entries_truncated (tiff_start : Z) (endian : endianness)
    (offset : Z) (h : handle) :
  let c := content h in
  let p := tiff_start + offset in
  0 <= p ->
  len c < p + 2 \/
  (1 <= field endian c p 2 /\ len c < p + 2 + 12 * field endian c p 2 - 4) ->
  exists h', read_ifd_entries tiff_start endian offset h = (Raise StructError, h').
Proof.
  intros c p Hp Hshort. unfold read_ifd_entries, unpack_H.
  unfold bind at 1, f_seek. destruct (Z.ltb_spec (tiff_start + offset) 0) as [|_]; [lia|].
  destruct (Z.lt_ge_cases (len c) (p + 2)) as [Hc|Hc].
  { apply read_field_short; cbn [pos content]; fold c p; lia. }
  destruct Hshort as [|[Hn Hlen]]; [lia|].
  rewrite read_field by (cbn [pos content]; fold c p; lia).
  cbn [pos content trace]. fold c p.
  apply read_entries_truncated; cbn [pos content]; fold c; lia.
Qed.

Lemma struct_unpack_range (w : Z) (endian : endianness) (b : bytes) (z : Z) :
  struct_unpack w endian b = Ok z -> 0 <= z < 256 ^ w.
Proof.
  unfold struct_unpack. destruct (Z.eqb_spec (len b) w) as [Hlen|]; [|discriminate].
  intros [= <-].
  assert (Hbe : forall b', len b' = w -> 0 <= be_value b' < 256 ^ w).
  { intros b' Hb'. split; [apply be_value_nonneg|].
    unfold be_value. pose proof (be_value_from_bound b' 0) as H.
    rewrite Hb' in H. lia. }
  destruct endian; [|now apply Hbe].
  apply Hbe. unfold len in *. now rewrite length_rev.
Qed.

Lemma read_entries_in_range (endian : endianness) (n : nat) :
  forall (entries entries' : ifd) (h h' : handle),
    map_Forall entry_in_range entries ->
    read_entries endian n entries h = (Ok entries', h') ->
    map_Forall entry_in_range entries'.
Proof.
  induction n as [|n IH]; intros entries entries' h h' Hinv; cbn [read_entries].
  - intros [= <- _]. exact Hinv.
  - unfold unpack_H, unpack_I.
    intros (b1 & h1 & _ & H)%bind_Ok.
    apply bind_Ok in H as (tag & h2 & Htag & H).
    apply bind_Ok in H as (b2 & h3 & _ & H).
    apply bind_Ok in H as (type_id & h4 & Htype & H).
    apply bind_Ok in H as (b3 & h5 & _ & H).
    apply bind_Ok in H as (count & h6 & Hcount & H).
    apply bind_Ok in H as (raw & h7 & Hraw & H).
    unfold lift in Htag, Htype, Hcount.
    injection Htag as Htag%struct_unpack_range _.
    injection Htype as Htype%struct_unpack_range _.
    injection Hcount as Hcount%struct_unpack_range _.
    unfold f_read in Hraw. change (4 <? 0) with false in Hraw. cbn iota in Hraw.
    injection Hraw as Hraw _.
    refine (IH _ _ _ _ _ H).
    apply map_Forall_insert_2; [|exact Hinv].
    change (256 ^ 2) with 65536 in *. change (256 ^ 4) with (2 ^ 32) in *.
    unfold entry_in_range. cbn [fst snd]. repeat split; try lia.
    rewrite <- Hraw. unfold len. rewrite length_take. lia.
Qed.

(** Every entry of a directory that was read keeps to the fields of the
    format: tag and type are 16-bit values, the count is a 32-bit value and
    not negative, and the raw field has at most 4 bytes. *)
Theorem read_ifd_entries_in_range (tiff_start : Z) (endian : endianness)
    (offset : Z) (h h' : handle) (entries : ifd) :
  read_ifd_entries tiff_start endian offset h = (Ok entries, h') ->
  forall tag e, entries !! tag = Some e -> entry_in_range tag e.
Proof.
  unfold read_ifd_entries, unpack_H.
  intros ([] & h1 & _ & H)%bind_Ok.
  apply bind_Ok in H as (b & h2 & _ & H).
  apply bind_Ok in H as (n & h3 & _ & H).
  apply read_entries_in_range in H; [exact H|]. apply map_Forall_empty.
Qed.

(** ** GIMP path detection *)

Lemma first_existing_spec (path_exists : string -> bool) (l : list string) :
  (first_existing path_exists l = "gimp"%string /\
   forall q, q ∈ l -> path_exists q = false) \/
  (exists l1 l2,
     l = l1 ++ first_existing path_exists l :: l2 /\
     path_exists (first_existing path_exists l) = true /\
     forall q, q ∈ l1 -> path_exists q = false).
Proof.
  induction l as [|p l IH]; cbn [first_existing].
  - left. split; [reflexivity|]. intros q Hq. now apply elem_of_nil in Hq.
  - destruct (path_exists p) eqn:Hp.
    + right. exists [], l. split; [reflexivity|]. split; [exact Hp|].
      intros q Hq. now apply elem_of_nil in Hq.
    + destruct IH as [[Hg Hall]|(l1 & l2 & Hl & Hex & Hall)].
      * left. split; [exact Hg|]. intros q [->|Hq]%elem_of_cons; auto.
      * right. exists (p :: l1), l2. split; [cbn; now rewrite <- Hl|].
        split; [exact Hex|]. intros q [->|Hq]%elem_of_cons; auto.
Qed.

(** The detected GIMP path is the first candidate of the system that
    exists, in the order of the list; it is "gimp" when none exists, and on
    every system other than Windows and Darwin. *)
Theorem get_default_gimp_path_first_existing (system : string)
    (expandvars : string -> string) (path_exists : string -> bool) :
  let result := get_default_gimp_path system expandvars path_exists in
  let candidates := candidate_paths system expandvars in
  ((result = "gimp"%string /\ forall q, q ∈ candidates -> path_exists q = false) \/
   (exists l1 l2,
      candidates = l1 ++ result :: l2 /\ path_exists result = true /\
      forall q, q ∈ l1 -> path_exists q = false)) /\
  (system <> "Windows"%string -> system <> "Darwin"%string -> result = "gimp"%string).
Proof.
  intros result candidates. subst result candidates.
  unfold get_default_gimp_path, candidate_paths. split.
  - destruct (String.eqb system "Windows"); [apply first_existing_spec|].
    destruct (String.eqb system "Darwin"); [apply first_existing_spec|].
    left. split; [reflexivity|]. intros q Hq. now apply elem_of_nil in Hq.
  - intros Hw Hd. apply String.eqb_neq in Hw, Hd. now rewrite Hw, Hd.
Qed.

(** ** The file of a strip *)

Lemma py_index_in_range {A} (l : list A) (i : Z) :
  0 <= i < len l ->
  exists x, l !! Z.to_nat i = Some x /\ py_index l i = Returns x.
Proof.
  intros Hi. unfold py_index.
  destruct (Z.ltb_spec i 0) as [|_]; [lia|].
  destruct (Z.leb_spec 0 i) as [_|]; [|lia].
  destruct (Z.ltb_spec i (len l)) as [_|]; [|lia]. cbn [andb].
  destruct (l !! Z.to_nat i) as [x|] eqn:E; [now exists x|].
  apply lookup_ge_None in E. unfold len in Hi. lia.
Qed.

(** The file name that [get_strip_filepath] picks for an image strip. *)
Lemma strip_filename (s : strip) (frame_current : Z) :
  s_elements s <> [] ->
  exists filename,
    s_elements s
      !! Z.to_nat (Z.max 0 (Z.min (frame_current - s_frame_final_start s)
                                  (len (s_elements s) - 1)))
    = Some filename /\
    (if len (s_elements s) =? 1 then py_index (s_elements s) 0
     else py_index (s_elements s)
            (Z.max 0 (Z.min (frame_current - s_frame_final_start s)
                            (len (s_elements s) - 1))))
    = Returns filename.
Proof.
  intros Hne.
  assert (Hlen : 1 <= len (s_elements s)).
  { destruct (s_elements s); [easy|]. unfold len. cbn [length]. lia. }
  destruct (Z.eqb_spec (len (s_elements s)) 1) as [H1|H1].
  - rewrite H1.
    replace (Z.max 0 (Z.min (frame_current - s_frame_final_start s) (1 - 1))) with 0 by lia.
    apply py_index_in_range. lia.
  - apply py_index_in_range. lia.
Qed.

Lemma get_strip_filepath_image (abspath : string -> string)
    (join : string -> string -> string) (s : strip) (frame_current : Z) :
  s_type s = "IMAGE"%string -> s_elements s <> [] ->
  exists filename,
    s_elements s
      !! Z.to_nat (Z.max 0 (Z.min (frame_current - s_frame_final_start s)
                                  (len (s_elements s) - 1)))
    = Some filename /\
    get_strip_filepath abspath join s frame_current
    = Returns (Some (join (abspath (s_directory s)) filename)).
Proof.
  intros Htype Hne. unfold get_strip_filepath.
  rewrite Htype. cbn [String.eqb Ascii.eqb Bool.eqb].
  destruct (strip_filename s frame_current Hne) as (f & Hf & Hidx).
  exists f. split; [exact Hf|].
  destruct (s_elements s) as [|x l] eqn:E; [easy|].
  rewrite <- E in *. now rewrite Hidx.
Qed.

(** [get_strip_filepath] never raises: the index it computes lies within
    the elements. For an image strip with elements the result is the
    directory joined with the file name at the offset of the current frame
    from the start of the strip, held to the first element before the strip
    and to the last one after it. *)
Theorem get_strip_filepath_clamped (abspath : string -> string)
    (join : string -> string -> string) (s : strip) (frame_current : Z) :
  (exists r, get_strip_filepath abspath join s frame_current = Returns r) /\
  (s_type s = "IMAGE"%string -> s_elements s <> [] ->
   exists filename,
     s_elements s
       !! Z.to_nat (Z.max 0 (Z.min (frame_current - s_frame_final_start s)
                                   (len (s_elements s) - 1)))
     = Some filename /\
     get_strip_filepath abspath join s frame_current
     = Returns (Some (join (abspath (s_directory s)) filename)) /\
     (frame_current <= s_frame_final_start s -> head (s_elements s) = Some filename) /\
     (len (s_elements s) - 1 <= frame_current - s_frame_final_start s ->
      last (s_elements s) = Some filename)).
Proof.
  split.
  - destruct (String.eqb_spec (s_type s) "IMAGE") as [Htype|Htype].
    + destruct (s_elements s) as [|x l] eqn:E.
      * unfold get_strip_filepath. rewrite Htype, E. now eexists.
      * destruct (get_strip_filepath_image abspath join s frame_current Htype)
          as (f & _ & ->); [now rewrite E | now eexists].
    + unfold get_strip_filepath. apply String.eqb_neq in Htype. rewrite Htype.
      destruct (String.eqb (s_type s) "MOVIE"); now eexists.
  - intros Htype Hne.
    destruct (get_strip_filepath_image abspath join s frame_current Htype Hne)
      as (f & Hf & Hget).
    exists f. split; [exact Hf|]. split; [exact Hget|].
    assert (Hlen : 1 <= len (s_elements s)).
    { destruct (s_elements s); [easy|]. unfold len. cbn [length]. lia. }
    split; intros Hfc.
    + replace (Z.max 0 _) with 0 in Hf by lia.
      destruct (s_elements s); [easy | exact Hf].
    + replace (Z.max 0 _) with (len (s_elements s) - 1) in Hf by lia.
      rewrite last_lookup. rewrite <- Hf. f_equal. unfold len in *. lia.
Qed.

(** The file of a strip is undetermined (None) exactly for an image strip
    without elements and for a strip that is neither an image nor a movie. *)
Theorem get_strip_filepath_none (abspath : string -> string)
    (join : string -> string -> string) (s : strip) (frame_current : Z) :
  get_strip_filepath abspath join s frame_current = Returns None <->
  (s_type s = "IMAGE"%string /\ s_elements s = []) \/
  (s_type s <> "IMAGE"%string /\ s_type s <> "MOVIE"%string).
Proof.
  destruct (String.eqb_spec (s_type s) "IMAGE") as [Htype|Htype].
  - destruct (s_elements s) as [|x l] eqn:E.
    + unfold get_strip_filepath. rewrite Htype, E. cbn [String.eqb Ascii.eqb Bool.eqb].
      split; [intros _; now left | reflexivity].
    + destruct (get_strip_filepath_image abspath join s frame_current Htype)
        as (f & _ & ->); [now rewrite E|].
      split; [discriminate|]. intros [[_ H]|[H _]]; [discriminate | easy].
  - unfold get_strip_filepath. pose proof Htype as Hb. apply String.eqb_neq in Hb.
    rewrite Hb. destruct (String.eqb_spec (s_type s) "MOVIE") as [Hm|Hm].
    + split; [discriminate|]. intros [[H _]|[_ H]]; easy.
    + split; [intros _; now right | reflexivity].
Qed.

(** ** The operators *)

Lemma get_strip_filepath_returns (abspath : string -> string)
    (join : string -> string -> string) (s : strip) (fc : Z) :
  exists r, get_strip_filepath abspath join s fc = Returns r.
Proof.
  destruct (String.eqb_spec (s_type s) "IMAGE") as [Htype|Htype].
  - destruct (s_elements s) as [|x l] eqn:E.
    + unfold get_strip_filepath. rewrite Htype, E. now eexists.
    + destruct (get_strip_filepath_image abspath join s fc Htype)
        as (f & _ & ->); [now rewrite E | now eexists].
  - unfold get_strip_filepath. apply String.eqb_neq in Htype. rewrite Htype.
    destruct (String.eqb (s_type s) "MOVIE"); now eexists.
Qed.

Lemma poll_active_strip (types : list string) (w : host) (ctx : context) :
  poll types ctx = true ->
  exists s r,
    sequence_editor ctx = Some (Some s) /\ s_type s ∈ types /\
    active_strip_filepath w ctx = Returns r.
Proof.
  unfold poll, active_strip_filepath.
  destruct (sequence_editor ctx) as [[s|]|]; [|discriminate..].
  intros Htype%bool_decide_eq_true_1.
  destruct (get_strip_filepath_returns (host_abspath w) (host_join w) s (frame_current ctx))
    as (r & Hr).
  now exists s, r.
Qed.

Lemma read_jpeg_exif_gps_returns (fs : filesystem) (filepath : string) :
  exists r tr, read_jpeg_exif_gps fs filepath = (Ok r, tr).
Proof.
  unfold read_jpeg_exif_gps. destruct (fs filepath) as [c|]; [|now eexists _, _].
  pose proof (jpeg_body_converges c [EvOpen filepath]) as Hconv. unfold converges in Hconv.
  destruct (jpeg_body _ _) as [[r|e|] h]; cbn [fst] in Hconv; [| |easy]; now eexists _, _.
Qed.

Lemma falsy_false (filepath : option string) :
  falsy filepath = false -> filepath = Some (default ""%string filepath).
Proof. destruct filepath; [reflexivity | discriminate]. Qed.

(** Once [poll] has accepted the context, "Show in Google Maps" returns
    without an exception. It finishes exactly when it opens the browser,
    which it does at most for an existing JPEG file that the decoder finds
    coordinates in, with the URL of these coordinates; and it has the
    decoder open a file only if the file exists and has a JPEG extension. *)
Theorem show_in_google_maps_execute_finished (w : host) (ctx : context) :
  show_in_google_maps_poll ctx = true ->
  exists st evs,
    show_in_google_maps_execute w ctx = (Returns st, evs) /\
    ((exists url, Browse url ∈ evs) <-> st = FINISHED) /\
    (st = FINISHED ->
     exists filepath lat lon,
       active_strip_filepath w ctx = Returns (Some filepath) /\
       host_exists w filepath = true /\
       jpeg_extension (host_os w) filepath /\
       fst (read_jpeg_exif_gps (host_fs w) filepath) = Ok (Some (lat, lon)) /\
       Browse (maps_url w lat lon) ∈ evs) /\
    (forall tr, FileOps tr ∈ evs ->
       exists filepath,
         host_exists w filepath = true /\
         jpeg_extension (host_os w) filepath /\
         tr = snd (read_jpeg_exif_gps (host_fs w) filepath)).
Proof.
  intros Hpoll.
  destruct (poll_active_strip _ w ctx Hpoll) as (s & r & _ & _ & Hr).
  unfold show_in_google_maps_execute. rewrite Hr.
  assert (Hno : forall (l : list ui_event),
             (forall e, e ∈ l -> match e with Report _ _ => True | _ => False end) ->
             ((exists url, Browse url ∈ l) <-> CANCELLED = FINISHED) /\
             (CANCELLED = FINISHED ->
              exists filepath lat lon,
                Returns r = Returns (Some filepath) /\
                host_exists w filepath = true /\
                jpeg_extension (host_os w) filepath /\
                fst (read_jpeg_exif_gps (host_fs w) filepath) = Ok (Some (lat, lon)) /\
                Browse (maps_url w lat lon) ∈ l) /\
             (forall tr, FileOps tr ∈ l ->
                exists filepath,
                  host_exists w filepath = true /\
                  jpeg_extension (host_os w) filepath /\
                  tr = snd (read_jpeg_exif_gps (host_fs w) filepath))).
  { intros l Hl. split; [split; [intros (url & H%Hl); easy | discriminate]|].
    split; [discriminate|]. intros tr H%Hl. easy. }
  assert (Hone : forall e0 e : ui_event, e ∈ [e0] -> e = e0).
  { intros e0 e H. now apply list_elem_of_singleton in H. }
  destruct (falsy r) eqn:Hfalsy.
  { eexists _, _. split; [reflexivity|]. apply Hno. intros e ->%Hone. exact I. }
  apply falsy_false in Hfalsy. set (filepath := default ""%string r) in *.
  destruct (host_exists w filepath) eqn:Hex; cbn [negb].
  2: { eexists _, _. split; [reflexivity|]. apply Hno. intros e ->%Hone. exact I. }
  destruct (bool_decide (_ ∈ _)) eqn:Hext; cbn [negb].
  2: { eexists _, _. split; [reflexivity|]. apply Hno. intros e ->%Hone. exact I. }
  assert (Hjpeg : jpeg_extension (host_os w) filepath)
    by (now apply bool_decide_eq_true_1 in Hext).
  assert (Hgps : get_gps_coordinates (host_os w) (host_fs w) filepath
                 = read_jpeg_exif_gps (host_fs w) filepath).
  { unfold get_gps_coordinates. now rewrite Hext. }
  rewrite Hgps.
  destruct (read_jpeg_exif_gps_returns (host_fs w) filepath) as (res & tr & Hread).
  rewrite Hread. destruct res as [[lat lon]|].
  - eexists _, _. split; [reflexivity|]. split; [|split].
    + split; [reflexivity|]. intros _. eexists. apply elem_of_cons. right.
      apply elem_of_cons. now left.
    + intros _. exists filepath, lat, lon. split; [now rewrite Hfalsy|].
      split; [exact Hex|]. split; [exact Hjpeg|]. split; [now rewrite Hread|].
      apply elem_of_cons. right. apply elem_of_cons. now left.
    + intros tr' H. exists filepath. split; [exact Hex|]. split; [exact Hjpeg|].
      rewrite Hread. cbn [snd].
      repeat (apply elem_of_cons in H as [H|H]; [congruence|]).
      now apply elem_of_nil in H.
  - eexists _, _. split; [reflexivity|]. split; [|split].
    + split; [|discriminate]. intros (url & H).
      repeat (apply elem_of_cons in H as [H|H]; [discriminate|]).
      now apply elem_of_nil in H.
    + discriminate.
    + intros tr' H. exists filepath. split; [exact Hex|]. split; [exact Hjpeg|].
      rewrite Hread. cbn [snd].
      repeat (apply elem_of_cons in H as [H|H]; [congruence|]).
      now apply elem_of_nil in H.
Qed.

(** Once [poll] has accepted the context and the add-on has its
    preferences, "Open in GIMP" returns without an exception. Whatever it
    starts is started for the file of the active strip, which exists, and
    the program is the configured path when there is one and the detected
    path otherwise; it finishes exactly when the program was started. *)
Theorem open_in_gimp_execute_launch (w : host) (ctx : context) (prefs_gimp_path : string) :
  open_in_gimp_poll ctx = true ->
  addon_gimp_path ctx = Some prefs_gimp_path ->
  exists st evs,
    open_in_gimp_execute w ctx = (Returns st, evs) /\
    (forall args, Launch args ∈ evs ->
       exists filepath,
         active_strip_filepath w ctx = Returns (Some filepath) /\
         host_exists w filepath = true /\
         args = [ if String.eqb prefs_gimp_path "" then
                    get_default_gimp_path (host_system w) (host_expandvars w) (host_exists w)
                  else prefs_gimp_path;
                  filepath ]) /\
    (st = FINISHED <-> exists args, Launch args ∈ evs /\ host_popen w args = Started).
Proof.
  intros Hpoll Hprefs.
  destruct (poll_active_strip _ w ctx Hpoll) as (s & r & _ & _ & Hr).
  unfold open_in_gimp_execute. rewrite Hr.
  assert (Hone : forall e0 e : ui_event, e ∈ [e0] -> e = e0).
  { intros e0 e H. now apply list_elem_of_singleton in H. }
  assert (Hno : forall level message,
             (forall args, Launch args ∈ [Report level message] ->
                exists filepath,
                  Returns r = Returns (Some filepath) /\
                  host_exists w filepath = true /\
                  args = [ if String.eqb prefs_gimp_path "" then
                             get_default_gimp_path (host_system w) (host_expandvars w)
                               (host_exists w)
                           else prefs_gimp_path;
                           filepath ]) /\
             (CANCELLED = FINISHED <->
              exists args, Launch args ∈ [Report level message]
                           /\ host_popen w args = Started)).
  { intros level message. split; [intros args H%Hone; discriminate|].
    split; [discriminate|]. intros (args & H%Hone & _). discriminate. }
  destruct (falsy r) eqn:Hfalsy.
  { eexists _, _. split; [reflexivity|]. apply Hno. }
  apply falsy_false in Hfalsy. set (filepath := default ""%string r) in *.
  destruct (host_exists w filepath) eqn:Hex; cbn [negb].
  2: { eexists _, _. split; [reflexivity|]. apply Hno. }
  rewrite Hprefs.
  set (gimp_path := if negb (String.eqb prefs_gimp_path "") then _ else _).
  assert (Hg : gimp_path = if String.eqb prefs_gimp_path "" then
                  get_default_gimp_path (host_system w) (host_expandvars w) (host_exists w)
                else prefs_gimp_path).
  { subst gimp_path. now destruct (String.eqb prefs_gimp_path ""). }
  assert (Hlaunch : forall (m : ui_event) args,
             (forall a, m <> Launch a) ->
             Launch args ∈ [Launch [gimp_path; filepath]; m] ->
             args = [gimp_path; filepath]).
  { intros m args Hm H. apply elem_of_cons in H as [H|H]; [congruence|].
    apply Hone in H. symmetry in H. now apply Hm in H. }
  assert (Hargs : forall (m : ui_event) args,
             (forall a, m <> Launch a) ->
             Launch args ∈ [Launch [gimp_path; filepath]; m] ->
             exists filepath0,
               Returns r = Returns (Some filepath0) /\
               host_exists w filepath0 = true /\
               args = [ if String.eqb prefs_gimp_path "" then
                          get_default_gimp_path (host_system w) (host_expandvars w)
                            (host_exists w)
                        else prefs_gimp_path;
                        filepath0 ]).
  { intros m args Hm ->%Hlaunch; [|exact Hm].
    exists filepath. rewrite <- Hg. now rewrite Hfalsy. }
  destruct (host_popen w [gimp_path; filepath]) eqn:Hpopen.
  - eexists _, _. split; [reflexivity|]. split.
    + intros args. apply Hargs. discriminate.
    + split; [|reflexivity]. intros _. exists [gimp_path; filepath].
      split; [apply elem_of_cons; now left | exact Hpopen].
  - eexists _, _. split; [reflexivity|]. split.
    + intros args. apply Hargs. discriminate.
    + split; [discriminate|]. intros (args & ->%Hlaunch & Hst); [congruence | discriminate].
  - eexists _, _. split; [reflexivity|]. split.
    + intros args. apply Hargs. discriminate.
    + split; [discriminate|]. intros (args & ->%Hlaunch & Hst); [congruence | discriminate].
Qed.

(** ** What a successful decode says about the file *)

Lemma f_read_Ok (n : Z) (h h' : handle) (d : bytes) :
  f_read n h = (Ok d, h') ->
  0 <= n -> 0 <= pos h ->
  d = py_slice (content h) (pos h) (pos h + n) /\
  content h' = content h /\ pos h' = pos h + len d /\ len d <= n.
Proof.
  intros H Hn Hp. rewrite f_read_at in H by lia. injection H as <- <-. cbn [pos content].
  rewrite py_slice_take_drop by lia. split; [reflexivity|].
  split; [reflexivity|]. split; [reflexivity|].
  rewrite len_take_drop by lia. lia.
Qed.

(** Coordinates come from Exif data only: when the decoder returns a pair,
    the file starts with FF D8 and holds, somewhere behind, the marker
    FF E1, two bytes further the signature "Exif\0\0", and behind the
    signature a TIFF header with the byte order mark "II" or "MM". *)
Theorem read_jpeg_exif_gps_some_is_exif (fs : filesystem) (filepath : string)
    (latitude longitude : pynum) (tr : list event) :
  read_jpeg_exif_gps fs filepath = (Ok (Some (latitude, longitude)), tr) ->
  exists (c : bytes) (k : Z),
    fs filepath = Some c /\
    take 2 c = SOI /\
    2 <= k /\
    py_slice c k (k + 2) = APP1 /\
    py_slice c (k + 4) (k + 10) = EXIF /\
    is_Some (byte_order (py_slice c (k + 10) (k + 18))).
Proof.
  unfold read_jpeg_exif_gps. destruct (fs filepath) as [c|]; [|discriminate].
  destruct (jpeg_body _ _) as [[r|e|] h] eqn:Hbody; [|discriminate..].
  intros [= -> _]. exists c.
  unfold jpeg_body in Hbody.
  apply bind_Ok in Hbody as (tiff & h1 & Hloc & Hdec).
  destruct tiff as [[[ts endian] off]|]; [|discriminate]. clear Hdec.
  unfold locate_tiff in Hloc.
  apply bind_Ok in Hloc as (magic & h2 & Hmagic & Hloc).
  apply f_read_Ok in Hmagic as (Hm & Hc2 & Hp2 & Hl2); [|lia|cbn [pos]; lia].
  cbn [pos content] in *.
  destruct (bytes_eqb magic SOI) eqn:Hsoi; cbn [negb] in Hloc; [|discriminate].
  apply bytes_eqb_eq in Hsoi. rewrite Hsoi in *. clear Hsoi magic.
  apply bind_Ok in Hloc as (found & h3 & Hfind & Hhdr).
  destruct found; [|discriminate].
  apply find_app1_sound in Hfind as (Hc3 & Hp3 & Happ1);
    [|rewrite Hp2; change (len SOI) with 2; lia].
  rewrite Hc2 in Hc3, Happ1. rewrite Hp2 in Hp3. change (len SOI) with 2 in Hp3.
  unfold read_tiff_header in Hhdr.
  apply bind_Ok in Hhdr as (b & h4 & Hb & Hhdr).
  apply f_read_Ok in Hb as (Hbv & Hc4 & Hp4 & Hl4); [|lia..].
  apply bind_Ok in Hhdr as (L & h5 & HL & Hhdr).
  unfold lift in HL. injection HL as HL <-.
  apply struct_unpack_Ok in HL as [Hblen _].
  apply bind_Ok in Hhdr as (sig & h6 & Hsig & Hhdr).
  apply f_read_Ok in Hsig as (Hsigv & Hc6 & Hp6 & Hl6); [|lia..].
  destruct (bytes_eqb sig EXIF) eqn:Hexif; cbn [negb] in Hhdr; [|discriminate].
  apply bytes_eqb_eq in Hexif.
  assert (Hsig6 : len sig = 6) by now rewrite Hexif.
  apply bind_Ok in Hhdr as (ts' & h7 & Htell & Hhdr).
  unfold f_tell in Htell. injection Htell as <- <-.
  apply bind_Ok in Hhdr as (hdr & h8 & Hrd & Hhdr).
  apply f_read_Ok in Hrd as (Hhdrv & _ & _ & _); [|lia..].
  destruct (byte_order hdr) as [e'|] eqn:Hbo; [|discriminate].
  exists (pos h3 - 2).
  split; [reflexivity|]. split.
  { rewrite Hm. symmetry. now apply (py_slice_take_drop c 0 2). }
  split; [lia|].
  replace (pos h3 - 2 + 2) with (pos h3) by lia.
  split; [exact Happ1|].
  rewrite Hc6, Hc4, Hc3 in *.
  split.
  - rewrite <- Hexif, Hsigv. f_equal; lia.
  - exists e'. rewrite <- Hbo, Hhdrv. do 2 f_equal; lia.
Qed.

(** ** The extension dispatch *)

Lemma rfind_last (c : ascii) (a b : str) :
  c ∉ b -> rfind c (a ++ c :: b) = len a.
Proof.
  intros Hb. destruct (rfind_spec c (a ++ c :: b)) as [[_ Hnot]|(a' & b' & Hp & Hb' & ->)].
  - exfalso. apply Hnot. apply elem_of_app. right. apply elem_of_cons. now left.
  - pose proof (last_occurrence_unique _ _ _ _ _ Hp Hb Hb') as ->.
    apply app_inv_tail in Hp. now rewrite Hp.
Qed.

Lemma rfind_before (c : ascii) (a b : str) :
  c ∉ b -> rfind c (a ++ b) < len a.
Proof.
  intros Hb. destruct (rfind_spec c (a ++ b)) as [[-> _]|(a' & b' & Hp & Hb' & ->)].
  - pose proof (len_nonneg a). lia.
  - destruct (Z.lt_ge_cases (len a') (len a)) as [|Hge]; [assumption|]. exfalso.
    assert (Hlook : (a ++ b) !! length a' = Some c).
    { rewrite Hp. rewrite lookup_app_r by lia. now rewrite Nat.sub_diag. }
    rewrite lookup_app_r in Hlook by (unfold len in Hge; lia).
    apply Hb. eapply list_elem_of_lookup_2. exact Hlook.
Qed.

Lemma has_name_before_dot_true (n : nat) (p : str) (e : ascii) (i j : Z) :
  i <= j < i + Z.of_nat n ->
  py_slice p j (j + 1) <> [e] ->
  has_name_before_dot n p e i = true.
Proof.
  revert i; induction n as [|n IH]; intros i Hj Hne; [lia|].
  cbn [has_name_before_dot].
  destruct (bool_decide (py_slice p i (i + 1) = [e])) eqn:Hd; [|reflexivity].
  cbn [negb]. apply bool_decide_eq_true_1 in Hd.
  apply IH; [|exact Hne].
  destruct (Z.eq_dec i j) as [->|]; [contradiction | lia].
Qed.

(** The separators of [os] do not occur in [s]. *)
Lemma sep_index_before (os : os_path) (a b : str) :
  sep os ∉ b -> (forall alt, altsep os = Some alt -> alt ∉ b) ->
  match altsep os with
  | Some alt => Z.max (rfind (sep os) (a ++ b)) (rfind alt (a ++ b))
  | None => rfind (sep os) (a ++ b)
  end < len a.
Proof.
  intros Hsep Halt. pose proof (rfind_before (sep os) a b Hsep).
  destruct (altsep os) as [alt|]; [|assumption].
  pose proof (rfind_before alt a b (Halt alt eq_refl)). lia.
Qed.

Lemma splitext_named (os : os_path) (stem : str) (ch : ascii) (e : str) :
  ch <> extsep os -> ch <> sep os -> altsep os <> Some ch ->
  sep os <> extsep os -> altsep os <> Some (extsep os) ->
  extsep os ∉ e -> sep os ∉ e -> (forall alt, altsep os = Some alt -> alt ∉ e) ->
  snd (splitext os (stem ++ ch :: extsep os :: e)) = extsep os :: e.
Proof.
  intros Hch1 Hch2 Hch3 Hs1 Hs2 He Hsep Halt.
  set (p := stem ++ ch :: extsep os :: e).
  assert (Hp : p = (stem ++ [ch]) ++ extsep os :: e).
  { subst p. now rewrite <- app_assoc. }
  unfold splitext. fold p.
  assert (Hdot : rfind (extsep os) p = len stem + 1).
  { rewrite Hp, rfind_last by exact He. rewrite len_app. reflexivity. }
  rewrite Hdot.
  set (sepIndex := match altsep os with
                   | Some a => Z.max (rfind (sep os) p) (rfind a p)
                   | None => rfind (sep os) p
                   end).
  assert (Hsi : sepIndex < len stem).
  { subst sepIndex p. apply sep_index_before.
    - intros H. apply elem_of_cons in H as [H|H]; [congruence|].
      apply elem_of_cons in H as [H|H]; [congruence | contradiction].
    - intros alt Ha H. apply elem_of_cons in H as [H|H]; [congruence|].
      apply elem_of_cons in H as [H|H]; [congruence | now apply (Halt alt Ha)]. }
  assert (Hlow : -1 <= sepIndex).
  { subst sepIndex. pose proof (rfind_lower_bound (sep os) p).
    destruct (altsep os); lia. }
  destruct (Z.ltb_spec sepIndex (len stem + 1)) as [_|]; [|lia]. cbn [andb].
  pose proof (len_nonneg stem) as Hstem.
  rewrite (has_name_before_dot_true _ p (extsep os) (sepIndex + 1) (len stem)).
  - cbn [snd]. rewrite Hp.
    replace (len ((stem ++ [ch]) ++ extsep os :: e))
      with (len (stem ++ [ch]) + len (extsep os :: e)) by (symmetry; apply len_app).
    replace (len stem + 1) with (len (stem ++ [ch])) by apply len_app.
    rewrite py_slice_take_drop by apply len_nonneg.
    unfold len. rewrite !Nat2Z.id, drop_app_length. apply firstn_all.
  - lia.
  - subst p. rewrite py_slice_take_drop by lia.
    unfold len. rewrite Nat2Z.id, drop_app_length.
    change (Z.to_nat 1) with 1%nat. cbn [take firstn]. congruence.
Qed.

Lemma lower_char_not_in (c : ascii) (e : str) (target : str) :
  lower e = target -> lower_char c ∉ target -> c ∉ e.
Proof.
  intros <- Hnot Hin. apply Hnot. unfold lower.
  apply list_elem_of_In. apply in_map. now apply list_elem_of_In.
Qed.

Lemma jpeg_extension_chars (e : string) (c : ascii) :
  lower (list_ascii_of_string e) = list_ascii_of_string "jpg" \/
  lower (list_ascii_of_string e) = list_ascii_of_string "jpeg" ->
  c = "."%char \/ c = "/"%char \/ c = "\"%char ->
  c ∉ list_ascii_of_string e.
Proof.
  intros [He|He] Hc; apply (lower_char_not_in _ _ _ He);
    destruct Hc as [-> | [-> | ->]]; apply not_elem_of_by_decide; vm_compute; reflexivity.
Qed.

(** A path that ends in a character other than '.', '/' and '\', followed
    by ".jpg" or ".jpeg" in any mix of upper and lower case, is handed to
    the JPEG decoder, on POSIX and on Windows. *)
Theorem get_gps_coordinates_jpeg_extension (os : os_path) (fs : filesystem)
    (stem : string) (ch : ascii) (e : string) :
  os = posixpath \/ os = ntpath ->
  ch <> "."%char -> ch <> "/"%char -> ch <> "\"%char ->
  lower (list_ascii_of_string e) = list_ascii_of_string "jpg" \/
  lower (list_ascii_of_string e) = list_ascii_of_string "jpeg" ->
  get_gps_coordinates os fs (stem ++ String ch (String "." e))
  = read_jpeg_exif_gps fs (stem ++ String ch (String "." e)).
Proof.
  intros Hos Hdot Hslash Hback He.
  pose proof (jpeg_extension_chars e "." He (or_introl eq_refl)) as He1.
  pose proof (jpeg_extension_chars e "/" He (or_intror (or_introl eq_refl))) as He2.
  pose proof (jpeg_extension_chars e "\" He (or_intror (or_intror eq_refl))) as He3.
  unfold get_gps_coordinates.
  rewrite list_ascii_of_string_app. cbn [list_ascii_of_string].
  assert (Hext : snd (splitext os (list_ascii_of_string stem
                                      ++ ch :: "."%char :: list_ascii_of_string e))
                 = "."%char :: list_ascii_of_string e).
  { destruct Hos as [-> | ->].
    - apply (splitext_named posixpath); cbn [sep altsep extsep posixpath];
        try congruence; try assumption.
    - apply (splitext_named ntpath); cbn [sep altsep extsep ntpath];
        try congruence; try assumption. }
  rewrite Hext. unfold lower at 1. cbn [map]. fold (lower (list_ascii_of_string e)).
  rewrite bool_decide_eq_true_2; [reflexivity|].
  change (lower_char ".") with "."%char.
  destruct He as [-> | ->]; [apply elem_of_cons; now left|].
  apply elem_of_cons; right. apply elem_of_cons; now left.
Qed.

(** A file whose name is nothing but the extension, such as ".jpg" or
    "photos/.jpeg", has no extension for [os.path.splitext]: it gets None,
    and is not opened. *)
Theorem get_gps_coordinates_bare_extension (os : os_path) (fs : filesystem)
    (dir e : string) :
  os = posixpath \/ os = ntpath ->
  dir = ""%string \/ (exists d, dir = (d ++ "/")%string) ->
  ("."%char ∉ list_ascii_of_string e) ->
  ("/"%char ∉ list_ascii_of_string e) ->
  ("\"%char ∉ list_ascii_of_string e) ->
  get_gps_coordinates os fs (dir ++ String "." e) = (Ok None, []).
Proof.
  intros Hos Hdir He1 He2 He3. apply get_gps_coordinates_unsupported.
  rewrite list_ascii_of_string_app. cbn [list_ascii_of_string].
  set (a := list_ascii_of_string dir). set (b := list_ascii_of_string e).
  assert (Hext : snd (splitext os (a ++ "."%char :: b)) = []).
  { unfold splitext.
    assert (Hdot : rfind (extsep os) (a ++ "."%char :: b) = len a).
    { destruct Hos as [-> | ->]; now apply rfind_last. }
    rewrite Hdot.
    set (sepIndex := match altsep os with
                     | Some alt => Z.max (rfind (sep os) (a ++ "."%char :: b))
                                         (rfind alt (a ++ "."%char :: b))
                     | None => rfind (sep os) (a ++ "."%char :: b)
                     end).
    assert (Hdotb : forall c, c <> "."%char -> c ∉ b -> c ∉ "."%char :: b).
    { intros c Hc Hb H. apply elem_of_cons in H as [H|H]; [congruence | contradiction]. }
    assert (Hsi : sepIndex = len a - 1).
    { assert (Hup : sepIndex < len a).
      { subst sepIndex. apply sep_index_before.
        - destruct Hos as [-> | ->]; apply Hdotb; [discriminate|assumption..|discriminate|assumption].
        - destruct Hos as [-> | ->]; intros alt [= <-]. apply Hdotb; [discriminate|assumption]. }
      assert (Hlow : -1 <= sepIndex).
      { subst sepIndex. pose proof (rfind_lower_bound (sep os) (a ++ "."%char :: b)).
        destruct (altsep os); lia. }
      destruct Hdir as [Hd|(d & Hd)].
      - subst a. rewrite Hd in *. change (len (list_ascii_of_string "")) with 0 in *. lia.
      - assert (Ha : a = list_ascii_of_string d ++ ["/"%char]).
        { subst a. rewrite Hd. now rewrite list_ascii_of_string_app. }
        assert (Hslash : rfind "/" (a ++ "."%char :: b) = len a - 1).
        { rewrite Ha, <- app_assoc. cbn [app]. rewrite rfind_last.
          - rewrite len_app. change (len ["/"%char]) with 1. lia.
          - apply Hdotb; [discriminate | assumption]. }
        subst sepIndex. destruct Hos as [-> | ->]; cbn [sep altsep posixpath ntpath] in *.
        + exact Hslash.
        + rewrite Hslash in *. lia. }
    rewrite Hsi. destruct (Z.ltb_spec (len a - 1) (len a)) as [_|]; [|lia].
    replace (Z.to_nat (len a - (len a - 1 + 1))) with 0%nat by lia.
    reflexivity. }
  rewrite Hext. apply not_elem_of_by_decide. vm_compute. reflexivity.
Qed.

(** ** Worked examples *)

Lemma app0_is_other_segment : other_segment app0_segment.
Proof.
  exists xe0, (pack 2 Big 16), (repeat x00 14), 16.
  split; [reflexivity|]. split; [discriminate|]. split; reflexivity.
Qed.

Lemma find_app1_reaches_app1_witness :
  let h := mkHandle (sample_jpeg Big x4e x57) 2 [] in
  (Forall other_segment [app0_segment] /\
   content h = SOI ++ concat [app0_segment] ++ APP1
               ++ drop 22 (sample_jpeg Big x4e x57) /\
   pos h = len SOI) /\
  exists h',
    find_app1 (S (length (content h))) h = (Ok true, h') /\
    content h' = content h /\
    pos h' = len SOI + len (concat [app0_segment]) + 2.
Proof.
  intros h.
  assert (H1 : Forall other_segment [app0_segment])
    by (repeat constructor; apply app0_is_other_segment).
  assert (H2 : content h = SOI ++ concat [app0_segment] ++ APP1
                           ++ drop 22 (sample_jpeg Big x4e x57)) by reflexivity.
  assert (H3 : pos h = len SOI) by reflexivity.
  split; [now repeat split|].
  exact (find_app1_reaches_app1 [app0_segment] SOI _ h H1 H2 H3).
Defined.

Lemma decode_ifds_relative_witness :
  let h := mkHandle (drop 30 (sample_jpeg Big x4e x57)) 8 [] in
  let h' := mkHandle (sample_jpeg Big x4e x57) 38 [] in
  (same_view 0 30 h h' /\ 0 <= 8) /\
  fst (decode_ifds 0 Big 8 h) = fst (decode_ifds 30 Big 8 h').
Proof.
  intros h h'.
  assert (H1 : same_view 0 30 h h').
  { unfold same_view, h, h'. cbn [pos content].
    repeat split; lia || reflexivity. }
  assert (H2 : 0 <= 8) by lia.
  split; [now split|].
  exact (decode_ifds_relative 0 30 Big 8 h h' H1 H2).
Defined.

Lemma read_jpeg_exif_gps_skips_segments_witness :
  let tail := EXIF ++ sample_tiff Little x53 x45 in
  (Forall other_segment [app0_segment; app0_segment] /\
   len (pack 2 Big 136) = 2 /\ len [x00; x00] = 2) /\
  fst (read_jpeg_exif_gps
         (single_file "a.jpg"
            (SOI ++ concat [app0_segment; app0_segment] ++ APP1
             ++ pack 2 Big 136 ++ tail)) "a.jpg")
  = fst (read_jpeg_exif_gps
           (single_file "a.jpg" (SOI ++ APP1 ++ [x00; x00] ++ tail)) "a.jpg").
Proof.
  intros tail.
  assert (H1 : Forall other_segment [app0_segment; app0_segment])
    by (repeat constructor; apply app0_is_other_segment).
  assert (H2 : len (pack 2 Big 136) = 2) by reflexivity.
  assert (H3 : len [x00; x00] = 2) by reflexivity.
  split; [now repeat split|].
  exact (read_jpeg_exif_gps_skips_segments "a.jpg" _ _ _ tail H1 H2 H3).
Defined.

Lemma read_jpeg_exif_gps_first_app1_not_exif_witness :
  let sig := [x68; x74; x74; x70; x3a; x2f] in
  let rest := APP1 ++ pack 2 Big 136 ++ EXIF ++ sample_tiff Big x4e x57 in
  (Forall other_segment [app0_segment] /\ len [x00; x08] = 2 /\ len sig = 6 /\
   sig <> EXIF) /\
  fst (read_jpeg_exif_gps
         (single_file "a.jpg"
            (SOI ++ concat [app0_segment] ++ APP1 ++ [x00; x08] ++ sig ++ rest)) "a.jpg")
  = Ok None.
Proof.
  intros sig rest.
  assert (H1 : Forall other_segment [app0_segment])
    by (repeat constructor; apply app0_is_other_segment).
  assert (H2 : len [x00; x08] = 2) by reflexivity.
  assert (H3 : len sig = 6) by reflexivity.
  assert (H4 : sig <> EXIF) by discriminate.
  split; [now repeat split|].
  exact (read_jpeg_exif_gps_first_app1_not_exif "a.jpg" _ _ sig rest H1 H2 H3 H4).
Defined.

Lemma read_jpeg_exif_gps_no_app1_witness :
  (Forall other_segment [app0_segment] /\
   (len [xff] < 2 \/ exists b0 b1 r, [xff] = b0 :: b1 :: r /\ b0 <> xff)) /\
  fst (read_jpeg_exif_gps
         (single_file "a.jpg" (SOI ++ concat [app0_segment] ++ [xff])) "a.jpg")
  = Ok None.
Proof.
  assert (H1 : Forall other_segment [app0_segment])
    by (repeat constructor; apply app0_is_other_segment).
  assert (H2 : len [xff] < 2 \/ exists b0 b1 r, [xff] = b0 :: b1 :: r /\ b0 <> xff)
    by (left; reflexivity).
  split; [now split|].
  exact (read_jpeg_exif_gps_no_app1 "a.jpg" _ _ H1 H2).
Defined.

Lemma read_jpeg_exif_gps_some_is_exif_witness :
  let fs := single_file "a.jpg" (sample_jpeg Big x53 x45) in
  let lat := py_neg (dms (ratio 40 1) (ratio 26 1) (ratio 46 1)) in
  let lon := dms (ratio 73 1) (ratio 59 1) (ratio 2 1) in
  let tr := snd (read_jpeg_exif_gps fs "a.jpg") in
  read_jpeg_exif_gps fs "a.jpg" = (Ok (Some (lat, lon)), tr) /\
  exists (c : bytes) (k : Z),
    fs "a.jpg"%string = Some c /\ take 2 c = SOI /\ 2 <= k /\
    py_slice c k (k + 2) = APP1 /\
    py_slice c (k + 4) (k + 10) = EXIF /\
    is_Some (byte_order (py_slice c (k + 10) (k + 18))).
Proof.
  intros fs lat lon tr.
  assert (H : read_jpeg_exif_gps fs "a.jpg" = (Ok (Some (lat, lon)), tr))
    by (vm_compute; reflexivity).
  split; [exact H|].
  exact (read_jpeg_exif_gps_some_is_exif fs "a.jpg" lat lon tr H).
Defined.

Lemma read_ifd_entries_complete_witness :
  let h := mkHandle (sample_tiff Big x4e x57) 0 [] in
  (0 <= 0 + 26 /\
   0 + 26 + 2 + 12 * field Big (content h) (0 + 26) 2 <= len (content h)) /\
  exists (entries : ifd) (h' : handle),
    read_ifd_entries 0 Big 26 h = (Ok entries, h') /\
    content h' = content h /\
    pos h' = 0 + 26 + 2 + 12 * field Big (content h) (0 + 26) 2 /\
    (forall t, entries !! t = None <->
               t ∉ (entries_at Big (content h) (0 + 26 + 2)
                      (Z.to_nat (field Big (content h) (0 + 26) 2))).*1) /\
    (forall l1 l2 t e,
       entries_at Big (content h) (0 + 26 + 2)
         (Z.to_nat (field Big (content h) (0 + 26) 2)) = l1 ++ (t, e) :: l2 ->
       t ∉ l2.*1 -> entries !! t = Some e).
Proof.
  intros h.
  assert (H1 : 0 <= 0 + 26) by lia.
  assert (H2 : 0 + 26 + 2 + 12 * field Big (content h) (0 + 26) 2 <= len (content h))
    by (vm_compute; discriminate).
  split; [now split|].
  exact (read_ifd_entries_complete 0 Big 26 h H1 H2).
Defined.

Lemma read_ifd_entries_truncated_witness :
  let h := mkHandle (take 40 (sample_tiff Big x4e x57)) 0 [] in
  (0 <= 0 + 26 /\
   (len (content h) < 0 + 26 + 2 \/
    (1 <= field Big (content h) (0 + 26) 2 /\
     len (content h) < 0 + 26 + 2 + 12 * field Big (content h) (0 + 26) 2 - 4))) /\
  exists h', read_ifd_entries 0 Big 26 h = (Raise StructError, h').
Proof.
  intros h.
  assert (H1 : 0 <= 0 + 26) by lia.
  assert (H2 : len (content h) < 0 + 26 + 2 \/
               (1 <= field Big (content h) (0 + 26) 2 /\
                len (content h)
                < 0 + 26 + 2 + 12 * field Big (content h) (0 + 26) 2 - 4)).
  { right. split; [vm_compute; discriminate | vm_compute; reflexivity]. }
  split; [now split|].
  exact (read_ifd_entries_truncated 0 Big 26 h H1 H2).
Defined.

Lemma read_ifd_entries_in_range_witness :
  let h := mkHandle (sample_tiff Little x4e x57) 0 [] in
  let entries : ifd := {[ 0x8825 := (4, 1, pack 4 Little 26) ]} in
  let h' := snd (read_ifd_entries 0 Little 8 h) in
  (read_ifd_entries 0 Little 8 h = (Ok entries, h') /\
   entries !! 0x8825 = Some (4, 1, pack 4 Little 26)) /\
  entry_in_range 0x8825 (4, 1, pack 4 Little 26).
Proof.
  intros h entries h'.
  assert (H1 : read_ifd_entries 0 Little 8 h = (Ok entries, h'))
    by (vm_compute; reflexivity).
  assert (H2 : entries !! 0x8825 = Some (4, 1, pack 4 Little 26))
    by (vm_compute; reflexivity).
  split; [now split|].
  exact (read_ifd_entries_in_range 0 Little 8 h h' entries H1 _ _ H2).
Defined.

Lemma get_default_gimp_path_first_existing_witness :
  ("Linux"%string <> "Windows"%string /\ "Linux"%string <> "Darwin"%string) /\
  get_default_gimp_path "Linux" (fun p => p) (fun _ => true) = "gimp"%string.
Proof.
  assert (H1 : "Linux"%string <> "Windows"%string) by discriminate.
  assert (H2 : "Linux"%string <> "Darwin"%string) by discriminate.
  split; [now split|].
  exact (proj2 (get_default_gimp_path_first_existing "Linux" (fun p => p) (fun _ => true))
           H1 H2).
Defined.

Lemma get_strip_filepath_clamped_witness :
  let join := fun d f => (d ++ "/" ++ f)%string in
  (s_type sample_strip = "IMAGE"%string /\ s_elements sample_strip <> []) /\
  exists filename,
    s_elements sample_strip
      !! Z.to_nat (Z.max 0 (Z.min (99 - s_frame_final_start sample_strip)
                                  (len (s_elements sample_strip) - 1)))
    = Some filename /\
    get_strip_filepath (fun p => p) join sample_strip 99
    = Returns (Some (join (s_directory sample_strip) filename)) /\
    (99 <= s_frame_final_start sample_strip ->
     head (s_elements sample_strip) = Some filename) /\
    (len (s_elements sample_strip) - 1 <= 99 - s_frame_final_start sample_strip ->
     last (s_elements sample_strip) = Some filename).
Proof.
  intros join.
  assert (H1 : s_type sample_strip = "IMAGE"%string) by reflexivity.
  assert (H2 : s_elements sample_strip <> []) by discriminate.
  split; [now split|].
  exact (proj2 (get_strip_filepath_clamped (fun p => p) join sample_strip 99) H1 H2).
Defined.

Lemma get_strip_filepath_none_witness :
  let s := mkStrip "IMAGE" "shots" [] "" 1 in
  ((s_type s = "IMAGE"%string /\ s_elements s = []) \/
   (s_type s <> "IMAGE"%string /\ s_type s <> "MOVIE"%string)) /\
  get_strip_filepath (fun p => p) (fun d f => (d ++ f)%string) s 5 = Returns None.
Proof.
  intros s.
  assert (H : (s_type s = "IMAGE"%string /\ s_elements s = []) \/
              (s_type s <> "IMAGE"%string /\ s_type s <> "MOVIE"%string))
    by (left; split; reflexivity).
  split; [exact H|].
  exact (proj2 (get_strip_filepath_none (fun p => p) (fun d f => (d ++ f)%string) s 5) H).
Defined.

Lemma show_in_google_maps_execute_finished_witness :
  let w := sample_host (fun _ => Started) in
  let ctx := sample_context 3 in
  show_in_google_maps_poll ctx = true /\
  exists st evs,
    show_in_google_maps_execute w ctx = (Returns st, evs) /\
    ((exists url, Browse url ∈ evs) <-> st = FINISHED) /\
    (st = FINISHED ->
     exists filepath lat lon,
       active_strip_filepath w ctx = Returns (Some filepath) /\
       host_exists w filepath = true /\
       jpeg_extension (host_os w) filepath /\
       fst (read_jpeg_exif_gps (host_fs w) filepath) = Ok (Some (lat, lon)) /\
       Browse (maps_url w lat lon) ∈ evs) /\
    (forall tr, FileOps tr ∈ evs ->
       exists filepath,
         host_exists w filepath = true /\
         jpeg_extension (host_os w) filepath /\
         tr = snd (read_jpeg_exif_gps (host_fs w) filepath)).
Proof.
  intros w ctx.
  assert (H : show_in_google_maps_poll ctx = true) by reflexivity.
  split; [exact H|].
  exact (show_in_google_maps_execute_finished w ctx H).
Defined.

Lemma open_in_gimp_execute_launch_witness :
  let w := sample_host (fun _ => NotFound) in
  let ctx := sample_context 11 in
  (open_in_gimp_poll ctx = true /\ addon_gimp_path ctx = Some ""%string) /\
  exists st evs,
    open_in_gimp_execute w ctx = (Returns st, evs) /\
    (forall args, Launch args ∈ evs ->
       exists filepath,
         active_strip_filepath w ctx = Returns (Some filepath) /\
         host_exists w filepath = true /\
         args = [ if String.eqb "" "" then
                    get_default_gimp_path (host_system w) (host_expandvars w) (host_exists w)
                  else ""%string;
                  filepath ]) /\
    (st = FINISHED <-> exists args, Launch args ∈ evs /\ host_popen w args = Started).
Proof.
  intros w ctx.
  assert (H1 : open_in_gimp_poll ctx = true) by reflexivity.
  assert (H2 : addon_gimp_path ctx = Some ""%string) by reflexivity.
  split; [now split|].
  exact (open_in_gimp_execute_launch w ctx "" H1 H2).
Defined.

Lemma get_gps_coordinates_jpeg_extension_witness :
  let fs := single_file "C:\Photos\IMG_1.JpEg" (sample_jpeg Big x4e x57) in
  ((ntpath = posixpath \/ ntpath = ntpath) /\
   "1"%char <> "."%char /\ "1"%char <> "/"%char /\ "1"%char <> "\"%char /\
   (lower (list_ascii_of_string "JpEg") = list_ascii_of_string "jpg" \/
    lower (list_ascii_of_string "JpEg") = list_ascii_of_string "jpeg")) /\
  get_gps_coordinates ntpath fs ("C:\Photos\IMG_" ++ String "1" (String "." "JpEg"))
  = read_jpeg_exif_gps fs ("C:\Photos\IMG_" ++ String "1" (String "." "JpEg")).
Proof.
  intros fs.
  assert (H1 : ntpath = posixpath \/ ntpath = ntpath) by (now right).
  assert (H2 : "1"%char <> "."%char) by discriminate.
  assert (H3 : "1"%char <> "/"%char) by discriminate.
  assert (H4 : "1"%char <> "\"%char) by discriminate.
  assert (H5 : lower (list_ascii_of_string "JpEg") = list_ascii_of_string "jpg" \/
               lower (list_ascii_of_string "JpEg") = list_ascii_of_string "jpeg")
    by (right; reflexivity).
  split; [now repeat split|].
  exact (get_gps_coordinates_jpeg_extension ntpath fs "C:\Photos\IMG_" "1" "JpEg"
           H1 H2 H3 H4 H5).
Defined.

Lemma get_gps_coordinates_bare_extension_witness :
  let fs := single_file "photos/.jpg" (sample_jpeg Big x4e x57) in
  ((posixpath = posixpath \/ posixpath = ntpath) /\
   ("photos/"%string = ""%string \/ exists d, "photos/"%string = (d ++ "/")%string) /\
   ("."%char ∉ list_ascii_of_string "jpg") /\
   ("/"%char ∉ list_ascii_of_string "jpg") /\
   ("\"%char ∉ list_ascii_of_string "jpg")) /\
  get_gps_coordinates posixpath fs ("photos/" ++ String "." "jpg") = (Ok None, []).
Proof.
  intros fs.
  assert (H1 : posixpath = posixpath \/ posixpath = ntpath) by (now left).
  assert (H2 : "photos/"%string = ""%string \/ exists d, "photos/"%string = (d ++ "/")%string)
    by (right; now exists "photos"%string).
  assert (H3 : "."%char ∉ list_ascii_of_string "jpg")
    by (apply not_elem_of_by_decide; vm_compute; reflexivity).
  assert (H4 : "/"%char ∉ list_ascii_of_string "jpg")
    by (apply not_elem_of_by_decide; vm_compute; reflexivity).
  assert (H5 : "\"%char ∉ list_ascii_of_string "jpg")
    by (apply not_elem_of_by_decide; vm_compute; reflexivity).
  split; [now repeat split|].
  exact (get_gps_coordinates_bare_extension posixpath fs "photos/" "jpg" H1 H2 H3 H4 H5).
Defined.
